(** * teslamate-telegram: session detection and notification formatting

    A shallow embedding of [main.go]: the per-car telemetry snapshot
    ([CarState]), the field-update operation ([Update]), the charging and
    driving session detector of the main loop ([evaluate]), the place-name
    resolver ([placeName], [truncate]) and the message formatters
    ([formatDuration], [finishChargingMessage], [finishDriveMessage],
    [statusMessage]).

    Go's [int] is a 64-bit two's-complement integer, modelled as [Z] with the
    wrap-around written out; [float32] and [float64] are IEEE-754 binary
    formats, modelled with the parametric operations of [SpecFloat]; a Go
    [string] is a sequence of bytes, modelled as [string]. *)

From Stdlib Require Import ZArith String Ascii List Bool Lia.
From Stdlib Require Import Floats.SpecFloat.
From Stdlib Require Import DecimalString DecimalN DecimalZ DecimalFacts.
From stdpp Require Import base decidable gmap.

Local Open Scope string_scope.
Local Open Scope Z_scope.

(** ** Machine integers *)

Module GoInt.

Definition min_int64 : Z := - 2 ^ 63.
Definition max_int64 : Z := 2 ^ 63 - 1.

(** Membership in the range of Go's [int] (64 bits). *)
Definition in_int64 (z : Z) : Prop := min_int64 <= z <= max_int64.

Definition in_int64b (z : Z) : bool := (min_int64 <=? z) && (z <=? max_int64).

(** Two's-complement wrap-around of an exact result into [int64]. *)
Definition wrap64 (z : Z) : Z := (z + 2 ^ 63) mod 2 ^ 64 - 2 ^ 63.

(** Conversion [uint64(x)] of a signed 64-bit value. *)
Definition to_uint64 (z : Z) : Z := z mod 2 ^ 64.

Definition sub64 (a b : Z) : Z := wrap64 (a - b).
Definition add64 (a b : Z) : Z := wrap64 (a + b).

End GoInt.

(** ** Floating point *)

Module GoFloat.

(** [float32] is binary32 and [float64] is binary64. *)
Definition prec32 : Z := 24.
Definition emax32 : Z := 128.
Definition prec64 : Z := 53.
Definition emax64 : Z := 1024.

Definition float32 : Type := spec_float.
Definition float64 : Type := spec_float.

Definition f32_zero : float32 := S754_zero false.

Definition sub32 : float32 -> float32 -> float32 := SFsub prec32 emax32.
Definition mul32 : float32 -> float32 -> float32 := SFmul prec32 emax32.
Definition div32 : float32 -> float32 -> float32 := SFdiv prec32 emax32.
Definition ltb32 : float32 -> float32 -> bool := SFltb.

Definition add64 : float64 -> float64 -> float64 := SFadd prec64 emax64.
Definition div64 : float64 -> float64 -> float64 := SFdiv prec64 emax64.

(** An untyped decimal constant [n / d] converted to [float32]: the
    quotient is rounded once, to nearest even. *)
Definition const32 (n d : positive) : float32 :=
  SFdiv prec32 emax32 (S754_finite false n 0) (S754_finite false d 0).

(** A decimal literal with sign, as [const32]. *)
Definition lit32 (neg : bool) (n d : positive) : float32 :=
  match const32 n d with
  | S754_finite _ m e => S754_finite neg m e
  | S754_zero _ => S754_zero neg
  | S754_infinity _ => S754_infinity neg
  | S754_nan => S754_nan
  end.

(** The conversion [float64(x)] of a [float32]: exact, renormalised. *)
Definition float64_of_float32 (x : float32) : float64 :=
  match x with
  | S754_finite s m e =>
      binary_normalize prec64 emax64 (cond_Zopp s (Zpos m)) e s
  | _ => x
  end.

(** The conversion [float64(n)] of an integer. *)
Definition float64_of_int (n : Z) : float64 :=
  binary_normalize prec64 emax64 n 0 false.

Definition float32_of_int (n : Z) : float32 :=
  binary_normalize prec32 emax32 n 0 false.

Definition is_nan (x : spec_float) : bool :=
  match x with S754_nan => true | _ => false end.

Definition is_zero (x : spec_float) : bool :=
  match x with S754_zero _ => true | _ => false end.

(** The sign bit of a number that is not a NaN. *)
Definition sign_bit (x : spec_float) : bool :=
  match x with
  | S754_zero s | S754_infinity s | S754_finite s _ _ => s
  | S754_nan => false
  end.

End GoFloat.

(** ** Library functions of Go used by the program *)

(** *** [strconv] *)

Module GoStrconv.

Definition digit_of (c : ascii) : option Z :=
  let n := Z.of_nat (nat_of_ascii c) in
  if (48 <=? n) && (n <=? 57) then Some (n - 48) else None.

(** Digits are accumulated most significant first. *)
Fixpoint parse_digits (s : string) (acc : Z) : option Z :=
  match s with
  | EmptyString => Some acc
  | String c r =>
      match digit_of c with
      | Some d => parse_digits r (acc * 10 + d)
      | None => None
      end
  end.

(** [strconv.Atoi]: an optional sign followed by at least one decimal
    digit; a value outside [int] is a range error.  [None] stands for a
    non-nil error. *)
Definition Atoi (s : string) : option Z :=
  let '(neg, body) :=
    match s with
    | String "-"%char r => (true, r)
    | String "+"%char r => (false, r)
    | _ => (false, s)
    end in
  match body with
  | EmptyString => None
  | _ =>
      match parse_digits body 0 with
      | Some n =>
          let v := if neg then - n else n in
          if GoInt.in_int64b v then Some v else None
      | None => None
      end
  end.

End GoStrconv.

(** *** [fmt] verbs *)

Module GoFmt.

(** [%d] of an integer. *)
Definition fmt_d (z : Z) : string := NilZero.string_of_int (Z.to_int z).

Fixpoint zeros (n : nat) : string :=
  match n with
  | O => EmptyString
  | S k => String "0"%char (zeros k)
  end.

(** Left padding with zeros up to a width. *)
Definition pad0 (width : nat) (s : string) : string :=
  (zeros (width - String.length s) ++ s)%string.

(** Nearest integer to [num / den], ties to the even one ([0 < den]). *)
Definition round_half_even (num den : Z) : Z :=
  let q := num / den in
  let r := num mod den in
  match 2 * r ?= den with
  | Lt => q
  | Gt => q + 1
  | Eq => if Z.even q then q else q + 1
  end.

(** The magnitude [m * 2 ^ e] scaled by [10 ^ p] and rounded to an
    integer, which is how [%.pf] chooses its digits. *)
Definition scaled_digits (p : nat) (m : positive) (e : Z) : Z :=
  let num := Zpos m * 10 ^ Z.of_nat p in
  if 0 <=? e then num * 2 ^ e else round_half_even num (2 ^ (- e)).

Definition fixed_string (p : nat) (n : Z) : string :=
  let scale := 10 ^ Z.of_nat p in
  (fmt_d (n / scale) ++
     match p with
     | O => EmptyString
     | _ => "." ++ pad0 p (fmt_d (n mod scale))
     end)%string.

Definition sign_string (s : bool) : string := if s then "-" else "".

(** [%.pf] (and [%0.f], which is [%.0f] with a zero flag that has no
    effect without a width). *)
Definition fmt_f (p : nat) (x : spec_float) : string :=
  match x with
  | S754_nan => "NaN"
  | S754_infinity false => "+Inf"
  | S754_infinity true => "-Inf"
  | S754_zero s => (sign_string s ++ fixed_string p 0)%string
  | S754_finite s m e =>
      (sign_string s ++ fixed_string p (scaled_digits p m e))%string
  end.

End GoFmt.

(** *** [time] *)

Module GoTime.

(** An instant: nanoseconds since the Unix epoch and the offset of its
    location in seconds east of UTC.  The monotonic clock reading that
    [time.Now] attaches is not modelled; [Sub] is the difference of the
    wall clocks. *)
Record Time := mkTime { unixNano : Z; zoneOffset : Z }.

(** The zero [Time]: January 1, year 1, 00:00 UTC. *)
Definition zeroTime : Time := mkTime (- 62135596800 * 10 ^ 9) 0.

(** A [Duration] is an [int64] count of nanoseconds. *)
Definition Duration : Type := Z.

Definition Minute : Duration := 60 * 10 ^ 9.
Definition Hour : Duration := 60 * Minute.
Definition minDuration : Duration := GoInt.min_int64.
Definition maxDuration : Duration := GoInt.max_int64.

(** [t.Sub(u)]: the difference, saturated to the range of [Duration]. *)
Definition Sub (t u : Time) : Duration :=
  let d := unixNano t - unixNano u in
  if d <? minDuration then minDuration
  else if maxDuration <? d then maxDuration
  else d.

(** [lessThanHalf(x, y)]: [uint64(x)+uint64(x) < uint64(y)]. *)
Definition lessThanHalf (x y : Duration) : bool :=
  GoInt.to_uint64 (GoInt.to_uint64 x + GoInt.to_uint64 x) <? GoInt.to_uint64 y.

(** [d.Round(m)]: rounding to the nearest multiple of [m], halfway values
    away from zero, saturating on overflow. *)
Definition Round (d m : Duration) : Duration :=
  if m <=? 0 then d
  else
    let r := Z.rem d m in
    if d <? 0 then
      let r := - r in
      if lessThanHalf r m then GoInt.add64 d r
      else
        let d1 := GoInt.add64 (GoInt.sub64 d m) r in
        if d1 <? d then d1 else minDuration
    else
      if lessThanHalf r m then GoInt.sub64 d r
      else
        let d1 := GoInt.sub64 (GoInt.add64 d m) r in
        if d <? d1 then d1 else maxDuration.

(** [d.Hours()]. *)
Definition Hours (d : Duration) : GoFloat.float64 :=
  let hour := Z.quot d Hour in
  let nsec := Z.rem d Hour in
  GoFloat.add64 (GoFloat.float64_of_int hour)
    (GoFloat.div64 (GoFloat.float64_of_int nsec)
       (GoFloat.float64_of_int (60 * 60 * 10 ^ 9))).

(** [t.Format("15:04")]: two-digit hour and minute of the wall clock. *)
Definition Format_15_04 (t : Time) : string :=
  let secs := unixNano t / 10 ^ 9 + zoneOffset t in
  (GoFmt.pad0 2 (GoFmt.fmt_d ((secs / 3600) mod 24)) ++ ":" ++
   GoFmt.pad0 2 (GoFmt.fmt_d ((secs / 60) mod 60)))%string.

End GoTime.

Import GoFloat.

(** ** Data model *)

(** The telemetry snapshot of a car ([type CarState struct]).  The field
    [at] of the source is [at_] here, [at] being a keyword. *)
Record CarState := mkCarState {
  at_ : GoTime.Time;
  geofence : string;
  chargerPower : Z;
  chargerVoltage : Z;
  timeToFullCharge : float32;
  chargerActualCurrent : Z;
  chargeEnergyAdded : float32;
  estBatteryRangeKm : float32;
  ratedBatteryRangeKm : float32;
  idealBatteryRangeKm : float32;
  batteryLevel : Z;
  shiftState : string;
  odometer : float32;
  outsideTemp : float32;
  insideTemp : float32;
  pluggedIn : bool;
  latitude : float32;
  longitude : float32
}.

(** The zero value [CarState{}]. *)
Definition zeroCarState : CarState :=
  {| at_ := GoTime.zeroTime; geofence := ""; chargerPower := 0;
     chargerVoltage := 0; timeToFullCharge := f32_zero;
     chargerActualCurrent := 0; chargeEnergyAdded := f32_zero;
     estBatteryRangeKm := f32_zero; ratedBatteryRangeKm := f32_zero;
     idealBatteryRangeKm := f32_zero; batteryLevel := 0; shiftState := "";
     odometer := f32_zero; outsideTemp := f32_zero; insideTemp := f32_zero;
     pluggedIn := false; latitude := f32_zero; longitude := f32_zero |}.

(** Assignments to a single field of a snapshot. *)
Definition set_at_ (v : GoTime.Time) (s : CarState) : CarState :=
  {| at_ := v; geofence := geofence s; chargerPower := chargerPower s;
     chargerVoltage := chargerVoltage s; timeToFullCharge :=
     timeToFullCharge s; chargerActualCurrent := chargerActualCurrent s;
     chargeEnergyAdded := chargeEnergyAdded s; estBatteryRangeKm :=
     estBatteryRangeKm s; ratedBatteryRangeKm := ratedBatteryRangeKm s;
     idealBatteryRangeKm := idealBatteryRangeKm s; batteryLevel :=
     batteryLevel s; shiftState := shiftState s; odometer := odometer s;
     outsideTemp := outsideTemp s; insideTemp := insideTemp s; pluggedIn :=
     pluggedIn s; latitude := latitude s; longitude := longitude s |}.

Definition set_geofence (v : string) (s : CarState) : CarState :=
  {| at_ := at_ s; geofence := v; chargerPower := chargerPower s;
     chargerVoltage := chargerVoltage s; timeToFullCharge :=
     timeToFullCharge s; chargerActualCurrent := chargerActualCurrent s;
     chargeEnergyAdded := chargeEnergyAdded s; estBatteryRangeKm :=
     estBatteryRangeKm s; ratedBatteryRangeKm := ratedBatteryRangeKm s;
     idealBatteryRangeKm := idealBatteryRangeKm s; batteryLevel :=
     batteryLevel s; shiftState := shiftState s; odometer := odometer s;
     outsideTemp := outsideTemp s; insideTemp := insideTemp s; pluggedIn :=
     pluggedIn s; latitude := latitude s; longitude := longitude s |}.

Definition set_chargerPower (v : Z) (s : CarState) : CarState :=
  {| at_ := at_ s; geofence := geofence s; chargerPower := v; chargerVoltage
     := chargerVoltage s; timeToFullCharge := timeToFullCharge s;
     chargerActualCurrent := chargerActualCurrent s; chargeEnergyAdded :=
     chargeEnergyAdded s; estBatteryRangeKm := estBatteryRangeKm s;
     ratedBatteryRangeKm := ratedBatteryRangeKm s; idealBatteryRangeKm :=
     idealBatteryRangeKm s; batteryLevel := batteryLevel s; shiftState :=
     shiftState s; odometer := odometer s; outsideTemp := outsideTemp s;
     insideTemp := insideTemp s; pluggedIn := pluggedIn s; latitude :=
     latitude s; longitude := longitude s |}.

Definition set_chargerVoltage (v : Z) (s : CarState) : CarState :=
  {| at_ := at_ s; geofence := geofence s; chargerPower := chargerPower s;
     chargerVoltage := v; timeToFullCharge := timeToFullCharge s;
     chargerActualCurrent := chargerActualCurrent s; chargeEnergyAdded :=
     chargeEnergyAdded s; estBatteryRangeKm := estBatteryRangeKm s;
     ratedBatteryRangeKm := ratedBatteryRangeKm s; idealBatteryRangeKm :=
     idealBatteryRangeKm s; batteryLevel := batteryLevel s; shiftState :=
     shiftState s; odometer := odometer s; outsideTemp := outsideTemp s;
     insideTemp := insideTemp s; pluggedIn := pluggedIn s; latitude :=
     latitude s; longitude := longitude s |}.

Definition set_timeToFullCharge (v : float32) (s : CarState) : CarState :=
  {| at_ := at_ s; geofence := geofence s; chargerPower := chargerPower s;
     chargerVoltage := chargerVoltage s; timeToFullCharge := v;
     chargerActualCurrent := chargerActualCurrent s; chargeEnergyAdded :=
     chargeEnergyAdded s; estBatteryRangeKm := estBatteryRangeKm s;
     ratedBatteryRangeKm := ratedBatteryRangeKm s; idealBatteryRangeKm :=
     idealBatteryRangeKm s; batteryLevel := batteryLevel s; shiftState :=
     shiftState s; odometer := odometer s; outsideTemp := outsideTemp s;
     insideTemp := insideTemp s; pluggedIn := pluggedIn s; latitude :=
     latitude s; longitude := longitude s |}.

Definition set_chargerActualCurrent (v : Z) (s : CarState) : CarState :=
  {| at_ := at_ s; geofence := geofence s; chargerPower := chargerPower s;
     chargerVoltage := chargerVoltage s; timeToFullCharge :=
     timeToFullCharge s; chargerActualCurrent := v; chargeEnergyAdded :=
     chargeEnergyAdded s; estBatteryRangeKm := estBatteryRangeKm s;
     ratedBatteryRangeKm := ratedBatteryRangeKm s; idealBatteryRangeKm :=
     idealBatteryRangeKm s; batteryLevel := batteryLevel s; shiftState :=
     shiftState s; odometer := odometer s; outsideTemp := outsideTemp s;
     insideTemp := insideTemp s; pluggedIn := pluggedIn s; latitude :=
     latitude s; longitude := longitude s |}.

Definition set_chargeEnergyAdded (v : float32) (s : CarState) : CarState :=
  {| at_ := at_ s; geofence := geofence s; chargerPower := chargerPower s;
     chargerVoltage := chargerVoltage s; timeToFullCharge :=
     timeToFullCharge s; chargerActualCurrent := chargerActualCurrent s;
     chargeEnergyAdded := v; estBatteryRangeKm := estBatteryRangeKm s;
     ratedBatteryRangeKm := ratedBatteryRangeKm s; idealBatteryRangeKm :=
     idealBatteryRangeKm s; batteryLevel := batteryLevel s; shiftState :=
     shiftState s; odometer := odometer s; outsideTemp := outsideTemp s;
     insideTemp := insideTemp s; pluggedIn := pluggedIn s; latitude :=
     latitude s; longitude := longitude s |}.

Definition set_estBatteryRangeKm (v : float32) (s : CarState) : CarState :=
  {| at_ := at_ s; geofence := geofence s; chargerPower := chargerPower s;
     chargerVoltage := chargerVoltage s; timeToFullCharge :=
     timeToFullCharge s; chargerActualCurrent := chargerActualCurrent s;
     chargeEnergyAdded := chargeEnergyAdded s; estBatteryRangeKm := v;
     ratedBatteryRangeKm := ratedBatteryRangeKm s; idealBatteryRangeKm :=
     idealBatteryRangeKm s; batteryLevel := batteryLevel s; shiftState :=
     shiftState s; odometer := odometer s; outsideTemp := outsideTemp s;
     insideTemp := insideTemp s; pluggedIn := pluggedIn s; latitude :=
     latitude s; longitude := longitude s |}.

Definition set_ratedBatteryRangeKm (v : float32) (s : CarState) : CarState :=
  {| at_ := at_ s; geofence := geofence s; chargerPower := chargerPower s;
     chargerVoltage := chargerVoltage s; timeToFullCharge :=
     timeToFullCharge s; chargerActualCurrent := chargerActualCurrent s;
     chargeEnergyAdded := chargeEnergyAdded s; estBatteryRangeKm :=
     estBatteryRangeKm s; ratedBatteryRangeKm := v; idealBatteryRangeKm :=
     idealBatteryRangeKm s; batteryLevel := batteryLevel s; shiftState :=
     shiftState s; odometer := odometer s; outsideTemp := outsideTemp s;
     insideTemp := insideTemp s; pluggedIn := pluggedIn s; latitude :=
     latitude s; longitude := longitude s |}.

Definition set_idealBatteryRangeKm (v : float32) (s : CarState) : CarState :=
  {| at_ := at_ s; geofence := geofence s; chargerPower := chargerPower s;
     chargerVoltage := chargerVoltage s; timeToFullCharge :=
     timeToFullCharge s; chargerActualCurrent := chargerActualCurrent s;
     chargeEnergyAdded := chargeEnergyAdded s; estBatteryRangeKm :=
     estBatteryRangeKm s; ratedBatteryRangeKm := ratedBatteryRangeKm s;
     idealBatteryRangeKm := v; batteryLevel := batteryLevel s; shiftState :=
     shiftState s; odometer := odometer s; outsideTemp := outsideTemp s;
     insideTemp := insideTemp s; pluggedIn := pluggedIn s; latitude :=
     latitude s; longitude := longitude s |}.

Definition set_batteryLevel (v : Z) (s : CarState) : CarState :=
  {| at_ := at_ s; geofence := geofence s; chargerPower := chargerPower s;
     chargerVoltage := chargerVoltage s; timeToFullCharge :=
     timeToFullCharge s; chargerActualCurrent := chargerActualCurrent s;
     chargeEnergyAdded := chargeEnergyAdded s; estBatteryRangeKm :=
     estBatteryRangeKm s; ratedBatteryRangeKm := ratedBatteryRangeKm s;
     idealBatteryRangeKm := idealBatteryRangeKm s; batteryLevel := v;
     shiftState := shiftState s; odometer := odometer s; outsideTemp :=
     outsideTemp s; insideTemp := insideTemp s; pluggedIn := pluggedIn s;
     latitude := latitude s; longitude := longitude s |}.

Definition set_shiftState (v : string) (s : CarState) : CarState :=
  {| at_ := at_ s; geofence := geofence s; chargerPower := chargerPower s;
     chargerVoltage := chargerVoltage s; timeToFullCharge :=
     timeToFullCharge s; chargerActualCurrent := chargerActualCurrent s;
     chargeEnergyAdded := chargeEnergyAdded s; estBatteryRangeKm :=
     estBatteryRangeKm s; ratedBatteryRangeKm := ratedBatteryRangeKm s;
     idealBatteryRangeKm := idealBatteryRangeKm s; batteryLevel :=
     batteryLevel s; shiftState := v; odometer := odometer s; outsideTemp :=
     outsideTemp s; insideTemp := insideTemp s; pluggedIn := pluggedIn s;
     latitude := latitude s; longitude := longitude s |}.

Definition set_odometer (v : float32) (s : CarState) : CarState :=
  {| at_ := at_ s; geofence := geofence s; chargerPower := chargerPower s;
     chargerVoltage := chargerVoltage s; timeToFullCharge :=
     timeToFullCharge s; chargerActualCurrent := chargerActualCurrent s;
     chargeEnergyAdded := chargeEnergyAdded s; estBatteryRangeKm :=
     estBatteryRangeKm s; ratedBatteryRangeKm := ratedBatteryRangeKm s;
     idealBatteryRangeKm := idealBatteryRangeKm s; batteryLevel :=
     batteryLevel s; shiftState := shiftState s; odometer := v; outsideTemp
     := outsideTemp s; insideTemp := insideTemp s; pluggedIn := pluggedIn s;
     latitude := latitude s; longitude := longitude s |}.

Definition set_outsideTemp (v : float32) (s : CarState) : CarState :=
  {| at_ := at_ s; geofence := geofence s; chargerPower := chargerPower s;
     chargerVoltage := chargerVoltage s; timeToFullCharge :=
     timeToFullCharge s; chargerActualCurrent := chargerActualCurrent s;
     chargeEnergyAdded := chargeEnergyAdded s; estBatteryRangeKm :=
     estBatteryRangeKm s; ratedBatteryRangeKm := ratedBatteryRangeKm s;
     idealBatteryRangeKm := idealBatteryRangeKm s; batteryLevel :=
     batteryLevel s; shiftState := shiftState s; odometer := odometer s;
     outsideTemp := v; insideTemp := insideTemp s; pluggedIn := pluggedIn s;
     latitude := latitude s; longitude := longitude s |}.

Definition set_insideTemp (v : float32) (s : CarState) : CarState :=
  {| at_ := at_ s; geofence := geofence s; chargerPower := chargerPower s;
     chargerVoltage := chargerVoltage s; timeToFullCharge :=
     timeToFullCharge s; chargerActualCurrent := chargerActualCurrent s;
     chargeEnergyAdded := chargeEnergyAdded s; estBatteryRangeKm :=
     estBatteryRangeKm s; ratedBatteryRangeKm := ratedBatteryRangeKm s;
     idealBatteryRangeKm := idealBatteryRangeKm s; batteryLevel :=
     batteryLevel s; shiftState := shiftState s; odometer := odometer s;
     outsideTemp := outsideTemp s; insideTemp := v; pluggedIn := pluggedIn
     s; latitude := latitude s; longitude := longitude s |}.

Definition set_pluggedIn (v : bool) (s : CarState) : CarState :=
  {| at_ := at_ s; geofence := geofence s; chargerPower := chargerPower s;
     chargerVoltage := chargerVoltage s; timeToFullCharge :=
     timeToFullCharge s; chargerActualCurrent := chargerActualCurrent s;
     chargeEnergyAdded := chargeEnergyAdded s; estBatteryRangeKm :=
     estBatteryRangeKm s; ratedBatteryRangeKm := ratedBatteryRangeKm s;
     idealBatteryRangeKm := idealBatteryRangeKm s; batteryLevel :=
     batteryLevel s; shiftState := shiftState s; odometer := odometer s;
     outsideTemp := outsideTemp s; insideTemp := insideTemp s; pluggedIn :=
     v; latitude := latitude s; longitude := longitude s |}.

Definition set_latitude (v : float32) (s : CarState) : CarState :=
  {| at_ := at_ s; geofence := geofence s; chargerPower := chargerPower s;
     chargerVoltage := chargerVoltage s; timeToFullCharge :=
     timeToFullCharge s; chargerActualCurrent := chargerActualCurrent s;
     chargeEnergyAdded := chargeEnergyAdded s; estBatteryRangeKm :=
     estBatteryRangeKm s; ratedBatteryRangeKm := ratedBatteryRangeKm s;
     idealBatteryRangeKm := idealBatteryRangeKm s; batteryLevel :=
     batteryLevel s; shiftState := shiftState s; odometer := odometer s;
     outsideTemp := outsideTemp s; insideTemp := insideTemp s; pluggedIn :=
     pluggedIn s; latitude := v; longitude := longitude s |}.

Definition set_longitude (v : float32) (s : CarState) : CarState :=
  {| at_ := at_ s; geofence := geofence s; chargerPower := chargerPower s;
     chargerVoltage := chargerVoltage s; timeToFullCharge :=
     timeToFullCharge s; chargerActualCurrent := chargerActualCurrent s;
     chargeEnergyAdded := chargeEnergyAdded s; estBatteryRangeKm :=
     estBatteryRangeKm s; ratedBatteryRangeKm := ratedBatteryRangeKm s;
     idealBatteryRangeKm := idealBatteryRangeKm s; batteryLevel :=
     batteryLevel s; shiftState := shiftState s; odometer := odometer s;
     outsideTemp := outsideTemp s; insideTemp := insideTemp s; pluggedIn :=
     pluggedIn s; latitude := latitude s; longitude := v |}.

(** The per-car aggregate ([type Car struct]).  The debounce timer
    [update] is a runtime handle; its firings are the [TimerFired] events
    of the main loop below. *)
Record Car := mkCar {
  displayName : string;
  state : string;
  carState : CarState;
  charging : bool;
  chargeStart : CarState;
  chargePeak : CarState;
  driving : bool;
  driveStart : CarState
}.

(** The value [&Car{...}] built when a car is discovered. *)
Definition newCar : Car :=
  {| displayName := ""; state := ""; carState := zeroCarState;
     charging := false; chargeStart := zeroCarState;
     chargePeak := zeroCarState; driving := false;
     driveStart := zeroCarState |}.

Definition set_displayName (v : string) (c : Car) : Car :=
  {| displayName := v; state := state c; carState := carState c;
     charging := charging c; chargeStart := chargeStart c;
     chargePeak := chargePeak c; driving := driving c;
     driveStart := driveStart c |}.

Definition set_state (v : string) (c : Car) : Car :=
  {| displayName := displayName c; state := v; carState := carState c;
     charging := charging c; chargeStart := chargeStart c;
     chargePeak := chargePeak c; driving := driving c;
     driveStart := driveStart c |}.

Definition set_carState (v : CarState) (c : Car) : Car :=
  {| displayName := displayName c; state := state c; carState := v;
     charging := charging c; chargeStart := chargeStart c;
     chargePeak := chargePeak c; driving := driving c;
     driveStart := driveStart c |}.

Definition set_charging (v : bool) (c : Car) : Car :=
  {| displayName := displayName c; state := state c; carState := carState c;
     charging := v; chargeStart := chargeStart c;
     chargePeak := chargePeak c; driving := driving c;
     driveStart := driveStart c |}.

Definition set_chargeStart (v : CarState) (c : Car) : Car :=
  {| displayName := displayName c; state := state c; carState := carState c;
     charging := charging c; chargeStart := v;
     chargePeak := chargePeak c; driving := driving c;
     driveStart := driveStart c |}.

Definition set_chargePeak (v : CarState) (c : Car) : Car :=
  {| displayName := displayName c; state := state c; carState := carState c;
     charging := charging c; chargeStart := chargeStart c;
     chargePeak := v; driving := driving c;
     driveStart := driveStart c |}.

Definition set_driving (v : bool) (c : Car) : Car :=
  {| displayName := displayName c; state := state c; carState := carState c;
     charging := charging c; chargeStart := chargeStart c;
     chargePeak := chargePeak c; driving := v;
     driveStart := driveStart c |}.

Definition set_driveStart (v : CarState) (c : Car) : Car :=
  {| displayName := displayName c; state := state c; carState := carState c;
     charging := charging c; chargeStart := chargeStart c;
     chargePeak := chargePeak c; driving := driving c;
     driveStart := v |}.

(** The decoded answer of the reverse-geocoding service. *)
Record LookupResult := mkLookupResult {
  DisplayName : string;
  Name : string
}.

(** ** Constants *)

(** [const RatedKMPerKwh = 7.47] and [const KMPerMile = 1.61], at the type
    [float32] of the expressions they are used in. *)
Definition RatedKMPerKwh : float32 := const32 747 100.
Definition KMPerMile : float32 := const32 161 100.

(** The older formatter names the same factor [KM_IN_MILE]. *)
Definition KM_IN_MILE : float32 := const32 161 100.

(** ** Text *)

Definition byte_string (l : list nat) : string :=
  string_of_list_ascii (List.map ascii_of_nat l).

Definition nl : string := byte_string [10%nat].

(** The glyphs of the message templates, byte for byte as the string
    literals of both source files hold them.  (The test file writes the
    same glyphs in plain UTF-8.) *)
Module Glyph.
Definition plug : string :=
  byte_string [195; 176; 197; 184; 226; 128; 157; 197; 146]%nat.
Definition clock : string :=
  byte_string [195; 176; 197; 184; 226; 128; 162; 226; 128; 148]%nat.
Definition arrow : string :=
  byte_string [195; 162; 226; 128; 160; 226; 128; 153]%nat.
Definition battery : string :=
  byte_string [195; 176; 197; 184; 226; 128; 157; 226; 128; 185]%nat.
Definition car : string :=
  byte_string [195; 176; 197; 184; 197; 161; 226; 128; 148]%nat.
Definition bolt : string :=
  byte_string [195; 162; 197; 161; 194; 161]%nat.
Definition thermometer : string :=
  byte_string [195; 176; 197; 184; 197; 146; 194; 161]%nat.
Definition degree : string := byte_string [195; 130; 194; 176]%nat.
Definition oncoming_car : string :=
  byte_string [195; 176; 197; 184; 197; 161; 203; 156]%nat.
End Glyph.

(** [strings.LastIndex(s, sep)] for a one-byte separator: the index of its
    last occurrence, or [-1]. *)
Fixpoint LastIndex_from (s : string) (sep : ascii) (i last : Z) : Z :=
  match s with
  | EmptyString => last
  | String c r =>
      LastIndex_from r sep (i + 1) (if Ascii.eqb c sep then i else last)
  end.

Definition LastIndex (s : string) (sep : ascii) : Z :=
  LastIndex_from s sep 0 (-1).

(** The slice [s[:n]] for [n <= len(s)]. *)
Definition prefix (n : nat) (s : string) : string := substring 0 n s.

(** [truncate(s, limit)].  Lengths and positions count bytes, as [len] and
    slicing do in Go; the limit is a natural number, as at the only call
    site ([truncate(name, 20)]). *)
Definition truncate (s : string) (limit : nat) : string :=
  if (String.length s <? limit)%nat then s
  else
    let l := LastIndex (prefix limit s) ","%char in
    let limit := if negb (l =? -1) then Z.to_nat l else limit in
    prefix limit s.

Definition driveShiftState (s : string) : bool :=
  String.eqb s "D" || String.eqb s "R".

Definition efficiency (start end_ : CarState) : float32 :=
  let kwh :=
    div32 (sub32 (ratedBatteryRangeKm start) (ratedBatteryRangeKm end_))
      RatedKMPerKwh in
  mul32
    (div32 (mul32 kwh (float32_of_int 1000))
       (sub32 (odometer end_) (odometer start)))
    KMPerMile.

Definition formatDuration (d : GoTime.Duration) : string :=
  let u := GoInt.to_uint64 (GoTime.Round d GoTime.Minute)
           / GoInt.to_uint64 GoTime.Minute in
  if u <? 60 then (GoFmt.fmt_d u ++ "m")%string
  else (GoFmt.fmt_d (u / 60) ++ "h" ++ GoFmt.fmt_d (u mod 60) ++ "m")%string.

(** ** The program *)

Section Program.

(** The reverse-geocoding request [nominatimLookup]; [None] stands for a
    non-nil error (network or decoding failure). *)
Variable nominatimLookup : float32 -> float32 -> option LookupResult.

(** [strconv.ParseFloat(value, 32)] followed by the conversion
    [float32(fvalue)]; [None] stands for a non-nil error. *)
Variable ParseFloat32 : string -> option float32.

Definition placeName (s : CarState) : string :=
  if negb (String.eqb (geofence s) "") then geofence s
  else
    match nominatimLookup (latitude s) (longitude s) with
    | Some result =>
        let name := Name result in
        let name := if String.eqb name "" then DisplayName result else name in
        if negb (String.eqb name "") then truncate name 20
        else "?"
    | None => "?"
    end.

(** *** [Update] *)

Definition update_int (value : string) (set : Z -> CarState -> CarState)
    (s : CarState) : CarState :=
  match GoStrconv.Atoi value with
  | Some ivalue => set ivalue s
  | None => s
  end.

Definition update_float (value : string)
    (set : float32 -> CarState -> CarState) (s : CarState) : CarState :=
  match ParseFloat32 value with
  | Some fvalue => set fvalue s
  | None => s
  end.

(** [car.Update(key, value)], with the reading [now] of the clock. *)
Definition Update (now : GoTime.Time) (key value : string) (car : Car) : Car :=
  let car := set_carState (set_at_ now (carState car)) car in
  let on_state (f : CarState -> CarState) : Car :=
    set_carState (f (carState car)) car in
  if String.eqb key "display_name" then set_displayName value car
  else if String.eqb key "state" then set_state value car
  else if String.eqb key "shift_state" then on_state (set_shiftState value)
  else if String.eqb key "geofence" then on_state (set_geofence value)
  else if String.eqb key "charger_power" then
    on_state (update_int value set_chargerPower)
  else if String.eqb key "charger_voltage" then
    on_state (update_int value set_chargerVoltage)
  else if String.eqb key "time_to_full_charge" then
    on_state (update_float value set_timeToFullCharge)
  else if String.eqb key "charger_actual_current" then
    on_state (update_int value set_chargerActualCurrent)
  else if String.eqb key "charge_energy_added" then
    on_state (update_float value set_chargeEnergyAdded)
  else if String.eqb key "est_battery_range_km" then
    on_state (update_float value set_estBatteryRangeKm)
  else if String.eqb key "ideal_battery_range_km" then
    on_state (update_float value set_idealBatteryRangeKm)
  else if String.eqb key "rated_battery_range_km" then
    on_state (update_float value set_ratedBatteryRangeKm)
  else if String.eqb key "battery_level" then
    on_state (update_int value set_batteryLevel)
  else if String.eqb key "odometer" then
    on_state (update_float value set_odometer)
  else if String.eqb key "outside_temp" then
    on_state (update_float value set_outsideTemp)
  else if String.eqb key "inside_temp" then
    on_state (update_float value set_insideTemp)
  else if String.eqb key "plugged_in" then
    on_state (set_pluggedIn (String.eqb value "true"))
  else if String.eqb key "latitude" then
    on_state (update_float value set_latitude)
  else if String.eqb key "longitude" then
    on_state (update_float value set_longitude)
  else car.

(** *** Messages *)

(** The formatted figures of the charging message, shared by both
    versions of the formatter. *)
Definition chargingAveragePower (start end_ : CarState) : float64 :=
  div64
    (float64_of_float32
       (sub32 (chargeEnergyAdded end_) (chargeEnergyAdded start)))
    (GoTime.Hours (GoTime.Sub (at_ end_) (at_ start))).

Definition finishChargingMessage (start end_ peak : CarState) : string :=
  let battery := GoInt.sub64 (batteryLevel end_) (batteryLevel start) in
  if battery =? 0 then ""
  else
    let duration := GoTime.Sub (at_ end_) (at_ start) in
    let averagePower := chargingAveragePower start end_ in
    let milesAdded :=
      div32 (sub32 (ratedBatteryRangeKm end_) (ratedBatteryRangeKm start))
        KMPerMile in
    (Glyph.plug ++ " Charging finished at " ++ placeName start ++ "." ++ nl ++
     Glyph.clock ++ " " ++ GoTime.Format_15_04 (at_ start) ++ Glyph.arrow ++
       GoTime.Format_15_04 (at_ end_) ++ " (" ++ formatDuration duration ++ ")" ++ nl ++
     Glyph.battery ++ " " ++ GoFmt.fmt_d (batteryLevel start) ++ Glyph.arrow ++
       GoFmt.fmt_d (batteryLevel end_) ++ "% (+ " ++ GoFmt.fmt_d battery ++ "%)" ++ nl ++
     Glyph.car ++ " " ++ GoFmt.fmt_f 0 (div32 (ratedBatteryRangeKm start) KMPerMile) ++
       Glyph.arrow ++ GoFmt.fmt_f 0 (div32 (ratedBatteryRangeKm end_) KMPerMile) ++
       " miles (+ " ++ GoFmt.fmt_f 1 milesAdded ++ " miles)." ++ nl ++
     Glyph.bolt ++ " + " ++ GoFmt.fmt_f 1 (chargeEnergyAdded end_) ++ "kWh" ++ nl ++
     "Average Power: " ++ GoFmt.fmt_f 2 averagePower ++ "kW (Peak " ++
       GoFmt.fmt_d (chargerPower peak) ++ "kW at " ++
       GoFmt.fmt_d (batteryLevel peak) ++ "%)")%string.

Definition finishDriveMessage (start end_ : CarState) : string :=
  let distance := div32 (sub32 (odometer end_) (odometer start)) KMPerMile in
  if ltb32 distance (const32 1 10) then ""
  else
    let battery := GoInt.sub64 (batteryLevel end_) (batteryLevel start) in
    let eff := efficiency start end_ in
    let duration := GoTime.Sub (at_ end_) (at_ start) in
    let miles :=
      div32 (sub32 (ratedBatteryRangeKm start) (ratedBatteryRangeKm end_))
        KMPerMile in
    (Glyph.car ++ " " ++ placeName start ++ "->" ++ placeName end_ ++
       " <code>" ++ GoFmt.fmt_f 1 distance ++ "</code> miles " ++
       Glyph.thermometer ++ " " ++ GoFmt.fmt_f 1 (outsideTemp start) ++
       Glyph.degree ++ "C" ++ nl ++
     Glyph.clock ++ " " ++ GoTime.Format_15_04 (at_ start) ++ Glyph.arrow ++
       GoTime.Format_15_04 (at_ end_) ++ " (" ++ formatDuration duration ++ ")" ++ nl ++
     Glyph.battery ++ " " ++ GoFmt.fmt_d (batteryLevel start) ++ Glyph.arrow ++
       GoFmt.fmt_d (batteryLevel end_) ++ "% (" ++ GoFmt.fmt_d battery ++ "%)" ++ nl ++
     Glyph.oncoming_car ++ " " ++
       GoFmt.fmt_f 0 (div32 (ratedBatteryRangeKm start) KMPerMile) ++
       Glyph.arrow ++ GoFmt.fmt_f 0 (div32 (ratedBatteryRangeKm end_) KMPerMile) ++
       " miles (" ++ GoFmt.fmt_f 1 miles ++ " miles @ " ++
       GoFmt.fmt_f 0 eff ++ "Wh/mi)")%string.

Definition statusMessage (car : Car) : string :=
  (Glyph.battery ++ GoFmt.fmt_d (batteryLevel (carState car)) ++ "%")%string.

End Program.

(** The older version of the charging formatter (file [main.go]): the same
    figures, without the place name. *)
Module V1.

Definition finishChargingMessage (start end_ peak : CarState) : string :=
  let battery := GoInt.sub64 (batteryLevel end_) (batteryLevel start) in
  if battery =? 0 then ""
  else
    let duration := GoTime.Sub (at_ end_) (at_ start) in
    let averagePower := chargingAveragePower start end_ in
    let milesAdded :=
      div32 (sub32 (ratedBatteryRangeKm end_) (ratedBatteryRangeKm start))
        KM_IN_MILE in
    (Glyph.plug ++ " Charging finished." ++ nl ++
     Glyph.clock ++ " " ++ GoTime.Format_15_04 (at_ start) ++ Glyph.arrow ++
       GoTime.Format_15_04 (at_ end_) ++ " (" ++ formatDuration duration ++ ")" ++ nl ++
     Glyph.battery ++ " " ++ GoFmt.fmt_d (batteryLevel start) ++ Glyph.arrow ++
       GoFmt.fmt_d (batteryLevel end_) ++ "% (+ " ++ GoFmt.fmt_d battery ++ "%)" ++ nl ++
     Glyph.car ++ " " ++ GoFmt.fmt_f 0 (div32 (ratedBatteryRangeKm start) KM_IN_MILE) ++
       Glyph.arrow ++ GoFmt.fmt_f 0 (div32 (ratedBatteryRangeKm end_) KM_IN_MILE) ++
       " miles (+ " ++ GoFmt.fmt_f 1 milesAdded ++ " miles)." ++ nl ++
     Glyph.bolt ++ " + " ++ GoFmt.fmt_f 1 (chargeEnergyAdded end_) ++ "kWh" ++ nl ++
     "Average Power: " ++ GoFmt.fmt_f 2 averagePower ++ "kW (Peak " ++
       GoFmt.fmt_d (chargerPower peak) ++ "kW at " ++
       GoFmt.fmt_d (batteryLevel peak) ++ "%)")%string.

End V1.

(** ** The repository's tests, replayed on the model *)

Module Tests.

Definition at_0639 : GoTime.Time :=
  GoTime.mkTime ((1617950340) * 10 ^ 9) 0.

(** A stand-in for [strconv.ParseFloat], defined on the plain literals
    [digits] and [digits.digits] with an optional sign, a value out of the
    range of [float32] being an error; the other forms that the library
    accepts (exponents, hexadecimal, infinities) are not covered. *)
Fixpoint split_point (s : string) (int_part : Z) (seen_point : bool)
    (scale : Z) : option (Z * Z) :=
  match s with
  | EmptyString => Some (int_part, scale)
  | String "."%char r =>
      if seen_point then None else split_point r int_part true scale
  | String c r =>
      match GoStrconv.digit_of c with
      | Some d =>
          split_point r (int_part * 10 + d) seen_point
            (if seen_point then scale * 10 else scale)
      | None => None
      end
  end.

Definition parseFloat (s : string) : option float32 :=
  let '(neg, body) :=
    match s with
    | String "-"%char r => (true, r)
    | String "+"%char r => (false, r)
    | _ => (false, s)
    end in
  match body with
  | EmptyString | String "."%char EmptyString => None
  | _ =>
      match split_point body 0 false 1 with
      | Some (Zpos n, Zpos d) =>
          match lit32 neg n d with
          | S754_infinity _ => None
          | x => Some x
          end
      | Some (Z0, _) => Some (S754_zero neg)
      | _ => None
      end
  end.

(** A stand-in for the answers of the geocoding service. *)
Definition lookup (lat lon : float32) : option LookupResult :=
  if is_zero lat && is_zero lon then Some (mkLookupResult "Soul Buoy" "Soul Buoy")
  else Some (mkLookupResult "Cow Lane, Rampton, South Cambridgeshire" "Cow Lane").

(** The answer the tests of [truncate] take as their long address. *)
Definition hurrell_road : string :=
  "3, Hurrell Road, Cambridge, Cambridgeshire, East of England, England, CB4 3RQ, United Kingdom".

Definition lookup_display_only (lat lon : float32) : option LookupResult :=
  Some (mkLookupResult hurrell_road "").

Definition charge_start : CarState :=
  set_batteryLevel 50 (set_chargerPower 7 (set_at_ at_0639 zeroCarState)).
Definition charge_end : CarState :=
  set_batteryLevel 55
    (set_chargeEnergyAdded (const32 38 10)
       (set_at_ (GoTime.mkTime (GoTime.unixNano at_0639 + 90 * GoTime.Minute) 0)
          zeroCarState)).
Definition charge_peak : CarState :=
  set_batteryLevel 52
    (set_chargeEnergyAdded (const32 1 1) (set_chargerPower 8 zeroCarState)).

Definition drive_start : CarState :=
  set_geofence "Home"
    (set_ratedBatteryRangeKm (const32 400 1)
       (set_outsideTemp (const32 75 10)
          (set_odometer (const32 976 1) charge_start))).
Definition drive_end : CarState :=
  set_longitude (const32 1 10)
    (set_latitude (const32 523 10)
       (set_ratedBatteryRangeKm (const32 390 1)
          (set_outsideTemp (const32 8 1)
             (set_odometer (const32 986 1)
                (set_batteryLevel 48
                   (set_chargeEnergyAdded (const32 38 10)
                      (set_at_ (GoTime.mkTime (GoTime.unixNano at_0639 + 8 * GoTime.Minute) 0)
                         zeroCarState))))))).

End Tests.

(** ** The main loop *)

(** What one evaluation of a car logs: the transitions of the two axes. *)
Inductive Transition :=
| FinishedCharging
| NewChargingPeak
| StartedCharging
| StartedDriving
| FinishedDriving.

Definition is_charging_transition (t : Transition) : bool :=
  match t with
  | FinishedCharging | NewChargingPeak | StartedCharging => true
  | _ => false
  end.

(** The result of a stretch of the loop body: the car as mutated, the
    transitions logged, the messages handed to [bot.Send], and whether a
    [break] left the [select]. *)
Record Outcome := mkOutcome {
  car_after : Car;
  fired : list Transition;
  sent : list string;
  left_select : bool
}.

Section Loop.

Variable nominatimLookup : float32 -> float32 -> option LookupResult.
Variable ParseFloat32 : string -> option float32.

(** The first [if / else if] chain of [case car := <-carUpdates]. *)
Definition chargingAxis (car : Car) : Outcome :=
  if charging car && (chargerPower (carState car) =? 0) then
    let car := set_charging false car in
    let text :=
      finishChargingMessage nominatimLookup
        (chargeStart car) (carState car) (chargePeak car) in
    if String.eqb text "" then mkOutcome car [FinishedCharging] [] true
    else mkOutcome car [FinishedCharging] [text] false
  else if charging car
          && (chargerPower (chargePeak car) <? chargerPower (carState car)) then
    mkOutcome (set_chargePeak (carState car) car) [NewChargingPeak] [] false
  else if negb (charging car) && (0 <? chargerPower (carState car)) then
    let car := set_charging true car in
    let car := set_chargeStart (carState car) car in
    let car := set_chargePeak (carState car) car in
    mkOutcome car [StartedCharging] [] false
  else mkOutcome car [] [] false.

(** The second chain. *)
Definition drivingAxis (car : Car) : Outcome :=
  if driveShiftState (shiftState (carState car)) && negb (driving car) then
    let car := set_driving true car in
    let car := set_driveStart (carState car) car in
    mkOutcome car [StartedDriving] [] false
  else if negb (driveShiftState (shiftState (carState car))) && driving car then
    let car := set_driving false car in
    let text :=
      finishDriveMessage nominatimLookup (driveStart car) (carState car) in
    if String.eqb text "" then mkOutcome car [FinishedDriving] [] true
    else mkOutcome car [FinishedDriving] [text] false
  else mkOutcome car [] [] false.

(** The body of [case car := <-carUpdates]: the charging chain, then,
    unless a [break] left the [select], the driving chain. *)
Definition evaluate (car : Car) : Outcome :=
  let c := chargingAxis car in
  if left_select c then c
  else
    let d := drivingAxis (car_after c) in
    mkOutcome (car_after d) (fired c ++ fired d) (sent c ++ sent d)
      (left_select d).

(** The process state: the map [cars], the variable [defaultCar] and the
    messages sent so far. *)
Record World := mkWorld {
  cars : gmap Z Car;
  defaultCar : Z;
  outbox : list string
}.

Definition initialWorld : World := mkWorld ∅ 0 [].

(** What the process reacts to.  [MqttMessage] carries the topic as
    scanned by [Sscanf] ([None] when the scan fails), the payload and the
    clock; [TimerFired] is the arrival of a car on [carUpdates];
    [BotCommand] is a message of the bot with its command and chat. *)
Inductive Event :=
| MqttMessage (topic : option (Z * string)) (payload : string)
    (now : GoTime.Time)
| TimerFired (carId : Z)
| BotCommand (command : string) (chatID : Z).

(** [carHandler]. *)
Definition carHandler (topic : option (Z * string)) (payload : string)
    (now : GoTime.Time) (w : World) : World :=
  match topic with
  | None => w
  | Some (carId, key) =>
      let '(car, w) :=
        match cars w !! carId with
        | Some car => (car, w)
        | None =>
            (newCar, mkWorld (<[carId := newCar]> (cars w)) carId (outbox w))
        end in
      mkWorld (<[carId := Update ParseFloat32 now key payload car]> (cars w))
        (defaultCar w) (outbox w)
  end.

(** The answer to a bot command; [None] when [statusMessage] dereferences
    the nil pointer that [cars[defaultCar]] yields for an absent key. *)
Definition botReply (command : string) (chatID : Z) (w : World)
  : option string :=
  if String.eqb command "status" then
    match cars w !! defaultCar w with
    | Some car => Some (statusMessage car)
    | None => None
    end
  else Some ("Hello. Set TELEGRAM_CHAT_ID=" ++ GoFmt.fmt_d chatID)%string.

(** One reaction of the process; [None] when it panics. *)
Definition step (w : World) (ev : Event) : option World :=
  match ev with
  | MqttMessage topic payload now => Some (carHandler topic payload now w)
  | TimerFired carId =>
      match cars w !! carId with
      | Some car =>
          let o := evaluate car in
          Some (mkWorld (<[carId := car_after o]> (cars w)) (defaultCar w)
                  (outbox w ++ sent o))
      | None => Some w
      end
  | BotCommand command chatID =>
      match botReply command chatID w with
      | Some text =>
          Some (mkWorld (cars w) (defaultCar w) (outbox w ++ [text]))
      | None => None
      end
  end.

Fixpoint run (w : World) (evs : list Event) : option World :=
  match evs with
  | [] => Some w
  | ev :: evs =>
      match step w ev with
      | Some w' => run w' evs
      | None => None
      end
  end.

End Loop.

(** A run in which the same update arrives twice: car 1 starts charging,
    then reports zero power and shift state [D] within one debounce
    interval, is evaluated, and reports shift state [D] once more. *)
Module Scenario.

Definition t (k : Z) : GoTime.Time :=
  GoTime.mkTime (GoTime.unixNano Tests.at_0639 + k * 10 ^ 9) 0.

Definition before_first_application : list Event :=
  [MqttMessage (Some (1, "charger_power")) "5" (t 0);
   TimerFired 1;
   MqttMessage (Some (1, "charger_power")) "0" (t 60)].

Definition first_application : Event :=
  MqttMessage (Some (1, "shift_state")) "D" (t 60).

Definition second_application : Event :=
  MqttMessage (Some (1, "shift_state")) "D" (t 120).

(** The car with identifier 1 after a run, if the run and the car exist. *)
Definition car1_after (evs : list Event) : option Car :=
  match run Tests.lookup Tests.parseFloat initialWorld evs with
  | Some w => cars w !! 1
  | None => None
  end.

End Scenario.

(** ** Vocabulary of the statements *)

(** The three conditions of the charging chain. *)
Definition endDetected (car : Car) : bool :=
  charging car && (chargerPower (carState car) =? 0).

Definition peakExceeded (car : Car) : bool :=
  charging car && (chargerPower (chargePeak car) <? chargerPower (carState car)).

Definition startDetected (car : Car) : bool :=
  negb (charging car) && (0 <? chargerPower (carState car)).

(** One debounced evaluation: the snapshot has become [s] through any
    number of calls of [Update], and the car is then taken from
    [carUpdates]. *)
Definition observe (lookup : float32 -> float32 -> option LookupResult)
    (car : Car) (s : CarState) : Car :=
  car_after (evaluate lookup (set_carState s car)).

Definition observeAll (lookup : float32 -> float32 -> option LookupResult)
    (car : Car) (l : list CarState) : Car :=
  fold_left (observe lookup) l car.

(** The largest charger power among a first snapshot and later ones. *)
Definition maxPower (s0 : CarState) (l : list CarState) : Z :=
  fold_left (fun acc s => Z.max acc (chargerPower s)) l (chargerPower s0).

Definition chargingTransitions (l : list Transition) : list Transition :=
  List.filter is_charging_transition l.


(** The text of the driving message before the efficiency figure. *)
Definition drive_message_head
    (lookup : float32 -> float32 -> option LookupResult)
    (start end_ : CarState) : string :=
  let distance := div32 (sub32 (odometer end_) (odometer start)) KMPerMile in
  (Glyph.car ++ " " ++ placeName lookup start ++ "->" ++ placeName lookup end_ ++
     " <code>" ++ GoFmt.fmt_f 1 distance ++ "</code> miles " ++
     Glyph.thermometer ++ " " ++ GoFmt.fmt_f 1 (outsideTemp start) ++
     Glyph.degree ++ "C" ++ nl ++
   Glyph.clock ++ " " ++ GoTime.Format_15_04 (at_ start) ++ Glyph.arrow ++
     GoTime.Format_15_04 (at_ end_) ++ " (" ++
     formatDuration (GoTime.Sub (at_ end_) (at_ start)) ++ ")" ++ nl ++
   Glyph.battery ++ " " ++ GoFmt.fmt_d (batteryLevel start) ++ Glyph.arrow ++
     GoFmt.fmt_d (batteryLevel end_) ++ "% (" ++
     GoFmt.fmt_d (GoInt.sub64 (batteryLevel end_) (batteryLevel start)) ++ "%)" ++ nl ++
   Glyph.oncoming_car ++ " " ++
     GoFmt.fmt_f 0 (div32 (ratedBatteryRangeKm start) KMPerMile) ++
     Glyph.arrow ++ GoFmt.fmt_f 0 (div32 (ratedBatteryRangeKm end_) KMPerMile) ++
     " miles (" ++
     GoFmt.fmt_f 1
       (div32 (sub32 (ratedBatteryRangeKm start) (ratedBatteryRangeKm end_))
          KMPerMile) ++
     " miles @ ")%string.


(** The identifiers of the cars in the order of their discovery: an
    identifier joins the list with the first message that names it. *)
Definition discover (seen : list Z) (ev : Event) : list Z :=
  match ev with
  | MqttMessage (Some (carId, _)) _ _ =>
      if decide (carId ∈ seen) then seen else seen ++ [carId]
  | _ => seen
  end.

Definition discoveredBy (evs : list Event) : list Z :=
  fold_left discover evs [].

(** The number of whole minutes nearest to a duration above minus half a
    minute, a half minute counting upwards. *)
Definition roundedMinutes (d : GoTime.Duration) : Z :=
  (d + 30 * 10 ^ 9) / (60 * 10 ^ 9).

(** The rendering the specification describes for a count of minutes. *)
Definition renderMinutes (u : Z) : string :=
  if u <? 60 then (GoFmt.fmt_d u ++ "m")%string
  else (GoFmt.fmt_d (u / 60) ++ "h" ++ GoFmt.fmt_d (u mod 60) ++ "m")%string.

(** Reading a rendered duration back: the decimal digits in front, and
    what follows them. *)
Fixpoint read_digits (s : string) (acc : Z) : Z * string :=
  match s with
  | EmptyString => (acc, s)
  | String c r =>
      match GoStrconv.digit_of c with
      | Some d => read_digits r (acc * 10 + d)
      | None => (acc, s)
      end
  end.

(** The minutes that a text of the form [Xm] or [XhYm] stands for. *)
Definition minutesShown (s : string) : option Z :=
  match read_digits s 0 with
  | (x, String "m"%char EmptyString) => Some x
  | (x, String "h"%char r) =>
      match read_digits r 0 with
      | (y, String "m"%char EmptyString) => Some (60 * x + y)
      | _ => None
      end
  | _ => None
  end.

(** The value of a field after an update with key [key], for the field
    that listens to [name]: the parsed value when the key is the field's
    own and the text parses, the old value otherwise. *)
Definition assigned {A : Type} (key name : string) (parsed : option A)
    (old : A) : A :=
  if String.eqb key name then
    match parsed with
    | Some v => v
    | None => old
    end
  else old.

(** Two snapshots that agree on every field but the time stamp. *)
Definition sameButTime (s s' : CarState) : Prop :=
  set_at_ (at_ s) s' = s.

(** The text of the charging message before the energy figure, in the
    two versions of the formatter, and after the average power. *)
Definition charging_message_figures (start end_ : CarState) : string :=
  (Glyph.clock ++ " " ++ GoTime.Format_15_04 (at_ start) ++ Glyph.arrow ++
     GoTime.Format_15_04 (at_ end_) ++ " (" ++
     formatDuration (GoTime.Sub (at_ end_) (at_ start)) ++ ")" ++ nl ++
   Glyph.battery ++ " " ++ GoFmt.fmt_d (batteryLevel start) ++ Glyph.arrow ++
     GoFmt.fmt_d (batteryLevel end_) ++ "% (+ " ++
     GoFmt.fmt_d (GoInt.sub64 (batteryLevel end_) (batteryLevel start)) ++ "%)" ++ nl ++
   Glyph.car ++ " " ++ GoFmt.fmt_f 0 (div32 (ratedBatteryRangeKm start) KMPerMile) ++
     Glyph.arrow ++ GoFmt.fmt_f 0 (div32 (ratedBatteryRangeKm end_) KMPerMile) ++
     " miles (+ " ++
     GoFmt.fmt_f 1
       (div32 (sub32 (ratedBatteryRangeKm end_) (ratedBatteryRangeKm start))
          KMPerMile) ++
     " miles)." ++ nl ++
   Glyph.bolt ++ " + ")%string.

Definition charging_message_head
    (lookup : float32 -> float32 -> option LookupResult)
    (start end_ : CarState) : string :=
  (Glyph.plug ++ " Charging finished at " ++ placeName lookup start ++ "." ++ nl ++
   charging_message_figures start end_)%string.


Definition charging_message_tail (peak : CarState) : string :=
  ("kW (Peak " ++ GoFmt.fmt_d (chargerPower peak) ++ "kW at " ++
   GoFmt.fmt_d (batteryLevel peak) ++ "%)")%string.



(** The cars known to the process are the discovered ones, and
    [defaultCar] is the one discovered last. *)
Definition tracks (seen : list Z) (w : World) : Prop :=
  (forall id, id ∈ seen <-> is_Some (cars w !! id)) /\
  defaultCar w = List.last seen 0.


(** The characters of a text in UTF-8: every byte but the continuation
    bytes [10xxxxxx] starts one. *)
Definition starts_character (c : ascii) : bool :=
  negb ((128 <=? nat_of_ascii c)%nat && (nat_of_ascii c <? 192)%nat).

Fixpoint utf8_length (s : string) : nat :=
  match s with
  | EmptyString => 0%nat
  | String c r =>
      if starts_character c then S (utf8_length r) else utf8_length r
  end.

(** The number that a decimal numeral denotes, read digit by digit. *)
Fixpoint uint_value (d : Decimal.uint) (acc : Z) : Z :=
  match d with
  | Decimal.Nil => acc
  | Decimal.D0 d => uint_value d (acc * 10 + 0)
  | Decimal.D1 d => uint_value d (acc * 10 + 1)
  | Decimal.D2 d => uint_value d (acc * 10 + 2)
  | Decimal.D3 d => uint_value d (acc * 10 + 3)
  | Decimal.D4 d => uint_value d (acc * 10 + 4)
  | Decimal.D5 d => uint_value d (acc * 10 + 5)
  | Decimal.D6 d => uint_value d (acc * 10 + 6)
  | Decimal.D7 d => uint_value d (acc * 10 + 7)
  | Decimal.D8 d => uint_value d (acc * 10 + 8)
  | Decimal.D9 d => uint_value d (acc * 10 + 9)
  end.


(** ** Tactics *)

(** Case analysis on every condition of an [if] in the goal. *)
Ltac case_ifs :=
  repeat match goal with
         | |- context [if ?b then _ else _] => destruct b
         end.

(** Case analysis on the key of an update, one literal at a time. *)
Ltac case_keys key :=
  repeat match goal with
         | |- context [if String.eqb key ?lit then _ else _] =>
             destruct (String.eqb_spec key lit) as [-> | ?]
         end.

(** ** Vocabulary of the further properties *)

(** The keys whose values [Update] runs through [Atoi] and through
    [ParseFloat]. *)
Definition intKeys : list string :=
  ["charger_power"; "charger_voltage"; "charger_actual_current";
   "battery_level"].

Definition floatKeys : list string :=
  ["time_to_full_charge"; "charge_energy_added"; "est_battery_range_km";
   "ideal_battery_range_km"; "rated_battery_range_km"; "odometer";
   "outside_temp"; "inside_temp"; "latitude"; "longitude"].

Definition is_some {A : Type} (o : option A) : bool :=
  match o with Some _ => true | None => false end.

(** Whether a value is one that [Update] stores under a key: a number
    must parse, any other text is taken as it is. *)
Definition parses (parse : string -> option float32) (key value : string)
  : bool :=
  if existsb (String.eqb key) intKeys then is_some (GoStrconv.Atoi value)
  else if existsb (String.eqb key) floatKeys then is_some (parse value)
  else true.

(** A car whose session snapshots fit its flags: a charging session
    started at positive power and its peak is not below its start; a
    drive started in a drive-engaged shift state. *)
Definition sessionsConsistent (car : Car) : Prop :=
  (charging car = true ->
   0 < chargerPower (chargeStart car) <= chargerPower (chargePeak car)) /\
  (driving car = true ->
   driveShiftState (shiftState (driveStart car)) = true).

(** The car an event is about, if any. *)
Definition eventCar (ev : Event) : option Z :=
  match ev with
  | MqttMessage (Some (carId, _)) _ _ => Some carId
  | TimerFired carId => Some carId
  | _ => None
  end.

(** A binary32 number that is neither an infinity nor a NaN. *)
Definition finite32 (x : float32) : bool :=
  match x with
  | S754_zero _ | S754_finite _ _ _ => true
  | _ => false
  end.

(** The older version of the driving formatter (file [main.go]): the
    same figures, without the efficiency. *)
Module V1Drive.

Definition finishDriveMessage
    (nominatimLookup : float32 -> float32 -> option LookupResult)
    (start end_ : CarState) : string :=
  let distance := div32 (sub32 (odometer end_) (odometer start)) KM_IN_MILE in
  if ltb32 distance (const32 1 10) then ""
  else
    let battery := GoInt.sub64 (batteryLevel end_) (batteryLevel start) in
    let duration := GoTime.Sub (at_ end_) (at_ start) in
    let miles :=
      div32 (sub32 (ratedBatteryRangeKm start) (ratedBatteryRangeKm end_))
        KM_IN_MILE in
    (Glyph.car ++ " " ++ placeName nominatimLookup start ++ "->" ++
       placeName nominatimLookup end_ ++
       " <code>" ++ GoFmt.fmt_f 1 distance ++ "</code> miles " ++
       Glyph.thermometer ++ " " ++ GoFmt.fmt_f 1 (outsideTemp start) ++
       Glyph.degree ++ "C" ++ nl ++
     Glyph.clock ++ " " ++ GoTime.Format_15_04 (at_ start) ++ Glyph.arrow ++
       GoTime.Format_15_04 (at_ end_) ++ " (" ++ formatDuration duration ++ ")" ++ nl ++
     Glyph.battery ++ " " ++ GoFmt.fmt_d (batteryLevel start) ++ Glyph.arrow ++
       GoFmt.fmt_d (batteryLevel end_) ++ "% (" ++ GoFmt.fmt_d battery ++ "%)" ++ nl ++
     Glyph.oncoming_car ++ " " ++
       GoFmt.fmt_f 0 (div32 (ratedBatteryRangeKm start) KM_IN_MILE) ++
       Glyph.arrow ++ GoFmt.fmt_f 0 (div32 (ratedBatteryRangeKm end_) KM_IN_MILE) ++
       " miles (" ++ GoFmt.fmt_f 1 miles ++ " miles)")%string.

End V1Drive.

(** The text both versions of the driving message share: everything up
    to the miles of range used. *)
Definition drive_message_body
    (lookup : float32 -> float32 -> option LookupResult)
    (start end_ : CarState) : string :=
  let distance := div32 (sub32 (odometer end_) (odometer start)) KMPerMile in
  (Glyph.car ++ " " ++ placeName lookup start ++ "->" ++ placeName lookup end_ ++
     " <code>" ++ GoFmt.fmt_f 1 distance ++ "</code> miles " ++
     Glyph.thermometer ++ " " ++ GoFmt.fmt_f 1 (outsideTemp start) ++
     Glyph.degree ++ "C" ++ nl ++
   Glyph.clock ++ " " ++ GoTime.Format_15_04 (at_ start) ++ Glyph.arrow ++
     GoTime.Format_15_04 (at_ end_) ++ " (" ++
     formatDuration (GoTime.Sub (at_ end_) (at_ start)) ++ ")" ++ nl ++
   Glyph.battery ++ " " ++ GoFmt.fmt_d (batteryLevel start) ++ Glyph.arrow ++
     GoFmt.fmt_d (batteryLevel end_) ++ "% (" ++
     GoFmt.fmt_d (GoInt.sub64 (batteryLevel end_) (batteryLevel start)) ++ "%)" ++ nl ++
   Glyph.oncoming_car ++ " " ++
     GoFmt.fmt_f 0 (div32 (ratedBatteryRangeKm start) KMPerMile) ++
     Glyph.arrow ++ GoFmt.fmt_f 0 (div32 (ratedBatteryRangeKm end_) KMPerMile) ++
     " miles (" ++
     GoFmt.fmt_f 1
       (div32 (sub32 (ratedBatteryRangeKm start) (ratedBatteryRangeKm end_))
          KMPerMile) ++
     " miles")%string.

(** What follows the words [Charging finished] in both versions of the
    charging message. *)
Definition charging_message_rest (start end_ peak : CarState) : string :=
  (nl ++ charging_message_figures start end_ ++
   GoFmt.fmt_f 1 (chargeEnergyAdded end_) ++ "kWh" ++ nl ++
   "Average Power: " ++ GoFmt.fmt_f 2 (chargingAveragePower start end_) ++
   charging_message_tail peak)%string.


(** * Properties *)

(** ** Facts about the library models *)

Module GoIntFacts.
Import GoInt.

Lemma in_int64b_spec z : in_int64b z = true <-> in_int64 z.
Proof.
  unfold in_int64b, in_int64.
  rewrite andb_true_iff, !Z.leb_le. reflexivity.
Qed.

Lemma wrap64_id z : in_int64 z -> wrap64 z = z.
Proof.
  unfold in_int64, wrap64, min_int64, max_int64. intros H.
  rewrite Z.mod_small by lia. lia.
Qed.

Lemma wrap64_range z : in_int64 (wrap64 z).
Proof.
  unfold in_int64, wrap64, min_int64, max_int64.
  pose proof (Z.mod_pos_bound (z + 2 ^ 63) (2 ^ 64) ltac:(lia)). lia.
Qed.

(** A wrapped difference of two in-range values vanishes only when they
    are equal. *)
Lemma sub64_zero_iff a b :
  in_int64 a -> in_int64 b -> (sub64 a b = 0 <-> a = b).
Proof.
  unfold sub64, wrap64, in_int64, min_int64, max_int64. intros Ha Hb.
  split.
  - intros H.
    assert (Hm : (a - b + 2 ^ 63) mod 2 ^ 64 = 2 ^ 63) by lia.
    destruct (Z_lt_le_dec (a - b) (- 2 ^ 63)) as [Hlt | Hge].
    + replace (a - b + 2 ^ 63) with ((a - b + 2 ^ 63 + 2 ^ 64) + (-1) * 2 ^ 64) in Hm by ring.
      rewrite Z.mod_add in Hm by lia.
      rewrite Z.mod_small in Hm by lia. lia.
    + destruct (Z_lt_le_dec (a - b) (2 ^ 63)) as [Hlt' | Hge'].
      * rewrite Z.mod_small in Hm by lia. lia.
      * replace (a - b + 2 ^ 63) with ((a - b + 2 ^ 63 - 2 ^ 64) + 1 * 2 ^ 64) in Hm by ring.
        rewrite Z.mod_add in Hm by lia.
        rewrite Z.mod_small in Hm by lia. lia.
  - intros ->. rewrite Z.sub_diag. reflexivity.
Qed.

Lemma wrap64_sub_l a b : wrap64 (wrap64 a - b) = wrap64 (a - b).
Proof.
  unfold wrap64. f_equal.
  replace ((a + 2 ^ 63) mod 2 ^ 64 - 2 ^ 63 - b + 2 ^ 63)
    with ((a + 2 ^ 63) mod 2 ^ 64 - b) by ring.
  rewrite Zminus_mod_idemp_l. f_equal. ring.
Qed.

Lemma to_uint64_id z : 0 <= z < 2 ^ 64 -> to_uint64 z = z.
Proof. intros H. unfold to_uint64. apply Z.mod_small, H. Qed.

End GoIntFacts.

Module GoStrconvFacts.
Import GoStrconv.

Lemma Atoi_range s v : Atoi s = Some v -> GoInt.in_int64 v.
Proof.
  unfold Atoi.
  destruct (match s with
            | String "-"%char r => (true, r)
            | String "+"%char r => (false, r)
            | _ => (false, s)
            end) as [neg body].
  destruct body as [| c r]; [discriminate |].
  destruct (parse_digits (String c r) 0) as [n |]; [| discriminate].
  destruct (GoInt.in_int64b (if neg then - n else n)) eqn:E; [| discriminate].
  intros [= <-]. apply GoIntFacts.in_int64b_spec. exact E.
Qed.

End GoStrconvFacts.

(** ** Facts about the floating-point operations *)

Module GoFloatFacts.

(** *** Rounding never turns a number into a NaN and keeps its sign *)

Lemma shr_1_nonneg (mrs : shr_record) :
  0 <= shr_m mrs -> 0 <= shr_m (shr_1 mrs).
Proof.
  destruct mrs as [m r s]. cbn.
  destruct m as [| p | p]; [cbn; lia | | cbn; lia].
  intros _. destruct p; cbn; lia.
Qed.

Lemma iter_pos_shr_1_nonneg (p : positive) : forall mrs : shr_record,
  0 <= shr_m mrs -> 0 <= shr_m (SpecFloat.iter_pos shr_1 p mrs).
Proof.
  induction p as [p IH | p IH |]; intros mrs H; cbn.
  - apply IH, IH, shr_1_nonneg, H.
  - apply IH, IH, H.
  - apply shr_1_nonneg, H.
Qed.

Lemma shr_fexp_nonneg (prec emax m e : Z) (l : location) :
  0 <= m -> 0 <= shr_m (fst (shr_fexp prec emax m e l)).
Proof.
  intros H. unfold shr_fexp, shr.
  assert (H0 : 0 <= shr_m (shr_record_of_loc m l)).
  { destruct l as [| []]; exact H. }
  destruct (fexp prec emax (Zdigits2 m + e) - e); cbn; auto.
  apply iter_pos_shr_1_nonneg, H0.
Qed.

Lemma round_nearest_even_nonneg (m : Z) (l : location) :
  0 <= m -> 0 <= round_nearest_even m l.
Proof.
  intros H. destruct l as [| []]; cbn; try lia.
  destruct (Z.even m); lia.
Qed.

Lemma binary_round_aux_sign (prec emax : Z) (sx : bool) (mx ex : Z)
    (lx : location) :
  0 <= mx ->
  let r := binary_round_aux prec emax sx mx ex lx in
  is_nan r = false /\ sign_bit r = sx.
Proof.
  intros H. unfold binary_round_aux.
  pose proof (shr_fexp_nonneg prec emax mx ex lx H) as H1.
  destruct (shr_fexp prec emax mx ex lx) as [mrs' e'] eqn:E1. cbn in H1.
  pose proof (shr_fexp_nonneg prec emax
                (round_nearest_even (shr_m mrs') (loc_of_shr_record mrs'))
                e' loc_Exact
                (round_nearest_even_nonneg _ _ H1)) as H2.
  destruct (shr_fexp prec emax _ e' loc_Exact) as [mrs'' e''] eqn:E2.
  cbn in H2. cbn zeta.
  destruct (shr_m mrs'') as [| p | p]; [cbn; auto | | lia].
  destruct (e'' <=? emax - prec); cbn; auto.
Qed.

Lemma binary_round_sign (prec emax : Z) (sx : bool) (mx : positive) (ex : Z) :
  let r := binary_round prec emax sx mx ex in
  is_nan r = false /\ sign_bit r = sx.
Proof.
  unfold binary_round.
  destruct (shl_align mx ex _) as [mz ez].
  apply binary_round_aux_sign. lia.
Qed.

(** A quotient by a positive finite number keeps the sign of the
    dividend. *)
Lemma SFdiv_sign (prec emax : Z) (x : spec_float) (my : positive) (ey : Z) :
  is_nan x = false ->
  let r := SFdiv prec emax x (S754_finite false my ey) in
  is_nan r = false /\ sign_bit r = sign_bit x.
Proof.
  intros Hx. destruct x as [s | s | | s m e]; cbn in *; try discriminate.
  - rewrite xorb_false_r. auto.
  - rewrite xorb_false_r. auto.
  - unfold SFdiv_core_binary.
    set (m' := match _ - _ - _ with Z0 => _ | Zpos _ => _ | Zneg _ => _ end).
    assert (Hm' : 0 <= m').
    { subst m'. destruct (_ - _ - _); try lia.
      apply Z.shiftl_nonneg. lia. }
    pose proof (Z.div_pos m' (Zpos my) Hm' ltac:(lia)) as Hq.
    unfold Z.div in Hq.
    destruct (Z.div_eucl m' (Zpos my)) as [q r]. cbn in Hq.
    rewrite xorb_false_r.
    apply binary_round_aux_sign, Hq.
Qed.

(** A number with the sign bit set is below any positive finite one. *)
Lemma SFltb_negative_positive (x : spec_float) (m : positive) (e : Z) :
  is_nan x = false -> sign_bit x = true ->
  SFltb x (S754_finite false m e) = true.
Proof.
  destruct x as [s | s | | s mx ex]; cbn; try discriminate;
    intros _ ->; reflexivity.
Qed.

(** *** The sign of a difference *)

Lemma digits2_pos_bounds (m : positive) :
  2 ^ (Zpos (digits2_pos m) - 1) <= Zpos m < 2 ^ Zpos (digits2_pos m).
Proof.
  induction m as [m IH | m IH |]; cbn [digits2_pos].
  - rewrite Pos2Z.inj_succ.
    replace (Z.succ (Zpos (digits2_pos m)) - 1) with (Zpos (digits2_pos m)) by lia.
    rewrite Z.pow_succ_r by lia.
    replace (Zpos (digits2_pos m)) with (Z.succ (Zpos (digits2_pos m) - 1)) at 1 by lia.
    rewrite Z.pow_succ_r by lia. lia.
  - rewrite Pos2Z.inj_succ.
    replace (Z.succ (Zpos (digits2_pos m)) - 1) with (Zpos (digits2_pos m)) by lia.
    rewrite Z.pow_succ_r by lia.
    replace (Zpos (digits2_pos m)) with (Z.succ (Zpos (digits2_pos m) - 1)) at 1 by lia.
    rewrite Z.pow_succ_r by lia. lia.
  - cbn. lia.
Qed.

Lemma iter_xO_value (d m : positive) :
  Zpos (Pos.iter xO m d) = Zpos m * 2 ^ Zpos d.
Proof.
  induction d as [| d IH] using Pos.peano_ind.
  - cbn. lia.
  - rewrite Pos.iter_succ, Pos2Z.inj_xO, IH, Pos2Z.inj_succ, Z.pow_succ_r by lia.
    ring.
Qed.

(** Alignment to a smaller exponent scales the mantissa by a power of
    two. *)
Lemma shl_align_value (m : positive) (e e' : Z) :
  e' <= e -> Zpos (fst (shl_align m e e')) = Zpos m * 2 ^ (e - e').
Proof.
  intros H. unfold shl_align.
  destruct (e' - e) as [| d | d] eqn:E; cbn [fst].
  - replace (e - e') with 0 by lia. cbn. lia.
  - lia.
  - rewrite iter_xO_value. f_equal. f_equal. lia.
Qed.

(** Of two canonical binary32 mantissas, the one with the smaller
    exponent denotes the smaller magnitude. *)
Lemma canonical_exponent_lt (m1 m2 : positive) (e1 e2 : Z) :
  bounded prec32 emax32 m1 e1 = true ->
  bounded prec32 emax32 m2 e2 = true ->
  e1 < e2 ->
  Zpos m1 < Zpos m2 * 2 ^ (e2 - e1).
Proof.
  unfold bounded, canonical_mantissa, fexp, emin, prec32, emax32.
  rewrite !andb_true_iff, !Z.eqb_eq, !Z.leb_le.
  intros [H1 _] [H2 _] Hlt.
  pose proof (digits2_pos_bounds m1) as B1.
  pose proof (digits2_pos_bounds m2) as B2.
  assert (D2 : Zpos (digits2_pos m2) = 24) by lia.
  assert (D1 : Zpos (digits2_pos m1) <= 24) by lia.
  rewrite D2 in B2.
  assert (Zpos m1 < 2 ^ 24).
  { eapply Z.lt_le_trans; [apply B1 |].
    apply Z.pow_le_mono_r; lia. }
  assert (2 ^ 1 <= 2 ^ (e2 - e1)) by (apply Z.pow_le_mono_r; lia).
  change (2 ^ (24 - 1)) with 8388608 in B2.
  change (2 ^ 24) with 16777216 in *. change (2 ^ 1) with 2 in *.
  nia.
Qed.

Lemma binary_normalize_negative (prec emax m e : Z) (szero : bool) :
  m < 0 ->
  let r := binary_normalize prec emax m e szero in
  is_nan r = false /\ sign_bit r = true.
Proof.
  intros H. destruct m as [| p | p]; try lia.
  cbn. apply binary_round_sign.
Qed.

(** The difference of a smaller and a larger binary32 number has its
    sign bit set. *)
Lemma SFsub_lt_negative (x y : float32) :
  valid_binary prec32 emax32 x = true ->
  valid_binary prec32 emax32 y = true ->
  SFltb x y = true ->
  is_nan (sub32 x y) = false /\ sign_bit (sub32 x y) = true.
Proof.
  intros Vx Vy. unfold SFltb, sub32.
  destruct x as [sx | sx | | sx mx ex], y as [sy | sy | | sy my ey];
    cbn [SFcompare]; intros Hlt; try discriminate Hlt;
    try solve [ repeat match goal with s : bool |- _ => destruct s end;
                try discriminate Hlt; cbn; auto ].
  - cbn [SFsub].
    apply binary_normalize_negative.
    cbn [valid_binary] in Vx, Vy.
    rewrite (shl_align_value mx ex (Z.min ex ey)) by lia.
    rewrite (shl_align_value my ey (Z.min ex ey)) by lia.
    assert (Px : 0 < Zpos mx * 2 ^ (ex - Z.min ex ey)).
    { apply Z.mul_pos_pos; [lia | apply Z.pow_pos_nonneg; lia]. }
    assert (Py : 0 < Zpos my * 2 ^ (ey - Z.min ex ey)).
    { apply Z.mul_pos_pos; [lia | apply Z.pow_pos_nonneg; lia]. }
    destruct sx, sy; cbn [cond_Zopp]; try discriminate; try lia.
    + (* both negative: the magnitude of [x] is the larger *)
      destruct (Z.compare_spec ex ey) as [E | E | E]; try discriminate.
      * subst ey. rewrite Z.min_id, Z.sub_diag in *. cbn [Z.pow].
        change (PosDef.Pos.compare_cont Eq mx my) with (mx ?= my)%positive in Hlt.
        destruct (Pos.compare_spec mx my) as [E' | E' | E'];
          cbn in Hlt; try discriminate; lia.
      * pose proof (canonical_exponent_lt my mx ey ex Vy Vx E) as H.
        rewrite Z.min_r by lia. rewrite Z.sub_diag. cbn [Z.pow]. lia.
    + (* both positive: the magnitude of [y] is the larger *)
      destruct (Z.compare_spec ex ey) as [E | E | E]; try discriminate.
      * subst ey. rewrite Z.min_id, Z.sub_diag in *. cbn [Z.pow].
        change (PosDef.Pos.compare_cont Eq mx my) with (mx ?= my)%positive in Hlt.
        destruct (Pos.compare_spec mx my) as [E' | E' | E'];
          cbn in Hlt; try discriminate; lia.
      * pose proof (canonical_exponent_lt mx my ex ey Vx Vy E) as H.
        rewrite Z.min_l by lia. rewrite Z.sub_diag. cbn [Z.pow]. lia.
Qed.

(** *** The error of rounding *)











End GoFloatFacts.

(** ** The charging axis: peak tracking and priority of the cases *)

Section ChargingAxis.

Variable lookup : float32 -> float32 -> option LookupResult.

(** The driving chain leaves the snapshot and the charging session
    alone. *)
Lemma drivingAxis_frame (car : Car) :
  let car' := car_after (drivingAxis lookup car) in
  carState car' = carState car /\ charging car' = charging car /\
  chargeStart car' = chargeStart car /\ chargePeak car' = chargePeak car.
Proof.
  unfold drivingAxis.
  case_ifs; cbn; auto.
Qed.

(** Which transition the charging chain logs. *)
Lemma chargingAxis_fired (car : Car) :
  fired (chargingAxis lookup car) =
    if endDetected car then [FinishedCharging]
    else if peakExceeded car then [NewChargingPeak]
    else if startDetected car then [StartedCharging]
    else [].
Proof.
  unfold chargingAxis, endDetected, peakExceeded, startDetected.
  case_ifs; reflexivity.
Qed.

(** What the charging chain does to the session of a car. *)
Lemma chargingAxis_session (car : Car) :
  let car' := car_after (chargingAxis lookup car) in
  carState car' = carState car /\
  charging car' =
    (if endDetected car then false
     else if peakExceeded car then charging car
     else if startDetected car then true else charging car) /\
  chargeStart car' =
    (if endDetected car then chargeStart car
     else if peakExceeded car then chargeStart car
     else if startDetected car then carState car else chargeStart car) /\
  chargePeak car' =
    (if endDetected car then chargePeak car
     else if peakExceeded car then carState car
     else if startDetected car then carState car else chargePeak car).
Proof.
  unfold chargingAxis, endDetected, peakExceeded, startDetected.
  case_ifs; cbn; auto.
Qed.

(** The charging fields after a whole evaluation are those the charging
    chain leaves. *)
Lemma evaluate_charging_fields (car : Car) :
  let car' := car_after (evaluate lookup car) in
  let c := car_after (chargingAxis lookup car) in
  carState car' = carState c /\ charging car' = charging c /\
  chargeStart car' = chargeStart c /\ chargePeak car' = chargePeak c.
Proof.
  unfold evaluate. cbn zeta.
  destruct (left_select (chargingAxis lookup car)); cbn; [auto |].
  apply drivingAxis_frame.
Qed.

Lemma evaluate_fired_charging (car : Car) :
  chargingTransitions (fired (evaluate lookup car)) =
    fired (chargingAxis lookup car).
Proof.
  unfold evaluate, chargingTransitions. cbn zeta.
  destruct (left_select (chargingAxis lookup car)) eqn:E; cbn.
  - rewrite chargingAxis_fired.
    case_ifs; reflexivity.
  - rewrite List.filter_app.
    replace (List.filter is_charging_transition (fired (drivingAxis lookup _)))
      with (@nil Transition).
    + rewrite app_nil_r, chargingAxis_fired.
      case_ifs; reflexivity.
    + unfold drivingAxis.
      case_ifs; reflexivity.
Qed.

(** The state of an active session after observing [s]. *)
Lemma observe_active (car : Car) (s : CarState) :
  charging car = true -> chargerPower s <> 0 ->
  let car' := observe lookup car s in
  charging car' = true /\ chargeStart car' = chargeStart car /\
  chargePeak car' =
    (if chargerPower (chargePeak car) <? chargerPower s then s
     else chargePeak car).
Proof.
  intros Hc Hp. unfold observe. cbn zeta.
  destruct (evaluate_charging_fields (set_carState s car)) as (_ & -> & -> & ->).
  destruct (chargingAxis_session (set_carState s car)) as (_ & -> & -> & ->).
  unfold endDetected, peakExceeded, startDetected. cbn.
  rewrite Hc. cbn.
  destruct (Z.eqb_spec (chargerPower s) 0); [contradiction |].
  destruct (chargerPower (chargePeak car) <? chargerPower s); auto.
Qed.

Lemma observe_start (car : Car) (s : CarState) :
  charging car = false -> 0 < chargerPower s ->
  let car' := observe lookup car s in
  charging car' = true /\ chargeStart car' = s /\ chargePeak car' = s.
Proof.
  intros Hc Hp. unfold observe. cbn zeta.
  destruct (evaluate_charging_fields (set_carState s car)) as (_ & -> & -> & ->).
  destruct (chargingAxis_session (set_carState s car)) as (_ & -> & -> & ->).
  unfold endDetected, peakExceeded, startDetected. cbn.
  rewrite Hc. cbn.
  destruct (Z.ltb_spec 0 (chargerPower s)); [auto | lia].
Qed.

(** The invariant of an active session, over any run of observations
    that keep it active. *)
Lemma observeAll_active (l : list CarState) : forall (car : Car),
  charging car = true ->
  Forall (fun s => chargerPower s <> 0) l ->
  let car' := observeAll lookup car l in
  charging car' = true /\ chargeStart car' = chargeStart car /\
  chargerPower (chargePeak car') = maxPower (chargePeak car) l.
Proof.
  induction l as [| s l IH]; intros car Hc Hl; cbn.
  - auto.
  - inversion Hl as [| ? ? Hs Hl']; subst.
    destruct (observe_active car s Hc Hs) as (Hc' & Hst & Hpk).
    destruct (IH (observe lookup car s) Hc' Hl') as (IH1 & IH2 & IH3).
    unfold observeAll in IH1, IH2, IH3.
    rewrite IH1, IH2, IH3, Hst, Hpk. repeat split.
    unfold maxPower. f_equal.
    destruct (Z.ltb_spec (chargerPower (chargePeak car)) (chargerPower s)); lia.
Qed.

Lemma maxPower_ge (l : list CarState) : forall (s0 : CarState),
  chargerPower s0 <= maxPower s0 l.
Proof.
  unfold maxPower.
  assert (H : forall a, a <= fold_left (fun acc s => Z.max acc (chargerPower s)) l a).
  { induction l as [| s l IH]; intros a; cbn; [lia |].
    specialize (IH (Z.max a (chargerPower s))). lia. }
  intros s0. apply H.
Qed.

(** C1. Within an active charging session the peak snapshot is replaced
    only by a snapshot of strictly greater charger power (a tie keeps the
    stored peak), so that after each evaluation its charger power is the
    largest observed since the session started; an evaluation logs at most
    one transition of the charging axis, chosen by testing end-detection,
    then peak-update, then start-detection. *)
Theorem charging_peak_is_session_maximum
    (car : Car) (s0 : CarState) (l : list CarState) :
  charging car = false ->
  0 < chargerPower s0 ->
  Forall (fun s => chargerPower s <> 0) l ->
  let session := observeAll lookup (observe lookup car s0) l in
  (* the session is active and its peak is the maximum so far *)
  (charging session = true /\ chargeStart session = s0 /\
   chargerPower (chargePeak session) = maxPower s0 l) /\
  (* the next evaluation replaces the peak only on a strict increase *)
  (forall s : CarState,
      let next := observe lookup session s in
      chargePeak next =
        (if chargerPower (chargePeak session) <? chargerPower s then s
         else chargePeak session) /\
      (chargerPower s = chargerPower (chargePeak session) ->
       chargePeak next = chargePeak session) /\
      chargerPower (chargePeak next) = maxPower s0 (l ++ [s])) /\
  (* at most one case fires, in the order end, peak, start *)
  (forall c : Car,
      (length (chargingTransitions (fired (evaluate lookup c))) <= 1)%nat /\
      chargingTransitions (fired (evaluate lookup c)) =
        (if endDetected c then [FinishedCharging]
         else if peakExceeded c then [NewChargingPeak]
         else if startDetected c then [StartedCharging]
         else [])).
Proof.
  intros Hc Hp Hl session.
  destruct (observe_start car s0 Hc Hp) as (Hc0 & Hst0 & Hpk0).
  destruct (observeAll_active l (observe lookup car s0) Hc0 Hl)
    as (Hc1 & Hst1 & Hpk1).
  fold session in Hc1, Hst1, Hpk1.
  rewrite Hst0 in Hst1. rewrite Hpk0 in Hpk1.
  assert (Hpos : 0 < chargerPower (chargePeak session)).
  { rewrite Hpk1. pose proof (maxPower_ge l s0). lia. }
  split; [auto |]. split.
  - intros s next.
    assert (Hnext : chargePeak next =
              (if chargerPower (chargePeak session) <? chargerPower s then s
               else chargePeak session)).
    { destruct (Z.eq_dec (chargerPower s) 0) as [Hz | Hnz].
      - (* the session ends: the peak is kept, and 0 does not exceed it *)
        subst next. unfold observe.
        destruct (evaluate_charging_fields (set_carState s session)) as (_ & _ & _ & ->).
        destruct (chargingAxis_session (set_carState s session)) as (_ & _ & _ & ->).
        unfold endDetected. cbn. rewrite Hc1, Hz. cbn.
        destruct (Z.ltb_spec (chargerPower (chargePeak session)) 0); [lia | reflexivity].
      - destruct (observe_active session s Hc1 Hnz) as (_ & _ & H). exact H. }
    split; [exact Hnext |]. split.
    + intros Htie. rewrite Hnext, Htie, Z.ltb_irrefl. reflexivity.
    + rewrite Hnext. unfold maxPower. rewrite fold_left_app. cbn.
      fold (maxPower s0 l). rewrite <- Hpk1.
      destruct (Z.ltb_spec (chargerPower (chargePeak session)) (chargerPower s)); lia.
  - intros c. rewrite evaluate_fired_charging, chargingAxis_fired.
    case_ifs; cbn; auto.
Qed.

End ChargingAxis.

(** ** Suppression of the charging message *)

Lemma append_nonempty (s t : string) : s <> "" -> (s ++ t)%string <> "".
Proof. destruct s; [congruence | cbn; discriminate]. Qed.

Lemma string_append_cons (x : ascii) (a b : string) :
  (String x a ++ b)%string = String x (a ++ b).
Proof. reflexivity. Qed.

Lemma string_append_assoc (a b c : string) :
  ((a ++ b) ++ c)%string = (a ++ b ++ c)%string.
Proof.
  induction a as [| x a IH]; [reflexivity |].
  rewrite !string_append_cons, IH. reflexivity.
Qed.

Lemma plug_nonempty : Glyph.plug <> "".
Proof. vm_compute. discriminate. Qed.

Lemma car_nonempty : Glyph.car <> "".
Proof. vm_compute. discriminate. Qed.

Section ChargingMessage.

Variable lookup : float32 -> float32 -> option LookupResult.

(** The two versions of the formatter are empty on the same inputs:
    exactly when the wrapped battery difference is zero. *)
Lemma finishChargingMessage_empty_wrapped (start end_ peak : CarState) :
  (finishChargingMessage lookup start end_ peak = "" <->
   GoInt.sub64 (batteryLevel end_) (batteryLevel start) = 0) /\
  (V1.finishChargingMessage start end_ peak = "" <->
   GoInt.sub64 (batteryLevel end_) (batteryLevel start) = 0).
Proof.
  unfold finishChargingMessage, V1.finishChargingMessage.
  destruct (Z.eqb_spec (GoInt.sub64 (batteryLevel end_) (batteryLevel start)) 0)
    as [E | E].
  - split; split; auto.
  - split; split; intros H; try contradiction;
      exfalso; revert H; apply append_nonempty, plug_nonempty.
Qed.

(** C2. The charging message is empty when the battery level of the end
    snapshot equals that of the start snapshot, whatever the other
    fields are, and is not empty when the two levels differ. *)
Theorem finishChargingMessage_empty_iff (start end_ peak : CarState) :
  GoInt.in_int64 (batteryLevel start) ->
  GoInt.in_int64 (batteryLevel end_) ->
  (finishChargingMessage lookup start end_ peak = "" <->
   batteryLevel end_ = batteryLevel start) /\
  (V1.finishChargingMessage start end_ peak = "" <->
   batteryLevel end_ = batteryLevel start).
Proof.
  intros Hs He.
  destruct (finishChargingMessage_empty_wrapped start end_ peak) as [H1 H2].
  rewrite H1, H2.
  split; apply GoIntFacts.sub64_zero_iff; assumption.
Qed.

End ChargingMessage.

(** ** Suppression of the driving message *)

Section DriveMessage.

Variable lookup : float32 -> float32 -> option LookupResult.

(** The distance in miles as the formatter computes it. *)
Lemma finishDriveMessage_empty_distance (start end_ : CarState) :
  finishDriveMessage lookup start end_ = "" <->
  ltb32 (div32 (sub32 (odometer end_) (odometer start)) KMPerMile)
    (const32 1 10) = true.
Proof.
  unfold finishDriveMessage.
  destruct (ltb32 _ (const32 1 10)).
  - split; auto.
  - split; [| discriminate].
    intros H. exfalso. revert H. apply append_nonempty, car_nonempty.
Qed.

(** A difference of odometers with the sign bit set gives a distance
    below the threshold. *)
Lemma negative_delta_below_threshold (delta : float32) :
  is_nan delta = false -> sign_bit delta = true ->
  ltb32 (div32 delta KMPerMile) (const32 1 10) = true.
Proof.
  intros Hn Hs.
  change KMPerMile with (S754_finite false 13505659 (-23)).
  change (const32 1 10) with (S754_finite false 13421773 (-27)).
  destruct (GoFloatFacts.SFdiv_sign prec32 emax32 delta 13505659 (-23) Hn)
    as [Hn' Hs'].
  apply GoFloatFacts.SFltb_negative_positive; [exact Hn' |].
  exact (eq_trans Hs' Hs).
Qed.

(** C3. The driving message computes the distance as the odometer
    difference divided by [KMPerMile = 1.61] and is empty exactly when that
    distance is below [0.1]; this covers every negative odometer
    difference; otherwise the message is not empty. *)
Theorem finishDriveMessage_empty_iff (start end_ : CarState) :
  let delta := sub32 (odometer end_) (odometer start) in
  let distance := div32 delta (const32 161 100) in
  (finishDriveMessage lookup start end_ = "" <->
   ltb32 distance (const32 1 10) = true) /\
  (finishDriveMessage lookup start end_ <> "" <->
   ltb32 distance (const32 1 10) = false) /\
  (is_nan delta = false -> sign_bit delta = true ->
   finishDriveMessage lookup start end_ = "") /\
  (valid_binary prec32 emax32 (odometer start) = true ->
   valid_binary prec32 emax32 (odometer end_) = true ->
   SFltb (odometer end_) (odometer start) = true ->
   finishDriveMessage lookup start end_ = "").
Proof.
  intros delta distance.
  pose proof (finishDriveMessage_empty_distance start end_) as H.
  change (div32 (sub32 (odometer end_) (odometer start)) KMPerMile)
    with distance in H.
  split; [exact H |]. split; [| split].
  - rewrite H. destruct (ltb32 distance (const32 1 10)); split; congruence.
  - intros Hn Hs. apply H. apply negative_delta_below_threshold; assumption.
  - intros Vs Ve Hlt. apply H.
    destruct (GoFloatFacts.SFsub_lt_negative _ _ Ve Vs Hlt) as [Hn Hs].
    apply negative_delta_below_threshold; assumption.
Qed.

End DriveMessage.

(** ** The efficiency figure of the driving message *)

Section Efficiency.

Variable lookup : float32 -> float32 -> option LookupResult.

Lemma finishDriveMessage_shape (start end_ : CarState) :
  finishDriveMessage lookup start end_ <> "" ->
  finishDriveMessage lookup start end_ =
    (drive_message_head lookup start end_ ++
     GoFmt.fmt_f 0 (efficiency start end_) ++ "Wh/mi)")%string.
Proof.
  unfold finishDriveMessage, drive_message_head.
  destruct (ltb32 _ (const32 1 10)); [congruence |].
  intros _. cbn zeta.
  rewrite !string_append_assoc. reflexivity.
Qed.

(** C4. The efficiency figure of the driving message is
    [(start.rated - end.rated) / 7.47 * 1000 / (end.odometer -
    start.odometer) * 1.61], printed without decimals; from odometer 976
    and rated range 400 to odometer 986 and rated range 390 it reads
    [216Wh/mi]. *)
Theorem drive_message_efficiency (start end_ : CarState) :
  efficiency start end_ =
    mul32
      (div32
         (mul32
            (div32
               (sub32 (ratedBatteryRangeKm start) (ratedBatteryRangeKm end_))
               (const32 747 100))
            (const32 1000 1))
         (sub32 (odometer end_) (odometer start)))
      (const32 161 100) /\
  (finishDriveMessage lookup start end_ <> "" ->
   finishDriveMessage lookup start end_ =
     (drive_message_head lookup start end_ ++
      GoFmt.fmt_f 0 (efficiency start end_) ++ "Wh/mi)")%string) /\
  (odometer start = const32 976 1 ->
   ratedBatteryRangeKm start = const32 400 1 ->
   odometer end_ = const32 986 1 ->
   ratedBatteryRangeKm end_ = const32 390 1 ->
   GoFmt.fmt_f 0 (efficiency start end_) = "216" /\
   finishDriveMessage lookup start end_ =
     (drive_message_head lookup start end_ ++ "216Wh/mi)")%string).
Proof.
  split; [reflexivity |]. split; [apply finishDriveMessage_shape |].
  intros Ho Hr Ho' Hr'.
  assert (Heff : GoFmt.fmt_f 0 (efficiency start end_) = "216").
  { unfold efficiency. rewrite Ho, Hr, Ho', Hr'. vm_compute. reflexivity. }
  split; [exact Heff |].
  rewrite finishDriveMessage_shape.
  - rewrite Heff. reflexivity.
  - intros H. apply finishDriveMessage_empty_distance in H.
    rewrite Ho, Ho' in H. vm_compute in H. discriminate.
Qed.

End Efficiency.

(** ** The default car of the status command *)

Section DefaultCar.

Variable lookup : float32 -> float32 -> option LookupResult.
Variable parse : string -> option float32.

Lemma tracks_step (seen : list Z) (w w' : World) (ev : Event) :
  tracks seen w -> step lookup parse w ev = Some w' ->
  tracks (discover seen ev) w'.
Proof.
  intros [Hdom Hdef] Hstep.
  destruct ev as [[[carId key] |] payload now | carId | command chatID];
    cbn in Hstep.
  - (* a message with a topic that scans *)
    injection Hstep as <-. cbn [discover].
    destruct (cars w !! carId) as [car |] eqn:E; cbn.
    + assert (Hin : carId ∈ seen) by (apply Hdom; rewrite E; eauto).
      destruct (decide (carId ∈ seen)); [| contradiction].
      split; [| exact Hdef].
      intros id. cbn. rewrite Hdom.
      destruct (decide (carId = id)) as [-> | Hne].
      * rewrite lookup_insert_eq, E. split; eauto.
      * rewrite lookup_insert_ne by exact Hne. reflexivity.
    + assert (Hnin : carId ∉ seen).
      { intros Hin. apply Hdom in Hin. rewrite E in Hin.
        destruct Hin as [? ?]. discriminate. }
      destruct (decide (carId ∈ seen)); [contradiction |].
      split; [| cbn; rewrite List.last_last; reflexivity].
      intros id. cbn. rewrite elem_of_app, Hdom, list_elem_of_singleton.
      destruct (decide (carId = id)) as [-> | Hne].
      * rewrite lookup_insert_eq. split; eauto.
      * rewrite !lookup_insert_ne by exact Hne.
        split; [intros [H | H]; [exact H | congruence] | auto].
  - injection Hstep as <-. split; assumption.
  - cbn [discover].
    destruct (cars w !! carId) as [car |] eqn:E; injection Hstep as <-;
      [| split; assumption].
    split; [| exact Hdef].
    intros id. cbn. rewrite Hdom.
    destruct (decide (carId = id)) as [-> | Hne].
    + rewrite lookup_insert_eq, E. split; eauto.
    + rewrite lookup_insert_ne by exact Hne. reflexivity.
  - cbn [discover].
    destruct (botReply command chatID w); [| discriminate].
    injection Hstep as <-. split; assumption.
Qed.

Lemma tracks_run (evs : list Event) : forall (seen : list Z) (w w' : World),
  tracks seen w -> run lookup parse w evs = Some w' ->
  tracks (fold_left discover evs seen) w'.
Proof.
  induction evs as [| ev evs IH]; intros seen w w' Ht Hrun; cbn in *.
  - injection Hrun as <-. exact Ht.
  - destruct (step lookup parse w ev) as [w1 |] eqn:E; [| discriminate].
    eapply IH; [| exact Hrun].
    eapply tracks_step; eassumption.
Qed.

Lemma tracks_initial : tracks [] initialWorld.
Proof.
  split; [| reflexivity].
  intros id. cbn. rewrite lookup_empty. split.
  - intros H. apply elem_of_nil in H. contradiction.
  - intros [? ?]. discriminate.
Qed.

(** C5, as the program has it.  After any run of the process the
    status command answers with the battery level of the car that was
    discovered last; as long as no car has been discovered it has no car
    to answer for. *)
Theorem status_reports_last_discovered (evs : list Event) (w : World)
    (chatID : Z) :
  run lookup parse initialWorld evs = Some w ->
  match discoveredBy evs with
  | [] => botReply "status" chatID w = None
  | _ :: _ =>
      let id := List.last (discoveredBy evs) 0 in
      defaultCar w = id /\
      exists car,
        cars w !! id = Some car /\
        botReply "status" chatID w =
          Some (Glyph.battery ++ GoFmt.fmt_d (batteryLevel (carState car)) ++ "%")%string
  end.
Proof.
  intros Hrun.
  destruct (tracks_run evs [] initialWorld w tracks_initial Hrun)
    as [Hdom Hdef].
  fold (discoveredBy evs) in Hdom, Hdef.
  destruct (discoveredBy evs) as [| id0 rest] eqn:E.
  - unfold botReply. cbn [String.eqb Ascii.eqb Bool.eqb].
    destruct (cars w !! defaultCar w) as [car |] eqn:Ec; [| reflexivity].
    assert (H : defaultCar w ∈ @nil Z) by (apply Hdom; rewrite Ec; eauto).
    apply elem_of_nil in H. contradiction.
  - cbn zeta. split; [exact Hdef |].
    assert (Hin : List.last (id0 :: rest) 0 ∈ id0 :: rest).
    { clear. revert id0. induction rest as [| b rest IH]; intros id0.
      - cbn. apply list_elem_of_here.
      - change (List.last (id0 :: b :: rest) 0) with (List.last (b :: rest) 0).
        apply list_elem_of_further, IH. }
    apply Hdom in Hin. destruct Hin as [car Hcar].
    exists car. split; [exact Hcar |].
    unfold botReply. cbn [String.eqb Ascii.eqb Bool.eqb].
    rewrite Hdef, Hcar. reflexivity.
Qed.

End DefaultCar.

(** C5, as stated, fails: a second car takes over the status command.
    Car 1 reports 50%, then car 2 reports 80%; the status command answers
    80%, the level of the car discovered last, not of the first. *)
Lemma status_not_first_discovered :
  let evs :=
    [MqttMessage (Some (1, "battery_level")) "50" Tests.at_0639;
     MqttMessage (Some (2, "battery_level")) "80" Tests.at_0639] in
  exists w first,
    run Tests.lookup Tests.parseFloat initialWorld evs = Some w /\
    List.head (discoveredBy evs) = Some 1 /\
    cars w !! 1 = Some first /\
    batteryLevel (carState first) = 50 /\
    botReply "status" 0 w = Some (Glyph.battery ++ "80%")%string /\
    botReply "status" 0 w <> Some (statusMessage first).
Proof.
  eexists. eexists.
  split; [vm_compute; reflexivity |].
  split; [vm_compute; reflexivity |].
  split; [vm_compute; reflexivity |].
  split; [vm_compute; reflexivity |].
  split; [vm_compute; reflexivity |].
  vm_compute. discriminate.
Qed.

(** ** Place names *)

Section Truncate.

Lemma prefix_length (s : string) : forall n : nat,
  String.length (prefix n s) = Nat.min n (String.length s).
Proof.
  unfold prefix.
  induction s as [| c s IH]; intros [| n]; cbn; auto.
Qed.

Lemma prefix_get (s : string) (n j : nat) :
  (j < n)%nat -> String.get j (prefix n s) = String.get j s.
Proof.
  intros H. unfold prefix.
  rewrite substring_correct1 by exact H.
  rewrite Nat.add_0_r. reflexivity.
Qed.

(** [LastIndex_from] returns [last] when the separator does not occur
    and the offset of its last occurrence otherwise. *)
Lemma LastIndex_from_absent (sep : ascii) (s : string) : forall (i last : Z),
  (forall j : nat, String.get j s <> Some sep) ->
  LastIndex_from s sep i last = last.
Proof.
  induction s as [| c s IH]; intros i last H; cbn; [reflexivity |].
  rewrite IH.
  - destruct (Ascii.eqb_spec c sep) as [-> | _]; [| reflexivity].
    specialize (H 0%nat). cbn in H. congruence.
  - intros j. exact (H (S j)).
Qed.

Lemma LastIndex_from_present (sep : ascii) (s : string) :
  forall (i last : Z) (l : nat),
  String.get l s = Some sep ->
  (forall j : nat, (l < j)%nat -> String.get j s <> Some sep) ->
  LastIndex_from s sep i last = i + Z.of_nat l.
Proof.
  induction s as [| c s IH]; intros i last l Hl Hafter; cbn in *.
  - discriminate.
  - destruct l as [| l].
    + injection Hl as ->. rewrite Ascii.eqb_refl.
      rewrite LastIndex_from_absent; [lia |].
      intros j. apply (Hafter (S j)). lia.
    + rewrite (IH _ _ l Hl).
      * lia.
      * intros j Hj. apply (Hafter (S j)). lia.
Qed.

(** What [truncate] returns, by cases. *)
Lemma truncate_short (s : string) (limit : nat) :
  (String.length s < limit)%nat -> truncate s limit = s.
Proof.
  intros H. unfold truncate.
  destruct (Nat.ltb_spec (String.length s) limit); [reflexivity | lia].
Qed.

Lemma truncate_at_comma (s : string) (limit l : nat) :
  (limit <= String.length s)%nat -> (l < limit)%nat ->
  String.get l s = Some ","%char ->
  (forall j : nat, (l < j < limit)%nat -> String.get j s <> Some ","%char) ->
  truncate s limit = prefix l s.
Proof.
  intros Hlen Hl Hget Hafter. unfold truncate.
  destruct (Nat.ltb_spec (String.length s) limit); [lia |].
  unfold LastIndex.
  rewrite (LastIndex_from_present _ _ 0 (-1) l).
  - destruct (Z.eqb_spec (0 + Z.of_nat l) (-1)); [lia |]. cbn [negb].
    f_equal. lia.
  - rewrite prefix_get by exact Hl. exact Hget.
  - intros j Hj.
    destruct (Nat.lt_ge_cases j limit) as [Hlt | Hge].
    + rewrite prefix_get by exact Hlt. apply Hafter. lia.
    + unfold prefix. rewrite substring_correct2 by exact Hge. discriminate.
Qed.

Lemma truncate_hard (s : string) (limit : nat) :
  (limit <= String.length s)%nat ->
  (forall j : nat, (j < limit)%nat -> String.get j s <> Some ","%char) ->
  truncate s limit = prefix limit s.
Proof.
  intros Hlen Hno. unfold truncate.
  destruct (Nat.ltb_spec (String.length s) limit); [lia |].
  unfold LastIndex. rewrite LastIndex_from_absent; [reflexivity |].
  intros j.
  destruct (Nat.lt_ge_cases j limit) as [Hlt | Hge].
  - rewrite prefix_get by exact Hlt. apply Hno, Hlt.
  - unfold prefix. rewrite substring_correct2 by exact Hge. discriminate.
Qed.

Lemma LastIndex_from_range (sep : ascii) (s : string) : forall (i last : Z),
  last < i ->
  LastIndex_from s sep i last = last \/
  i <= LastIndex_from s sep i last < i + Z.of_nat (String.length s).
Proof.
  induction s as [| c s IH]; intros i last H; cbn [LastIndex_from String.length].
  - left. reflexivity.
  - destruct (Ascii.eqb c sep).
    + destruct (IH (i + 1) i ltac:(lia)) as [-> | Hr]; right; lia.
    + destruct (IH (i + 1) last ltac:(lia)) as [-> | Hr]; [left; reflexivity | right; lia].
Qed.

Lemma truncate_length (s : string) (limit : nat) :
  (String.length (truncate s limit) <= limit)%nat.
Proof.
  unfold truncate.
  destruct (Nat.ltb_spec (String.length s) limit); [lia |].
  destruct (negb _).
  - rewrite prefix_length.
    pose proof (LastIndex_from_range ","%char (prefix limit s) 0 (-1) ltac:(lia)) as Hr.
    rewrite prefix_length in Hr. fold (LastIndex (prefix limit s) ","%char) in Hr.
    lia.
  - rewrite prefix_length. lia.
Qed.

End Truncate.

Section PlaceName.

Variable lookup : float32 -> float32 -> option LookupResult.

(** C6, as the program has it.  The place name of a snapshot is its
    geofence label whenever that label is not empty; otherwise it is the
    name found by the lookup, the short name or else the display name, cut
    down to at most 20 bytes: at the last comma among its first 20 bytes,
    or else after 20 bytes, a name of fewer than 20 bytes being kept
    whole; and it is ["?"] when the lookup fails or finds no name. *)
Theorem placeName_resolution (s : CarState) :
  (geofence s <> "" -> placeName lookup s = geofence s) /\
  (geofence s = "" ->
   match lookup (latitude s) (longitude s) with
   | None => placeName lookup s = "?"
   | Some result =>
       let name :=
         if String.eqb (Name result) "" then DisplayName result
         else Name result in
       (name = "" -> placeName lookup s = "?") /\
       (name <> "" ->
        placeName lookup s = truncate name 20 /\
        (String.length (placeName lookup s) <= 20)%nat /\
        ((String.length name < 20)%nat -> placeName lookup s = name) /\
        ((20 <= String.length name)%nat ->
         (forall l : nat,
             (l < 20)%nat ->
             String.get l name = Some ","%char ->
             (forall j : nat,
                 (l < j < 20)%nat -> String.get j name <> Some ","%char) ->
             placeName lookup s = prefix l name) /\
         ((forall j : nat,
              (j < 20)%nat -> String.get j name <> Some ","%char) ->
          placeName lookup s = prefix 20 name)))
   end).
Proof.
  unfold placeName. split.
  - intros H. destruct (String.eqb_spec (geofence s) ""); [contradiction | reflexivity].
  - intros H. rewrite H. cbn [String.eqb negb].
    destruct (lookup (latitude s) (longitude s)) as [result |]; [| reflexivity].
    cbn zeta.
    set (name := if String.eqb (Name result) "" then DisplayName result
                 else Name result).
    destruct (String.eqb_spec name "") as [E | E]; cbn [negb].
    + split; [reflexivity | contradiction].
    + split; [contradiction |]. intros _.
      split; [reflexivity |].
      split; [apply truncate_length |].
      split; [apply truncate_short |].
      intros Hlen. split.
      * intros l Hl Hget Hafter. apply truncate_at_comma; assumption.
      * intros Hno. apply truncate_hard; assumption.
Qed.

End PlaceName.

(** C6, as stated, fails on names with characters of several bytes, for
    [truncate] counts bytes.  A name of 18 characters in 21 bytes is not
    kept whole but cut at its comma, and a name of 7 characters in 21
    bytes is cut after 20 bytes, inside its last character. *)
Lemma placeName_counts_bytes :
  let street :=
    byte_string [195; 133; 118; 195; 164; 103; 101; 110; 32; 49]%nat in
  let name :=
    (street ++ ", G" ++ byte_string [195; 182]%nat ++ "teborg")%string in
  let zhong := byte_string [228; 184; 173]%nat in
  let name' :=
    (zhong ++ zhong ++ zhong ++ zhong ++ zhong ++ zhong ++ zhong)%string in
  let found (n : string) :=
    fun _ _ : float32 => Some (mkLookupResult "" n) in
  utf8_length name = 18%nat /\
  String.length name = 21%nat /\
  placeName (found name) zeroCarState = street /\
  utf8_length (placeName (found name) zeroCarState) = 8%nat /\
  utf8_length name' = 7%nat /\
  String.length name' = 21%nat /\
  placeName (found name') zeroCarState =
    (zhong ++ zhong ++ zhong ++ zhong ++ zhong ++ zhong ++
     byte_string [228; 184]%nat)%string.
Proof. vm_compute. repeat split; reflexivity. Qed.

(** ** Durations *)

Section FormatDuration.

(** *** Decimal numerals read back *)

Lemma read_digits_uint (d : Decimal.uint) : forall (acc : Z) (c : ascii) (r : string),
  GoStrconv.digit_of c = None ->
  read_digits (NilEmpty.string_of_uint d ++ String c r) acc =
    (uint_value d acc, String c r).
Proof.
  induction d; intros acc c r Hc; cbn [NilEmpty.string_of_uint uint_value];
    rewrite ?string_append_cons;
    [ change (("" ++ String c r)%string) with (String c r);
      cbn [read_digits]; rewrite Hc; reflexivity
    | cbn [read_digits];
      match goal with
      | |- context [GoStrconv.digit_of ?x] =>
          let v := eval vm_compute in (GoStrconv.digit_of x) in
          change (GoStrconv.digit_of x) with v
      end; cbv iota; apply IHd; exact Hc .. ].
Qed.

Lemma uint_value_acc (d : Decimal.uint) : forall acc : positive,
  uint_value d (Zpos acc) = Zpos (Pos.of_uint_acc d acc).
Proof.
  induction d; intros acc; cbn [uint_value Pos.of_uint_acc];
    [reflexivity | rewrite <- IHd; f_equal; lia ..].
Qed.

Lemma uint_value_of_uint (d : Decimal.uint) :
  uint_value d 0 = Z.of_N (Pos.of_uint d).
Proof.
  induction d; cbn [uint_value Pos.of_uint]; try reflexivity;
    [ exact IHd
    | match goal with
      | |- uint_value _ ?a = _ =>
          let v := eval cbv in a in change a with v
      end; rewrite uint_value_acc; reflexivity .. ].
Qed.

(** A non-negative number is read back from its [%d] rendering. *)
Lemma read_digits_fmt_d (n : Z) (c : ascii) (r : string) :
  0 <= n -> GoStrconv.digit_of c = None ->
  read_digits (GoFmt.fmt_d n ++ String c r) 0 = (n, String c r).
Proof.
  intros Hn Hc.
  destruct n as [| p | p]; [| | lia].
  { change (GoFmt.fmt_d 0)
      with (NilEmpty.string_of_uint (Decimal.D0 Decimal.Nil)).
    rewrite read_digits_uint by exact Hc. reflexivity. }
  unfold GoFmt.fmt_d.
  cbn [Z.to_int NilZero.string_of_int].
  assert (Hnil : Pos.to_uint p <> Decimal.Nil).
  { intros E. pose proof (DecimalPos.Unsigned.of_to p) as H.
    rewrite E in H. discriminate. }
  unfold NilZero.string_of_uint.
  destruct (Pos.to_uint p) eqn:E; [contradiction | ..];
    rewrite <- E, read_digits_uint by exact Hc;
    rewrite uint_value_of_uint, DecimalPos.Unsigned.of_to; reflexivity.
Qed.

(** *** Rounding to the minute *)

Lemma roundedMinutes_cases (d : Z) :
  0 <= d ->
  let m := 60000000000 in
  let q := d / m in
  let r := d mod m in
  (2 * r < m /\ roundedMinutes d = q) \/
  (m <= 2 * r /\ roundedMinutes d = q + 1).
Proof.
  intros Hd m q r. unfold roundedMinutes.
  change (30 * 10 ^ 9) with 30000000000. change (60 * 10 ^ 9) with m.
  pose proof (Z.div_mod d m ltac:(subst m; lia)) as Hdm.
  pose proof (Z.mod_pos_bound d m ltac:(subst m; lia)) as Hr.
  fold q in Hdm. fold r in Hdm, Hr.
  destruct (Z_lt_le_dec (2 * r) m) as [Hlt | Hge]; [left | right];
    (split; [assumption |]); symmetry.
  - apply (Z.div_unique _ _ _ (r + 30000000000)); subst m; lia.
  - apply (Z.div_unique _ _ _ (r - 30000000000)); subst m; lia.
Qed.

Lemma Round_minute (d : GoTime.Duration) :
  0 <= d <= GoInt.max_int64 ->
  GoTime.Round d GoTime.Minute = roundedMinutes d * 60000000000.
Proof.
  intros [Hd Hmax]. unfold GoInt.max_int64 in Hmax.
  change (2 ^ 63 - 1) with 9223372036854775807 in Hmax.
  unfold GoTime.Round. change GoTime.Minute with 60000000000.
  cbn [Z.leb Z.compare].
  destruct (Z.ltb_spec d 0) as [? | _]; [lia |].
  rewrite Z.rem_mod_nonneg by lia.
  pose proof (Z.div_mod d 60000000000 ltac:(lia)) as Hdm.
  pose proof (Z.mod_pos_bound d 60000000000 ltac:(lia)) as Hr.
  destruct (roundedMinutes_cases d Hd) as [[Hlt ->] | [Hge ->]].
  - assert (Hh : GoTime.lessThanHalf (d mod 60000000000) 60000000000 = true).
    { unfold GoTime.lessThanHalf.
      rewrite (GoIntFacts.to_uint64_id (d mod 60000000000))
        by (change (2 ^ 64) with 18446744073709551616; lia).
      rewrite (GoIntFacts.to_uint64_id (_ + _))
        by (change (2 ^ 64) with 18446744073709551616; lia).
      rewrite (GoIntFacts.to_uint64_id 60000000000)
        by (change (2 ^ 64) with 18446744073709551616; lia).
      apply Z.ltb_lt. lia. }
    rewrite Hh. unfold GoInt.sub64.
    rewrite GoIntFacts.wrap64_id; [lia |].
    unfold GoInt.in_int64, GoInt.min_int64, GoInt.max_int64.
    change (2 ^ 63) with 9223372036854775808. lia.
  - assert (Hh : GoTime.lessThanHalf (d mod 60000000000) 60000000000 = false).
    { unfold GoTime.lessThanHalf.
      rewrite (GoIntFacts.to_uint64_id (d mod 60000000000))
        by (change (2 ^ 64) with 18446744073709551616; lia).
      rewrite (GoIntFacts.to_uint64_id (_ + _))
        by (change (2 ^ 64) with 18446744073709551616; lia).
      rewrite (GoIntFacts.to_uint64_id 60000000000)
        by (change (2 ^ 64) with 18446744073709551616; lia).
      apply Z.ltb_ge. lia. }
    rewrite Hh. unfold GoInt.sub64, GoInt.add64.
    rewrite GoIntFacts.wrap64_sub_l.
    rewrite GoIntFacts.wrap64_id.
    + destruct (Z.ltb_spec d (d + 60000000000 - d mod 60000000000)); lia.
    + unfold GoInt.in_int64, GoInt.min_int64, GoInt.max_int64.
      change (2 ^ 63) with 9223372036854775808. lia.
Qed.

Lemma roundedMinutes_nonneg (d : Z) : 0 <= d -> 0 <= roundedMinutes d.
Proof.
  intros H. unfold roundedMinutes. apply Z.div_pos; lia.
Qed.

Lemma roundedMinutes_mono (d d' : Z) :
  d <= d' -> roundedMinutes d <= roundedMinutes d'.
Proof.
  intros H. unfold roundedMinutes. apply Z.div_le_mono; lia.
Qed.

(** For a non-negative duration [formatDuration] renders the rounded
    count of minutes. *)
Lemma formatDuration_render (d : GoTime.Duration) :
  0 <= d <= GoInt.max_int64 ->
  formatDuration d = renderMinutes (roundedMinutes d).
Proof.
  intros Hd. unfold formatDuration, renderMinutes.
  rewrite (Round_minute d Hd).
  pose proof (roundedMinutes_nonneg d (proj1 Hd)) as Hk.
  assert (Hb : roundedMinutes d * 60000000000 < 2 ^ 64).
  { destruct Hd as [Hd Hmax]. unfold GoInt.max_int64 in Hmax.
    change (2 ^ 63 - 1) with 9223372036854775807 in Hmax.
    change (2 ^ 64) with 18446744073709551616.
    unfold roundedMinutes in *.
    change (30 * 10 ^ 9) with 30000000000 in *.
    change (60 * 10 ^ 9) with 60000000000 in *.
    pose proof (Z.mul_div_le (d + 30000000000) 60000000000 ltac:(lia)). lia. }
  rewrite GoIntFacts.to_uint64_id by lia.
  change (GoInt.to_uint64 GoTime.Minute) with 60000000000.
  rewrite Z.div_mul by lia. reflexivity.
Qed.

Lemma minutesShown_render (u : Z) :
  0 <= u -> minutesShown (renderMinutes u) = Some u.
Proof.
  intros Hu. unfold renderMinutes, minutesShown.
  destruct (Z.ltb_spec u 60).
  - rewrite read_digits_fmt_d by (try reflexivity; lia). reflexivity.
  - change (("h" ++ GoFmt.fmt_d (u mod 60) ++ "m")%string)
      with (String "h"%char (GoFmt.fmt_d (u mod 60) ++ "m")%string).
    rewrite read_digits_fmt_d
      by (try reflexivity; apply Z.div_pos; lia).
    rewrite read_digits_fmt_d
      by (try reflexivity; apply Z.mod_pos_bound; lia).
    f_equal. pose proof (Z.div_mod u 60 ltac:(lia)). lia.
Qed.

(** *** Negative durations *)

Lemma wrap64_add_l (a b : Z) :
  GoInt.wrap64 (GoInt.wrap64 a + b) = GoInt.wrap64 (a + b).
Proof.
  unfold GoInt.wrap64. f_equal.
  replace ((a + 2 ^ 63) mod 2 ^ 64 - 2 ^ 63 + b + 2 ^ 63)
    with ((a + 2 ^ 63) mod 2 ^ 64 + b) by ring.
  rewrite Zplus_mod_idemp_l. f_equal. ring.
Qed.

Lemma to_uint64_negative (z : Z) :
  - 2 ^ 63 <= z < 0 -> GoInt.to_uint64 z = z + 2 ^ 64.
Proof.
  intros H. unfold GoInt.to_uint64.
  symmetry. apply (Z.mod_unique _ _ (-1)); lia.
Qed.

(** Rounding a negative duration to the minute: to zero above minus half
    a minute, and to a negative number of minutes or to the least duration
    from there on. *)
Lemma Round_minute_negative (d : GoTime.Duration) :
  GoInt.min_int64 <= d < 0 ->
  (- 30000000000 < d -> GoTime.Round d GoTime.Minute = 0) /\
  (d <= - 30000000000 ->
   GoInt.min_int64 <= GoTime.Round d GoTime.Minute <= - 60000000000).
Proof.
  intros [Hmin Hneg]. unfold GoInt.min_int64 in *.
  change (- 2 ^ 63) with (-9223372036854775808) in *.
  unfold GoTime.Round. change GoTime.Minute with 60000000000.
  cbn [Z.leb Z.compare].
  destruct (Z.ltb_spec d 0) as [_ | ?]; [| lia].
  pose proof (Z.quot_rem' d 60000000000) as Hqr.
  assert (Hr : - 60000000000 < Z.rem d 60000000000 <= 0).
  { pose proof (Z.rem_bound_abs d 60000000000 ltac:(lia)) as Ha.
    pose proof (Z.rem_nonpos d 60000000000 ltac:(lia) ltac:(lia)) as Hn.
    change (Z.abs 60000000000) with 60000000000 in Ha. lia. }
  set (q := Z.quot d 60000000000) in *.
  set (r0 := Z.rem d 60000000000) in *.
  assert (Hlh : GoTime.lessThanHalf (- r0) 60000000000
                = (2 * (- r0) <? 60000000000)).
  { unfold GoTime.lessThanHalf.
    rewrite (GoIntFacts.to_uint64_id (- r0))
      by (change (2 ^ 64) with 18446744073709551616; lia).
    rewrite (GoIntFacts.to_uint64_id (_ + _))
      by (change (2 ^ 64) with 18446744073709551616; lia).
    rewrite (GoIntFacts.to_uint64_id 60000000000)
      by (change (2 ^ 64) with 18446744073709551616; lia).
    f_equal. lia. }
  rewrite Hlh.
  destruct (Z.ltb_spec (2 * - r0) 60000000000) as [Hhalf | Hhalf].
  - (* towards zero *)
    unfold GoInt.add64.
    rewrite GoIntFacts.wrap64_id
      by (unfold GoInt.in_int64, GoInt.min_int64, GoInt.max_int64;
          change (2 ^ 63) with 9223372036854775808; lia).
    split; intros Hd; lia.
  - (* away from zero *)
    unfold GoInt.add64, GoInt.sub64. rewrite wrap64_add_l.
    split; [intros Hd; lia |]. intros _.
    destruct (Z_le_gt_dec (-9223372036854775808) (d - 60000000000 + - r0))
      as [Hin | Hout].
    + rewrite GoIntFacts.wrap64_id
        by (unfold GoInt.in_int64, GoInt.min_int64, GoInt.max_int64;
            change (2 ^ 63) with 9223372036854775808; lia).
      destruct (Z.ltb_spec (d - 60000000000 + - r0) d); lia.
    + assert (Hw : GoInt.wrap64 (d - 60000000000 + - r0)
                   = d - 60000000000 + - r0 + 2 ^ 64).
      { unfold GoInt.wrap64.
        change (2 ^ 64) with 18446744073709551616.
        change (2 ^ 63) with 9223372036854775808.
        rewrite <- (Z.mod_unique
                      (d - 60000000000 + - r0 + 9223372036854775808)
                      18446744073709551616 (-1)
                      (d - 60000000000 + - r0 + 9223372036854775808
                       + 18446744073709551616)); lia. }
      rewrite Hw. change (2 ^ 64) with 18446744073709551616.
      destruct (Z.ltb_spec
                  (d - 60000000000 + - r0 + 18446744073709551616) d);
        [lia |].
      unfold GoTime.minDuration, GoInt.min_int64.
      change (- 2 ^ 63) with (-9223372036854775808). lia.
Qed.

Lemma roundedMinutes_small_negative (d : Z) :
  - 30000000000 < d < 0 -> roundedMinutes d = 0.
Proof.
  intros H. unfold roundedMinutes.
  change (30 * 10 ^ 9) with 30000000000. change (60 * 10 ^ 9) with 60000000000.
  apply Z.div_small. lia.
Qed.

(** Above minus half a minute [formatDuration] renders the rounded count
    of minutes. *)
Lemma Round_minute_from (d : GoTime.Duration) :
  - 30000000000 < d <= GoInt.max_int64 ->
  GoTime.Round d GoTime.Minute = roundedMinutes d * 60000000000 /\
  0 <= roundedMinutes d /\
  formatDuration d = renderMinutes (roundedMinutes d).
Proof.
  intros [Hlo Hhi].
  destruct (Z_lt_le_dec d 0) as [Hneg | Hpos].
  - assert (Hmin : GoInt.min_int64 <= d < 0)
      by (unfold GoInt.min_int64; change (- 2 ^ 63) with (-9223372036854775808); lia).
    destruct (Round_minute_negative d Hmin) as [Hsmall _].
    rewrite roundedMinutes_small_negative by lia.
    split; [rewrite (Hsmall Hlo); reflexivity |].
    split; [lia |].
    unfold formatDuration. rewrite (Hsmall Hlo). reflexivity.
  - split; [apply Round_minute; lia |].
    split; [apply roundedMinutes_nonneg, Hpos |].
    apply formatDuration_render. lia.
Qed.

(** From minus half a minute down the rounded value is negative and
    goes through [uint64] before it is divided into minutes. *)
Lemma formatDuration_wrapped (d : GoTime.Duration) :
  GoInt.min_int64 <= d <= - 30000000000 ->
  GoTime.Round d GoTime.Minute <= - 60000000000 /\
  exists w : Z,
    153722867 <= w <= 307445733 /\
    formatDuration d =
      (GoFmt.fmt_d (w / 60) ++ "h" ++ GoFmt.fmt_d (w mod 60) ++ "m")%string /\
    minutesShown (formatDuration d) = Some w.
Proof.
  intros [Hmin Hd].
  destruct (Round_minute_negative d ltac:(lia)) as [_ Hbig].
  specialize (Hbig Hd). unfold GoInt.min_int64 in Hbig.
  set (R := GoTime.Round d GoTime.Minute) in *.
  split; [lia |].
  assert (Hu : GoInt.to_uint64 R = R + 2 ^ 64)
    by (apply to_uint64_negative; lia).
  change (- 2 ^ 63) with (-9223372036854775808) in Hbig.
  change (2 ^ 64) with 18446744073709551616 in Hu.
  exists ((R + 18446744073709551616) / 60000000000).
  assert (Hlo : 153722867 <= (R + 18446744073709551616) / 60000000000)
    by (apply Z.div_le_lower_bound; lia).
  assert (Hhi : (R + 18446744073709551616) / 60000000000 < 307445734)
    by (apply Z.div_lt_upper_bound; lia).
  split; [lia |].
  assert (Hf : formatDuration d
               = renderMinutes ((R + 18446744073709551616) / 60000000000)).
  { unfold formatDuration, renderMinutes. fold R. rewrite Hu. reflexivity. }
  split.
  - rewrite Hf. unfold renderMinutes.
    destruct (Z.ltb_spec ((R + 18446744073709551616) / 60000000000) 60);
      [lia | reflexivity].
  - rewrite Hf. apply minutesShown_render. lia.
Qed.

End FormatDuration.

(** C7, as stated, fails on negative durations: the rounded value of
    minus one minute is below 60 minutes, yet the conversion to [uint64]
    makes it render with hours, and above the rendering of zero. *)
Lemma formatDuration_negative :
  GoTime.Round (- GoTime.Minute) GoTime.Minute = - GoTime.Minute /\
  - GoTime.Minute < 60 * GoTime.Minute /\
  formatDuration (- GoTime.Minute) = "5124095h33m" /\
  formatDuration 0 = "0m" /\
  minutesShown (formatDuration 0) = Some 0 /\
  minutesShown (formatDuration (- GoTime.Minute)) = Some 307445733.
Proof. vm_compute. repeat split; reflexivity. Qed.

(** C7, as the program has it.  A duration above minus 30 seconds is
    rounded to the nearest minute and rendered as [Xm] below 60 minutes
    and as [XhYm] from 60 minutes on, with plain decimal figures; on these
    durations the minutes shown grow with the duration, and 89min30s reads
    [1h30m].  A duration of minus 30 seconds or less rounds to a negative
    value, which goes through [uint64]: it reads as [XhYm] for a count of
    minutes between 153722867 and 307445733. *)
Theorem formatDuration_by_range (d d' : GoTime.Duration) :
  GoInt.min_int64 <= d <= GoInt.max_int64 ->
  GoInt.min_int64 <= d' <= GoInt.max_int64 ->
  let u := roundedMinutes d in
  (- 30 * 10 ^ 9 < d ->
   GoTime.Round d GoTime.Minute = u * GoTime.Minute /\
   0 <= u /\
   (u < 60 -> formatDuration d = (GoFmt.fmt_d u ++ "m")%string) /\
   (60 <= u ->
    formatDuration d =
      (GoFmt.fmt_d (u / 60) ++ "h" ++ GoFmt.fmt_d (u mod 60) ++ "m")%string) /\
   minutesShown (formatDuration d) = Some u /\
   (d <= d' ->
    exists v v',
      minutesShown (formatDuration d) = Some v /\
      minutesShown (formatDuration d') = Some v' /\ v <= v')) /\
  (d <= - 30 * 10 ^ 9 ->
   GoTime.Round d GoTime.Minute <= - GoTime.Minute /\
   exists w : Z,
     153722867 <= w <= 307445733 /\
     formatDuration d =
       (GoFmt.fmt_d (w / 60) ++ "h" ++ GoFmt.fmt_d (w mod 60) ++ "m")%string /\
     minutesShown (formatDuration d) = Some w) /\
  formatDuration (- 29 * 10 ^ 9) = "0m" /\
  formatDuration (59 * GoTime.Minute + 29 * 10 ^ 9) = "59m" /\
  formatDuration (59 * GoTime.Minute + 30 * 10 ^ 9) = "1h0m" /\
  formatDuration (61 * GoTime.Minute) = "1h1m" /\
  formatDuration (25 * GoTime.Hour) = "25h0m" /\
  formatDuration (89 * GoTime.Minute + 30 * 10 ^ 9) = "1h30m".
Proof.
  intros Hd Hd' u. change (- 30 * 10 ^ 9) with (- 30000000000).
  split.
  { intros Hlo.
    destruct (Round_minute_from d (conj Hlo (proj2 Hd))) as (HR & Hu & Hr).
    fold u in HR, Hu, Hr.
    split; [exact HR |]. split; [exact Hu |].
    split.
    { intros Hlt. rewrite Hr. unfold renderMinutes.
      destruct (Z.ltb_spec u 60); [reflexivity | lia]. }
    split.
    { intros Hge. rewrite Hr. unfold renderMinutes.
      destruct (Z.ltb_spec u 60); [lia | reflexivity]. }
    split; [rewrite Hr; apply minutesShown_render, Hu |].
    intros Hle.
    destruct (Round_minute_from d' ltac:(lia)) as (_ & Hu' & Hr').
    exists u, (roundedMinutes d'). rewrite Hr, Hr'.
    split; [apply minutesShown_render, Hu |].
    split; [apply minutesShown_render, Hu' |].
    apply roundedMinutes_mono, Hle. }
  split.
  { intros Hhi. apply formatDuration_wrapped. lia. }
  vm_compute. repeat split; reflexivity.
Qed.

(** ** Field updates *)

Section UpdateFrame.

Variable parse : string -> option float32.

(** C8. [Update] stamps the snapshot with the current time on every
    call; a recognised key with a value that parses overwrites the one
    field it names and no other; a value that does not parse, or a key
    that is not recognised, leaves every field but the time stamp as it
    was.  No call returns an error. *)
Theorem Update_frame (now : GoTime.Time) (key value : string) (car : Car) :
  let car' := Update parse now key value car in
  let s := carState car in
  let s' := carState car' in
  at_ s' = now /\
  geofence s' = assigned key "geofence" (Some value) (geofence s) /\
  chargerPower s' =
    assigned key "charger_power" (GoStrconv.Atoi value) (chargerPower s) /\
  chargerVoltage s' =
    assigned key "charger_voltage" (GoStrconv.Atoi value) (chargerVoltage s) /\
  timeToFullCharge s' =
    assigned key "time_to_full_charge" (parse value) (timeToFullCharge s) /\
  chargerActualCurrent s' =
    assigned key "charger_actual_current" (GoStrconv.Atoi value)
      (chargerActualCurrent s) /\
  chargeEnergyAdded s' =
    assigned key "charge_energy_added" (parse value) (chargeEnergyAdded s) /\
  estBatteryRangeKm s' =
    assigned key "est_battery_range_km" (parse value) (estBatteryRangeKm s) /\
  ratedBatteryRangeKm s' =
    assigned key "rated_battery_range_km" (parse value)
      (ratedBatteryRangeKm s) /\
  idealBatteryRangeKm s' =
    assigned key "ideal_battery_range_km" (parse value)
      (idealBatteryRangeKm s) /\
  batteryLevel s' =
    assigned key "battery_level" (GoStrconv.Atoi value) (batteryLevel s) /\
  shiftState s' = assigned key "shift_state" (Some value) (shiftState s) /\
  odometer s' = assigned key "odometer" (parse value) (odometer s) /\
  outsideTemp s' = assigned key "outside_temp" (parse value) (outsideTemp s) /\
  insideTemp s' = assigned key "inside_temp" (parse value) (insideTemp s) /\
  pluggedIn s' =
    assigned key "plugged_in" (Some (String.eqb value "true")) (pluggedIn s) /\
  latitude s' = assigned key "latitude" (parse value) (latitude s) /\
  longitude s' = assigned key "longitude" (parse value) (longitude s) /\
  displayName car' =
    assigned key "display_name" (Some value) (displayName car) /\
  state car' = assigned key "state" (Some value) (state car) /\
  charging car' = charging car /\
  chargeStart car' = chargeStart car /\
  chargePeak car' = chargePeak car /\
  driving car' = driving car /\
  driveStart car' = driveStart car.
Proof.
  unfold Update, assigned. cbn zeta.
  case_keys key;
    unfold update_int, update_float;
    cbn [String.eqb Ascii.eqb Bool.eqb];
    try (destruct (GoStrconv.Atoi value));
    try (destruct (parse value));
    cbn; repeat split; reflexivity.
Qed.

(** The battery level stays within the range of [int]: it is either kept
    or taken from [Atoi]. *)
Lemma Update_batteryLevel_range (now : GoTime.Time) (key value : string)
    (car : Car) :
  GoInt.in_int64 (batteryLevel (carState car)) ->
  GoInt.in_int64 (batteryLevel (carState (Update parse now key value car))).
Proof.
  intros H. unfold Update. cbn zeta.
  case_keys key; unfold update_int, update_float;
    try (destruct (GoStrconv.Atoi value) eqn:E);
    try (destruct (parse value));
    cbn; first [exact H | apply (GoStrconvFacts.Atoi_range value); exact E].
Qed.

End UpdateFrame.

(** ** Repeated updates *)

Section Idempotence.

Variable lookup : float32 -> float32 -> option LookupResult.
Variable parse : string -> option float32.

(** Applying an update a second time changes nothing but the time
    stamp. *)
Lemma Update_twice (now now' : GoTime.Time) (key value : string) (car : Car) :
  let once := Update parse now key value car in
  let twice := Update parse now' key value once in
  set_carState (set_at_ now (carState twice)) twice = once.
Proof.
  unfold Update. cbn zeta.
  destruct car as [dn st cs ch cst cpk dr dst].
  destruct cs.
  case_keys key;
    unfold update_int, update_float;
    try (destruct (GoStrconv.Atoi value));
    try (destruct (parse value));
    reflexivity.
Qed.

(** The charging chain fires nothing when a car is evaluated again
    with nothing but its time stamp changed. *)
Lemma chargingAxis_settled (car : Car) (now : GoTime.Time) :
  let car' := car_after (evaluate lookup car) in
  fired (chargingAxis lookup
           (set_carState (set_at_ now (carState car')) car')) = [].
Proof.
  cbn zeta. rewrite chargingAxis_fired.
  destruct (evaluate_charging_fields lookup car) as (Hs & Hc & _ & Hp).
  destruct (chargingAxis_session lookup car) as (Hs' & Hc' & _ & Hp').
  unfold endDetected, peakExceeded, startDetected. cbn.
  rewrite Hc, Hp, Hs, Hc', Hp', Hs'.
  unfold endDetected, peakExceeded, startDetected.
  destruct (charging car);
    destruct (Z.eqb_spec (chargerPower (carState car)) 0);
    destruct (Z.ltb_spec (chargerPower (chargePeak car)) (chargerPower (carState car)));
    destruct (Z.ltb_spec 0 (chargerPower (carState car)));
    cbn; rewrite ?Z.ltb_irrefl; cbn;
    repeat match goal with
           | |- context [Z.eqb ?a ?b] => destruct (Z.eqb_spec a b)
           | |- context [Z.ltb ?a ?b] => destruct (Z.ltb_spec a b)
           end; cbn; try reflexivity; lia.
Qed.

(** So does the driving chain, when the first evaluation reached it. *)
Lemma drivingAxis_settled (car : Car) (now : GoTime.Time) :
  let car' := car_after (drivingAxis lookup car) in
  fired (drivingAxis lookup
           (set_carState (set_at_ now (carState car')) car')) = [].
Proof.
  cbn zeta. unfold drivingAxis.
  destruct (driveShiftState (shiftState (carState car))) eqn:Es;
    destruct (driving car) eqn:Ed; cbn;
    repeat match goal with
           | |- context [if String.eqb ?a ?b then _ else _] =>
               destruct (String.eqb a b)
           end; cbn; rewrite ?Es, ?Ed; cbn; reflexivity.
Qed.

(** An evaluation that runs both chains leaves nothing to fire for a
    second evaluation of the same snapshot. *)
Lemma evaluate_settled (car : Car) (now : GoTime.Time) :
  left_select (chargingAxis lookup car) = false ->
  let car' := car_after (evaluate lookup car) in
  fired (evaluate lookup (set_carState (set_at_ now (carState car')) car')) = [].
Proof.
  intros Hb. cbn zeta.
  pose proof (chargingAxis_settled car now) as Hc. cbn zeta in Hc.
  set (car' := car_after (evaluate lookup car)) in *.
  set (again := set_carState (set_at_ now (carState car')) car') in *.
  assert (Hsame : car_after (chargingAxis lookup again) = again
                  /\ left_select (chargingAxis lookup again) = false).
  { revert Hc. unfold chargingAxis.
    case_ifs; cbn; intros H; try discriminate; auto. }
  destruct Hsame as [Hsame Hleft].
  unfold evaluate at 1. cbn zeta. rewrite Hleft. cbn.
  rewrite Hc, Hsame. cbn.
  subst again car'. unfold evaluate. cbn zeta. rewrite Hb. cbn.
  apply drivingAxis_settled.
Qed.

End Idempotence.

(** C9 at the failing run.  Car 1 ends a charging session whose message is
    suppressed while its shift state has become [D]; the [break] leaves the
    [select] before the driving chain.  The same update applied again
    leaves the snapshot unchanged but for its time stamp, and the next
    evaluation fires the start of a drive. *)
Theorem repeated_update_fires_transition :
  exists car0 car1 car2,
    Scenario.car1_after
      (Scenario.before_first_application ++ [Scenario.first_application])
      = Some car0 /\
    fired (evaluate Tests.lookup car0) = [FinishedCharging] /\
    left_select (chargingAxis Tests.lookup car0) = true /\
    Scenario.car1_after
      (Scenario.before_first_application ++
       [Scenario.first_application; TimerFired 1]) = Some car1 /\
    Scenario.car1_after
      (Scenario.before_first_application ++
       [Scenario.first_application; TimerFired 1;
        Scenario.second_application]) = Some car2 /\
    sameButTime (carState car1) (carState car2) /\
    fired (evaluate Tests.lookup car2) = [StartedDriving].
Proof.
  eexists. eexists. eexists.
  split; [vm_compute; reflexivity |].
  split; [vm_compute; reflexivity |].
  split; [vm_compute; reflexivity |].
  split; [vm_compute; reflexivity |].
  split; [vm_compute; reflexivity |].
  split; vm_compute; reflexivity.
Qed.

(** ** Energy figure and average power of the charging message *)

Section ChargingFigures.

Variable lookup : float32 -> float32 -> option LookupResult.

Lemma finishChargingMessage_shape (start end_ peak : CarState) :
  finishChargingMessage lookup start end_ peak <> "" ->
  finishChargingMessage lookup start end_ peak =
    (charging_message_head lookup start end_ ++
     GoFmt.fmt_f 1 (chargeEnergyAdded end_) ++ "kWh" ++ nl ++
     "Average Power: " ++
     GoFmt.fmt_f 2
       (div64
          (float64_of_float32
             (sub32 (chargeEnergyAdded end_) (chargeEnergyAdded start)))
          (GoTime.Hours (GoTime.Sub (at_ end_) (at_ start)))) ++
     charging_message_tail peak)%string.
Proof.
  unfold finishChargingMessage, charging_message_head,
    charging_message_figures, charging_message_tail, chargingAveragePower.
  destruct (_ =? 0); [congruence |].
  intros _. cbn zeta.
  rewrite !string_append_assoc. reflexivity.
Qed.



End ChargingFigures.

Section ChargingEnergy.

Variable lookup : float32 -> float32 -> option LookupResult.


End ChargingEnergy.


(** ** More on place names *)

Section TruncateMore.

Lemma prefix_append (s : string) : forall n : nat,
  exists rest, s = (prefix n s ++ rest)%string /\
               (rest = "" \/ (n <= String.length s)%nat).
Proof.
  unfold prefix.
  induction s as [| c s IH]; intros [| n].
  - exists "". split; [reflexivity | left; reflexivity].
  - exists "". split; [reflexivity | left; reflexivity].
  - exists (String c s). split; [reflexivity | right; cbn; lia].
  - destruct (IH n) as (rest & Hs & Hr). exists rest. cbn [substring].
    rewrite string_append_cons, <- Hs. split; [reflexivity |].
    destruct Hr as [Hr | Hr]; [left; exact Hr | right; cbn; lia].
Qed.

(** Either the separator does not occur, or [LastIndex] is the place of
    its last occurrence. *)
Lemma LastIndex_cases (sep : ascii) (s : string) :
  ((forall j : nat, String.get j s <> Some sep) /\ LastIndex s sep = -1) \/
  (exists l : nat,
      String.get l s = Some sep /\
      (forall j : nat, (l < j)%nat -> String.get j s <> Some sep) /\
      LastIndex s sep = Z.of_nat l).
Proof.
  assert (H : (forall j : nat, String.get j s <> Some sep) \/
              (exists l : nat,
                  String.get l s = Some sep /\
                  (forall j : nat, (l < j)%nat -> String.get j s <> Some sep))).
  { induction s as [| c s IH].
    - left. intros j. destruct j; discriminate.
    - destruct IH as [Hno | (l & Hl & Hafter)].
      + destruct (Ascii.eqb_spec c sep) as [-> | Hne].
        * right. exists 0%nat. split; [reflexivity |].
          intros [| j] Hj; [lia | apply Hno].
        * left. intros [| j]; cbn; [congruence | apply Hno].
      + right. exists (S l). split; [exact Hl |].
        intros [| j] Hj; [lia |]. apply Hafter. lia. }
  destruct H as [Hno | (l & Hl & Hafter)].
  - left. split; [exact Hno |]. apply LastIndex_from_absent, Hno.
  - right. exists l. split; [exact Hl |]. split; [exact Hafter |].
    unfold LastIndex. rewrite (LastIndex_from_present _ _ 0 (-1) l Hl Hafter). lia.
Qed.

(** [truncate] by cases, with the place of the cut. *)
Lemma truncate_cases (s : string) (limit : nat) :
  ((String.length s < limit)%nat /\ truncate s limit = s) \/
  ((limit <= String.length s)%nat /\
   (forall j : nat, (j < limit)%nat -> String.get j s <> Some ","%char) /\
   truncate s limit = prefix limit s) \/
  ((limit <= String.length s)%nat /\
   exists l : nat,
     (l < limit)%nat /\ String.get l s = Some ","%char /\
     (forall j : nat, (l < j < limit)%nat -> String.get j s <> Some ","%char) /\
     truncate s limit = prefix l s).
Proof.
  destruct (Nat.lt_ge_cases (String.length s) limit) as [Hlt | Hge].
  - left. split; [exact Hlt | apply truncate_short, Hlt].
  - right.
    destruct (LastIndex_cases ","%char (prefix limit s))
      as [[Hno _] | (l & Hl & Hafter & _)].
    + left. split; [exact Hge |].
      assert (Hno' : forall j, (j < limit)%nat -> String.get j s <> Some ","%char).
      { intros j Hj. rewrite <- (prefix_get s limit j Hj). apply Hno. }
      split; [exact Hno' | apply truncate_hard; assumption].
    + right. split; [exact Hge |].
      assert (Hlim : (l < limit)%nat).
      { destruct (Nat.lt_ge_cases l limit) as [H | H]; [exact H |].
        unfold prefix in Hl. rewrite substring_correct2 in Hl by exact H.
        discriminate. }
      exists l. split; [exact Hlim |].
      rewrite prefix_get in Hl by exact Hlim.
      assert (Hafter' : forall j, (l < j < limit)%nat ->
                                  String.get j s <> Some ","%char).
      { intros j [Hj1 Hj2]. rewrite <- (prefix_get s limit j Hj2).
        apply Hafter, Hj1. }
      split; [exact Hl |]. split; [exact Hafter' |].
      apply truncate_at_comma; assumption.
Qed.

(** X1. [truncate] returns an initial part of its argument: the argument
    is the result followed by what was cut off, and nothing is cut off a
    string shorter than the limit. *)
Theorem truncate_is_prefix (s : string) (limit : nat) :
  exists rest : string,
    s = (truncate s limit ++ rest)%string /\
    (String.length (truncate s limit) <= limit)%nat /\
    ((String.length s < limit)%nat -> rest = "").
Proof.
  destruct (truncate_cases s limit)
    as [[Hlt ->] | [(Hge & _ & ->) | (Hge & l & Hl & _ & _ & ->)]].
  - exists "". split; [| split; [lia | reflexivity]].
    clear. induction s as [| c s IH]; [reflexivity |].
    rewrite string_append_cons, <- IH. reflexivity.
  - destruct (prefix_append s limit) as (rest & Hs & _).
    exists rest. split; [exact Hs |]. rewrite prefix_length.
    split; [lia | intros H; lia].
  - destruct (prefix_append s l) as (rest & Hs & _).
    exists rest. split; [exact Hs |]. rewrite prefix_length.
    split; [lia | intros H; lia].
Qed.

Lemma prefix_prefix (s : string) : forall n m : nat,
  (n <= m)%nat -> prefix n (prefix m s) = prefix n s.
Proof.
  unfold prefix.
  induction s as [| c s IH]; intros [| n] [| m] H; cbn; try reflexivity; try lia.
  f_equal. apply IH. lia.
Qed.

(** X2. Truncating twice is truncating once. *)
Theorem truncate_idempotent (s : string) (limit : nat) :
  truncate (truncate s limit) limit = truncate s limit.
Proof.
  destruct (truncate_cases s limit)
    as [[Hlt E] | [(Hge & Hno & E) | (Hge & l & Hl & _ & _ & E)]]; rewrite E.
  - exact E.
  - rewrite truncate_hard.
    + apply prefix_prefix. lia.
    + rewrite prefix_length. lia.
    + intros j Hj. rewrite prefix_get by exact Hj. apply Hno, Hj.
  - apply truncate_short. rewrite prefix_length. lia.
Qed.

End TruncateMore.

Section PlaceNameMore.

Variable lookup : float32 -> float32 -> option LookupResult.

Lemma prefix_zero (s : string) : prefix 0 s = "".
Proof. destruct s; reflexivity. Qed.

(** X3. The place name is empty in one case only: the snapshot has no
    geofence label and the name found by the lookup is at least 20 bytes
    long and has a comma as its first byte and no other comma among its
    first 20 bytes.  The name is then cut at that comma and returned
    without the check that guards the placeholder ["?"]. *)
Theorem placeName_empty_iff (s : CarState) :
  placeName lookup s = "" <->
  geofence s = "" /\
  exists result : LookupResult,
    lookup (latitude s) (longitude s) = Some result /\
    let name :=
      if String.eqb (Name result) "" then DisplayName result
      else Name result in
    (20 <= String.length name)%nat /\
    String.get 0 name = Some ","%char /\
    (forall j : nat, (0 < j < 20)%nat -> String.get j name <> Some ","%char).
Proof.
  unfold placeName. split.
  - destruct (String.eqb_spec (geofence s) "") as [Eg | Eg]; cbn [negb].
    2: { intros H. contradiction. }
    destruct (lookup (latitude s) (longitude s)) as [result |];
      [| discriminate].
    cbn zeta.
    set (name := if String.eqb (Name result) "" then DisplayName result
                 else Name result).
    destruct (String.eqb_spec name "") as [En | En]; cbn [negb];
      [discriminate |].
    intros H. split; [exact Eg |]. exists result. split; [reflexivity |].
    destruct (truncate_cases name 20)
      as [[Hlt E] | [(Hge & Hno & E) | (Hge & l & Hl & Hget & Hafter & E)]];
      rewrite E in H.
    + contradiction.
    + apply (f_equal String.length) in H. rewrite prefix_length in H.
      cbn [String.length] in H. lia.
    + apply (f_equal String.length) in H. rewrite prefix_length in H.
      cbn [String.length] in H.
      assert (l = 0%nat) by lia. subst l.
      split; [exact Hge |]. split; [exact Hget | exact Hafter].
  - intros (Eg & result & El & H). rewrite Eg, El. cbn [String.eqb negb].
    cbn zeta in *.
    set (name := if String.eqb (Name result) "" then DisplayName result
                 else Name result) in *.
    destruct H as (Hge & Hget & Hafter).
    destruct (String.eqb_spec name "") as [En | En]; cbn [negb].
    + rewrite En in Hge. cbn in Hge. lia.
    + rewrite (truncate_at_comma name 20 0);
        [apply prefix_zero | exact Hge | lia | exact Hget | exact Hafter].
Qed.

End PlaceNameMore.

(** ** More on field updates *)

Section UpdateMore.

Variable parse : string -> option float32.

(** The car after an update, field by field. *)
Lemma Update_fields (t : GoTime.Time) (key value : string) (car : Car) :
  Update parse t key value car =
  {| displayName := assigned key "display_name" (Some value) (displayName car);
     state := assigned key "state" (Some value) (state car);
     carState :=
       let s := carState car in
       {| at_ := t;
          geofence := assigned key "geofence" (Some value) (geofence s);
          chargerPower :=
            assigned key "charger_power" (GoStrconv.Atoi value) (chargerPower s);
          chargerVoltage :=
            assigned key "charger_voltage" (GoStrconv.Atoi value)
              (chargerVoltage s);
          timeToFullCharge :=
            assigned key "time_to_full_charge" (parse value)
              (timeToFullCharge s);
          chargerActualCurrent :=
            assigned key "charger_actual_current" (GoStrconv.Atoi value)
              (chargerActualCurrent s);
          chargeEnergyAdded :=
            assigned key "charge_energy_added" (parse value)
              (chargeEnergyAdded s);
          estBatteryRangeKm :=
            assigned key "est_battery_range_km" (parse value)
              (estBatteryRangeKm s);
          ratedBatteryRangeKm :=
            assigned key "rated_battery_range_km" (parse value)
              (ratedBatteryRangeKm s);
          idealBatteryRangeKm :=
            assigned key "ideal_battery_range_km" (parse value)
              (idealBatteryRangeKm s);
          batteryLevel :=
            assigned key "battery_level" (GoStrconv.Atoi value) (batteryLevel s);
          shiftState := assigned key "shift_state" (Some value) (shiftState s);
          odometer := assigned key "odometer" (parse value) (odometer s);
          outsideTemp := assigned key "outside_temp" (parse value) (outsideTemp s);
          insideTemp := assigned key "inside_temp" (parse value) (insideTemp s);
          pluggedIn :=
            assigned key "plugged_in" (Some (String.eqb value "true"))
              (pluggedIn s);
          latitude := assigned key "latitude" (parse value) (latitude s);
          longitude := assigned key "longitude" (parse value) (longitude s) |};
     charging := charging car;
     chargeStart := chargeStart car;
     chargePeak := chargePeak car;
     driving := driving car;
     driveStart := driveStart car |}.
Proof.
  unfold Update, assigned. cbn zeta.
  destruct car as [dn st cs ch cst cpk dr dst]. destruct cs.
  case_keys key; unfold update_int, update_float;
    cbn [String.eqb Ascii.eqb Bool.eqb];
    try (destruct (GoStrconv.Atoi value));
    try (destruct (parse value));
    reflexivity.
Qed.

Lemma assigned_comm {A : Type} (key1 key2 name : string)
    (p1 p2 : option A) (x : A) :
  key1 <> key2 ->
  assigned key1 name p1 (assigned key2 name p2 x) =
  assigned key2 name p2 (assigned key1 name p1 x).
Proof.
  intros Hne. unfold assigned.
  destruct (String.eqb_spec key1 name), (String.eqb_spec key2 name);
    try reflexivity.
  congruence.
Qed.

(** X4. Updates with different keys can arrive in either order: the car
    ends up the same, stamped with the time of the later arrival. *)
Theorem Update_order_irrelevant (t t' : GoTime.Time)
    (key1 value1 key2 value2 : string) (car : Car) :
  key1 <> key2 ->
  Update parse t key1 value1 (Update parse t' key2 value2 car) =
  Update parse t key2 value2 (Update parse t' key1 value1 car).
Proof.
  intros Hne.
  rewrite (Update_fields t key1), (Update_fields t key2).
  rewrite (Update_fields t' key1), (Update_fields t' key2).
  cbn [displayName state carState charging chargeStart chargePeak driving
       driveStart at_ geofence chargerPower chargerVoltage timeToFullCharge
       chargerActualCurrent chargeEnergyAdded estBatteryRangeKm
       ratedBatteryRangeKm idealBatteryRangeKm batteryLevel shiftState
       odometer outsideTemp insideTemp pluggedIn latitude longitude].
  f_equal; [apply assigned_comm, Hne .. |].
  f_equal; apply assigned_comm, Hne.
Qed.

Lemma assigned_overwrite {A : Type} (key name : string) (p1 p2 : option A)
    (x : A) :
  (String.eqb key name = true -> is_some p2 = true) ->
  assigned key name p2 (assigned key name p1 x) = assigned key name p2 x.
Proof.
  unfold assigned. destruct (String.eqb key name); [| reflexivity].
  intros H. destruct p2; [reflexivity |]. specialize (H eq_refl). discriminate.
Qed.

Lemma assigned_rejected {A : Type} (key name : string) (p1 : option A)
    (x : A) :
  assigned key name None (assigned key name p1 x) = assigned key name p1 x.
Proof. unfold assigned. destruct (String.eqb key name); reflexivity. Qed.

(** X5. Of two updates with the same key the later one wins when its
    value is one that [Update] stores; a later value that does not parse
    leaves the earlier one in place.  In both cases the time stamp is that
    of the later update. *)
Theorem Update_last_write_wins (t t' : GoTime.Time)
    (key value1 value2 : string) (car : Car) :
  Update parse t key value2 (Update parse t' key value1 car) =
    if parses parse key value2 then Update parse t key value2 car
    else Update parse t key value1 car.
Proof.
  destruct (parses parse key value2) eqn:Hp.
  - rewrite !Update_fields.
    cbn [displayName state carState charging chargeStart chargePeak driving
         driveStart at_ geofence chargerPower chargerVoltage timeToFullCharge
         chargerActualCurrent chargeEnergyAdded estBatteryRangeKm
         ratedBatteryRangeKm idealBatteryRangeKm batteryLevel shiftState
         odometer outsideTemp insideTemp pluggedIn latitude longitude].
    assert (Hint : forall name, existsb (String.eqb name) intKeys = true ->
                     String.eqb key name = true ->
                     is_some (GoStrconv.Atoi value2) = true).
    { intros name Hin Hk. apply String.eqb_eq in Hk. subst name.
      unfold parses in Hp. rewrite Hin in Hp. exact Hp. }
    assert (Hfl : forall name, existsb (String.eqb name) intKeys = false ->
                    existsb (String.eqb name) floatKeys = true ->
                    String.eqb key name = true ->
                    is_some (parse value2) = true).
    { intros name Hin Hin' Hk. apply String.eqb_eq in Hk. subst name.
      unfold parses in Hp. rewrite Hin, Hin' in Hp. exact Hp. }
    f_equal;
      [ apply assigned_overwrite; reflexivity
      | apply assigned_overwrite; reflexivity |].
    f_equal;
      first [ apply assigned_overwrite; reflexivity
            | apply assigned_overwrite, Hint; reflexivity
            | apply assigned_overwrite, Hfl; reflexivity ].
  - assert (Hnone :
             (GoStrconv.Atoi value2 = None /\
              existsb (String.eqb key) intKeys = true) \/
             (parse value2 = None /\
              existsb (String.eqb key) intKeys = false /\
              existsb (String.eqb key) floatKeys = true)).
    { unfold parses in Hp.
      destruct (existsb (String.eqb key) intKeys).
      - left. destruct (GoStrconv.Atoi value2); [discriminate | auto].
      - destruct (existsb (String.eqb key) floatKeys); [| discriminate].
        right. destruct (parse value2); [discriminate | auto]. }
    rewrite (Update_fields t key value2), (Update_fields t key value1),
      (Update_fields t' key value1).
    cbn [displayName state carState charging chargeStart chargePeak driving
         driveStart at_ geofence chargerPower chargerVoltage timeToFullCharge
         chargerActualCurrent chargeEnergyAdded estBatteryRangeKm
         ratedBatteryRangeKm idealBatteryRangeKm batteryLevel shiftState
         odometer outsideTemp insideTemp pluggedIn latitude longitude].
    assert (Hother : forall {A} name (p p1 : option A) (x : A),
               String.eqb key name = false ->
               assigned key name p (assigned key name p1 x)
               = assigned key name p1 x).
    { intros A name p p1 x Hk. unfold assigned. rewrite Hk. reflexivity. }
    assert (Hkey : forall name,
               existsb (String.eqb name) intKeys = false ->
               existsb (String.eqb name) floatKeys = false ->
               String.eqb key name = false).
    { intros name H1 H2. destruct (String.eqb_spec key name) as [-> |]; [| reflexivity].
      destruct Hnone as [[_ H] | (_ & _ & H)]; congruence. }
    assert (Hkeyi : forall name,
               existsb (String.eqb name) intKeys = true ->
               GoStrconv.Atoi value2 = None \/ String.eqb key name = false).
    { intros name H1. destruct Hnone as [[H _] | (_ & H & _)]; [left; exact H |].
      right. destruct (String.eqb_spec key name) as [-> |]; [congruence | reflexivity]. }
    assert (Hkeyf : forall name,
               existsb (String.eqb name) intKeys = false ->
               existsb (String.eqb name) floatKeys = true ->
               parse value2 = None \/ String.eqb key name = false).
    { intros name H1 H2. destruct Hnone as [[_ H] | (H & _ & _)]; [| left; exact H].
      right. destruct (String.eqb_spec key name) as [-> |]; [congruence | reflexivity]. }
    f_equal; [apply Hother, Hkey; reflexivity .. |].
    f_equal;
      match goal with
      | |- assigned key ?name _ (assigned key ?name _ _) = _ =>
          first [ apply Hother, Hkey; reflexivity
                | destruct (Hkeyi name eq_refl) as [E | Hk];
                  [rewrite E; apply assigned_rejected | apply Hother, Hk]
                | destruct (Hkeyf name eq_refl eq_refl) as [E | Hk];
                  [rewrite E; apply assigned_rejected | apply Hother, Hk] ]
      end.
Qed.

End UpdateMore.

(** ** More on the main loop *)

Section LoopMore.

Variable lookup : float32 -> float32 -> option LookupResult.
Variable parse : string -> option float32.

Lemma Update_session_fields (t : GoTime.Time) (key value : string) (car : Car) :
  let car' := Update parse t key value car in
  charging car' = charging car /\ chargeStart car' = chargeStart car /\
  chargePeak car' = chargePeak car /\ driving car' = driving car /\
  driveStart car' = driveStart car.
Proof. cbn zeta. rewrite Update_fields. cbn. auto. Qed.

Lemma Update_consistent (t : GoTime.Time) (key value : string) (car : Car) :
  sessionsConsistent car ->
  sessionsConsistent (Update parse t key value car).
Proof.
  unfold sessionsConsistent.
  destruct (Update_session_fields t key value car) as (-> & -> & -> & -> & ->).
  auto.
Qed.

Lemma chargingAxis_consistent (car : Car) :
  sessionsConsistent car ->
  sessionsConsistent (car_after (chargingAxis lookup car)).
Proof.
  intros [Hc Hd]. unfold sessionsConsistent, chargingAxis.
  destruct (charging car) eqn:Ec; cbn [andb negb];
    [specialize (Hc eq_refl) |];
    repeat match goal with
           | |- context [Z.eqb ?a ?b] => destruct (Z.eqb_spec a b)
           | |- context [Z.ltb ?a ?b] => destruct (Z.ltb_spec a b)
           end;
    case_ifs; cbn; rewrite ?Ec;
    (split; [intros Hx; try discriminate Hx; try lia | exact Hd]).
Qed.

Lemma drivingAxis_consistent (car : Car) :
  sessionsConsistent car ->
  sessionsConsistent (car_after (drivingAxis lookup car)).
Proof.
  intros [Hc Hd]. unfold sessionsConsistent, drivingAxis.
  destruct (driveShiftState (shiftState (carState car))) eqn:Es;
    destruct (driving car) eqn:Ed; cbn [andb negb];
    case_ifs; cbn; rewrite ?Ed;
    (split; [exact Hc | intros Hx; try discriminate Hx; auto]).
Qed.

Lemma evaluate_consistent (car : Car) :
  sessionsConsistent car ->
  sessionsConsistent (car_after (evaluate lookup car)).
Proof.
  intros H. unfold evaluate. cbn zeta.
  destruct (left_select (chargingAxis lookup car)); cbn.
  - apply chargingAxis_consistent, H.
  - apply drivingAxis_consistent, chargingAxis_consistent, H.
Qed.

Lemma newCar_consistent : sessionsConsistent newCar.
Proof. split; discriminate. Qed.

Lemma step_consistent (w w' : World) (ev : Event) :
  (forall id car, cars w !! id = Some car -> sessionsConsistent car) ->
  step lookup parse w ev = Some w' ->
  forall id car, cars w' !! id = Some car -> sessionsConsistent car.
Proof.
  intros Hw Hstep id car.
  destruct ev as [[[carId key] |] payload now | carId | command chatID];
    cbn in Hstep.
  - injection Hstep as <-.
    destruct (cars w !! carId) as [c |] eqn:E; cbn.
    + destruct (decide (carId = id)) as [-> | Hne].
      * rewrite lookup_insert_eq. intros [= <-].
        apply Update_consistent, (Hw id c E).
      * rewrite lookup_insert_ne by exact Hne. apply Hw.
    + destruct (decide (carId = id)) as [-> | Hne].
      * rewrite lookup_insert_eq. intros [= <-].
        apply Update_consistent, newCar_consistent.
      * rewrite !lookup_insert_ne by exact Hne. apply Hw.
  - injection Hstep as <-. apply Hw.
  - destruct (cars w !! carId) as [c |] eqn:E; injection Hstep as <-;
      [| apply Hw].
    cbn. destruct (decide (carId = id)) as [-> | Hne].
    + rewrite lookup_insert_eq. intros [= <-].
      apply evaluate_consistent, (Hw id c E).
    + rewrite lookup_insert_ne by exact Hne. apply Hw.
  - destruct (botReply command chatID w); [| discriminate].
    injection Hstep as <-. apply Hw.
Qed.

(** X6. Throughout any run of the process, a car that is flagged as
    charging has a session that started at positive power and a peak not
    below the start, and a car that is flagged as driving has a drive that
    started in shift state [D] or [R]. *)
Theorem sessions_consistent (evs : list Event) (w : World) (id : Z) (car : Car) :
  run lookup parse initialWorld evs = Some w ->
  cars w !! id = Some car ->
  sessionsConsistent car.
Proof.
  assert (H : forall evs w0 w,
             (forall id car, cars w0 !! id = Some car -> sessionsConsistent car) ->
             run lookup parse w0 evs = Some w ->
             forall id car, cars w !! id = Some car -> sessionsConsistent car).
  { clear. induction evs as [| ev evs IH]; intros w0 w Hw0 Hrun; cbn in Hrun.
    - injection Hrun as <-. exact Hw0.
    - destruct (step lookup parse w0 ev) as [w1 |] eqn:E; [| discriminate].
      apply (IH w1 w); [| exact Hrun].
      apply (step_consistent w0 w1 ev Hw0 E). }
  intros Hrun. apply (H evs initialWorld w); [| exact Hrun].
  intros id0 car0. cbn. rewrite lookup_empty. discriminate.
Qed.

(** X7. After an evaluation the charging flag says whether the charger
    power is positive, whatever the flag was before; a negative power
    leaves the flag as it was.  Whenever the evaluation reaches the driving
    chain, the driving flag says whether the shift state is [D] or [R]. *)
Theorem evaluate_flags (car : Car) :
  let p := chargerPower (carState car) in
  let car' := car_after (evaluate lookup car) in
  (0 <= p -> charging car' = (0 <? p)) /\
  (p < 0 -> charging car' = charging car) /\
  (left_select (chargingAxis lookup car) = false ->
   driving car' = driveShiftState (shiftState (carState car))).
Proof.
  cbn zeta.
  destruct (evaluate_charging_fields lookup car) as (_ & Hc & _ & _).
  destruct (chargingAxis_session lookup car) as (Hs & Hc' & _ & _).
  rewrite Hc, Hc'. unfold endDetected, peakExceeded, startDetected.
  split; [| split].
  - intros Hp.
    destruct (charging car); cbn;
      destruct (Z.eqb_spec (chargerPower (carState car)) 0);
      destruct (Z.ltb_spec 0 (chargerPower (carState car)));
      destruct (Z.ltb_spec (chargerPower (chargePeak car)) (chargerPower (carState car)));
      cbn; try reflexivity; lia.
  - intros Hp.
    destruct (charging car); cbn;
      destruct (Z.eqb_spec (chargerPower (carState car)) 0);
      destruct (Z.ltb_spec 0 (chargerPower (carState car)));
      destruct (Z.ltb_spec (chargerPower (chargePeak car)) (chargerPower (carState car)));
      cbn; try reflexivity; lia.
  - intros Hb. unfold evaluate. cbn zeta. rewrite Hb. cbn.
    rewrite <- Hs.
    set (c := car_after (chargingAxis lookup car)).
    unfold drivingAxis.
    destruct (driveShiftState (shiftState (carState c))) eqn:Es;
      destruct (driving c) eqn:Ed; cbn [andb negb];
      case_ifs; cbn; congruence.
Qed.

End LoopMore.

Section Outbox.

Variable lookup : float32 -> float32 -> option LookupResult.
Variable parse : string -> option float32.

Lemma battery_glyph_nonempty : Glyph.battery <> "".
Proof. vm_compute. discriminate. Qed.

Lemma statusMessage_nonempty (car : Car) : statusMessage car <> "".
Proof. unfold statusMessage. apply append_nonempty, battery_glyph_nonempty. Qed.

Lemma chargingAxis_sent_nonempty (car : Car) :
  Forall (fun text => text <> "") (sent (chargingAxis lookup car)).
Proof.
  unfold chargingAxis.
  destruct (charging car && (chargerPower (carState car) =? 0)).
  - cbn zeta.
    destruct (String.eqb_spec
                (finishChargingMessage lookup
                   (chargeStart (set_charging false car))
                   (carState (set_charging false car))
                   (chargePeak (set_charging false car))) "");
      cbn; repeat constructor. assumption.
  - case_ifs; cbn; constructor.
Qed.

Lemma drivingAxis_sent_nonempty (car : Car) :
  Forall (fun text => text <> "") (sent (drivingAxis lookup car)).
Proof.
  unfold drivingAxis.
  destruct (driveShiftState (shiftState (carState car)) && negb (driving car));
    [cbn; constructor |].
  destruct (negb (driveShiftState (shiftState (carState car))) && driving car);
    [| cbn; constructor].
  cbn zeta.
  destruct (String.eqb_spec
              (finishDriveMessage lookup
                 (driveStart (set_driving false car))
                 (carState (set_driving false car))) "");
    cbn; repeat constructor. assumption.
Qed.

Lemma evaluate_sent_nonempty (car : Car) :
  Forall (fun text => text <> "") (sent (evaluate lookup car)).
Proof.
  unfold evaluate. cbn zeta.
  destruct (left_select (chargingAxis lookup car)); cbn.
  - apply chargingAxis_sent_nonempty.
  - apply Forall_app. split.
    + apply chargingAxis_sent_nonempty.
    + apply drivingAxis_sent_nonempty.
Qed.

Lemma botReply_nonempty (command : string) (chatID : Z) (w : World)
    (text : string) :
  botReply command chatID w = Some text -> text <> "".
Proof.
  unfold botReply. destruct (String.eqb command "status").
  - destruct (cars w !! defaultCar w); [| discriminate].
    intros [= <-]. apply statusMessage_nonempty.
  - intros [= <-]. discriminate.
Qed.

Lemma step_outbox (w w' : World) (ev : Event) :
  step lookup parse w ev = Some w' ->
  exists more,
    outbox w' = (outbox w ++ more)%list /\ Forall (fun text => text <> "") more /\
    (forall id, is_Some (cars w !! id) -> is_Some (cars w' !! id)).
Proof.
  destruct ev as [[[carId key] |] payload now | carId | command chatID];
    cbn; intros Hstep.
  - injection Hstep as <-. exists []. rewrite app_nil_r.
    destruct (cars w !! carId) as [c |] eqn:E; cbn;
      (split; [reflexivity | split; [constructor |]]);
      intros id H; destruct (decide (carId = id)) as [-> | Hne];
      rewrite ?lookup_insert_eq, ?lookup_insert_ne by exact Hne; eauto.
  - injection Hstep as <-. exists []. rewrite app_nil_r.
    split; [reflexivity | split; [constructor | auto]].
  - destruct (cars w !! carId) as [c |] eqn:E; injection Hstep as <-.
    + exists (sent (evaluate lookup c)). cbn.
      split; [reflexivity | split; [apply evaluate_sent_nonempty |]].
      intros id H; destruct (decide (carId = id)) as [-> | Hne];
        rewrite ?lookup_insert_eq, ?lookup_insert_ne by exact Hne; eauto.
    + exists []. rewrite app_nil_r.
      split; [reflexivity | split; [constructor | auto]].
  - destruct (botReply command chatID w) as [text |] eqn:E; [| discriminate].
    injection Hstep as <-. exists [text]. cbn.
    split; [reflexivity | split; [| auto]].
    repeat constructor. apply (botReply_nonempty _ _ _ _ E).
Qed.

(** X8. A run of the process only adds to what it has: the messages sent
    before are still the first messages sent, none of the added messages
    is empty, and every car known before is still known. *)
Theorem run_only_adds (evs : list Event) (w w' : World) :
  run lookup parse w evs = Some w' ->
  exists more,
    outbox w' = (outbox w ++ more)%list /\
    Forall (fun text => text <> "") more /\
    (forall id, is_Some (cars w !! id) -> is_Some (cars w' !! id)).
Proof.
  revert w. induction evs as [| ev evs IH]; intros w Hrun; cbn in Hrun.
  - injection Hrun as <-. exists []. rewrite app_nil_r.
    split; [reflexivity | split; [constructor | auto]].
  - destruct (step lookup parse w ev) as [w1 |] eqn:E; [| discriminate].
    destruct (step_outbox w w1 ev E) as (m1 & Ho1 & Hn1 & Hc1).
    destruct (IH w1 Hrun) as (m2 & Ho2 & Hn2 & Hc2).
    exists (m1 ++ m2)%list. rewrite Ho2, Ho1, app_assoc.
    split; [reflexivity |]. split; [apply Forall_app; auto | auto].
Qed.

(** X9. An event touches one car at most: after a telemetry message or
    a timer firing for one car, every other car is as it was, and a message
    whose topic does not scan, or a bot command, changes no car at all.  A
    telemetry message never sends anything. *)
Theorem step_touches_one_car (w w' : World) (ev : Event) :
  step lookup parse w ev = Some w' ->
  (forall id, eventCar ev <> Some id -> cars w' !! id = cars w !! id) /\
  (forall topic payload now,
      ev = MqttMessage topic payload now -> outbox w' = outbox w).
Proof.
  destruct ev as [[[carId key] |] payload now | carId | command chatID];
    cbn; intros Hstep.
  - injection Hstep as <-. split; [| intros; destruct (cars w !! carId); reflexivity].
    intros id Hne. assert (carId <> id) by congruence.
    destruct (cars w !! carId); cbn; rewrite ?lookup_insert_ne by assumption;
      reflexivity.
  - injection Hstep as <-. split; [reflexivity | reflexivity].
  - split; [| intros; discriminate].
    intros id Hne. assert (carId <> id) by congruence.
    destruct (cars w !! carId); injection Hstep as <-; cbn;
      rewrite ?lookup_insert_ne by assumption; reflexivity.
  - split; [| intros; discriminate].
    destruct (botReply command chatID w); [| discriminate].
    injection Hstep as <-. reflexivity.
Qed.

End Outbox.

(** ** More on the messages *)

Section MessagesMore.

Variable lookup : float32 -> float32 -> option LookupResult.

Lemma zero_distance_below_threshold (delta : float32) :
  is_zero delta = true ->
  ltb32 (div32 delta KMPerMile) (const32 1 10) = true.
Proof.
  destruct delta as [s | | |]; try discriminate. intros _.
  destruct s; reflexivity.
Qed.

(** The difference of two equal finite numbers is a zero. *)
Lemma sub32_equal_zero (x y : float32) :
  finite32 x = true -> finite32 y = true ->
  SFcompare x y = Some Eq -> is_zero (sub32 x y) = true.
Proof.
  unfold sub32.
  destruct x as [sx | sx | | sx mx ex], y as [sy | sy | | sy my ey];
    try discriminate; intros _ _; cbn [SFcompare].
  - intros _. destruct sx, sy; reflexivity.
  - destruct sy; discriminate.
  - destruct sx; discriminate.
  - intros H.
    assert (E : sx = sy /\ ex = ey /\ mx = my).
    { destruct sx, sy; try discriminate;
        destruct (Z.compare_spec ex ey) as [-> | |]; try discriminate;
        change (PosDef.Pos.compare_cont Eq mx my) with (mx ?= my)%positive in H;
        destruct (Pos.compare_spec mx my) as [-> | |]; cbn in H;
        try discriminate; auto. }
    destruct E as (-> & -> & ->).
    cbn [SFsub]. rewrite Z.min_id. unfold shl_align. rewrite Z.sub_diag.
    cbn [fst]. rewrite ?Z.sub_diag. reflexivity.
Qed.

(** Two finite numbers are always comparable, and swapping them swaps the
    outcome. *)
Lemma SFcompare_finite_swap (x y : float32) :
  finite32 x = true -> finite32 y = true ->
  exists c, SFcompare x y = Some c /\ SFcompare y x = Some (CompOpp c).
Proof.
  destruct x as [sx | sx | | sx mx ex], y as [sy | sy | | sy my ey];
    try discriminate; intros _ _; cbn [SFcompare].
  - exists Eq. auto.
  - destruct sy; eexists; split; reflexivity.
  - destruct sx; eexists; split; reflexivity.
  - change (PosDef.Pos.compare_cont Eq mx my) with (mx ?= my)%positive.
    change (PosDef.Pos.compare_cont Eq my mx) with (my ?= mx)%positive.
    rewrite (Z.compare_antisym ex ey), (Pos.compare_antisym mx my).
    destruct sx, sy; eexists; (split; [reflexivity |]);
      destruct (ex ?= ey); cbn; try reflexivity;
      destruct (mx ?= my)%positive; reflexivity.
Qed.

(** X10. A driving message is sent only for a distance that is not zero;
    between two finite odometer readings it is sent only when the end
    reading is strictly above the start reading.  So the efficiency of a
    message that is sent never divides by a zero distance. *)
Theorem drive_message_needs_distance (start end_ : CarState) :
  finishDriveMessage lookup start end_ <> "" ->
  is_zero (sub32 (odometer end_) (odometer start)) = false /\
  (valid_binary prec32 emax32 (odometer start) = true ->
   valid_binary prec32 emax32 (odometer end_) = true ->
   finite32 (odometer start) = true ->
   finite32 (odometer end_) = true ->
   SFcompare (odometer end_) (odometer start) = Some Gt).
Proof.
  intros Hsent.
  assert (Hd : ltb32 (div32 (sub32 (odometer end_) (odometer start)) KMPerMile)
                 (const32 1 10) = false).
  { destruct (ltb32 _ (const32 1 10)) eqn:E; [| reflexivity].
    exfalso. apply Hsent. apply finishDriveMessage_empty_distance. exact E. }
  split.
  - destruct (is_zero (sub32 (odometer end_) (odometer start))) eqn:Ez;
      [| reflexivity].
    rewrite (zero_distance_below_threshold _ Ez) in Hd. discriminate.
  - intros Vs Ve Fs Fe.
    destruct (SFcompare_finite_swap _ _ Fe Fs) as (c & Hc & _).
    rewrite Hc. destruct c; [| | reflexivity]; exfalso.
    + rewrite (zero_distance_below_threshold _
                 (sub32_equal_zero _ _ Fe Fs Hc)) in Hd.
      discriminate.
    + assert (Hlt : SFltb (odometer end_) (odometer start) = true)
        by (unfold SFltb; rewrite Hc; reflexivity).
      destruct (GoFloatFacts.SFsub_lt_negative _ _ Ve Vs Hlt) as [Hn Hs].
      rewrite (negative_delta_below_threshold _ Hn Hs) in Hd. discriminate.
Qed.

Lemma Hours_zero : GoTime.Hours 0 = S754_zero false.
Proof. vm_compute. reflexivity. Qed.

Lemma div64_by_zero (x : float64) (s : bool) :
  let q := div64 x (S754_zero s) in
  q = S754_nan \/ q = S754_infinity false \/ q = S754_infinity true.
Proof.
  unfold div64.
  destruct x as [sx | sx | | sx mx ex]; cbn; auto;
    destruct (xorb sx s); auto.
Qed.

(** X11. When the end snapshot carries the time of the start snapshot,
    the average power is a division by zero hours: it is never a finite
    number, and the charging message prints [NaN], [+Inf] or [-Inf] in its
    place. *)
Theorem charging_message_zero_duration (start end_ peak : CarState) :
  GoTime.unixNano (at_ end_) = GoTime.unixNano (at_ start) ->
  exists figure : string,
    In figure ["NaN"; "+Inf"; "-Inf"] /\
    GoFmt.fmt_f 2 (chargingAveragePower start end_) = figure /\
    (finishChargingMessage lookup start end_ peak <> "" ->
     finishChargingMessage lookup start end_ peak =
       (charging_message_head lookup start end_ ++
        GoFmt.fmt_f 1 (chargeEnergyAdded end_) ++ "kWh" ++ nl ++
        "Average Power: " ++ figure ++ charging_message_tail peak)%string).
Proof.
  intros Ht.
  assert (Hsub : GoTime.Sub (at_ end_) (at_ start) = 0).
  { unfold GoTime.Sub. rewrite Ht, Z.sub_diag. reflexivity. }
  assert (Hfig : In (GoFmt.fmt_f 2 (chargingAveragePower start end_))
                   ["NaN"; "+Inf"; "-Inf"]).
  { unfold chargingAveragePower. rewrite Hsub, Hours_zero.
    destruct (div64_by_zero
                (float64_of_float32
                   (sub32 (chargeEnergyAdded end_) (chargeEnergyAdded start)))
                false) as [-> | [-> | ->]]; cbn; auto. }
  eexists. split; [exact Hfig |]. split; [reflexivity |].
  apply finishChargingMessage_shape.
Qed.

End MessagesMore.

(** ** Negative durations *)

Section NegativeDurations.

(** X12. A negative duration above minus 30 seconds reads [0m].  From
    minus 30 seconds down, the rounded value goes through [uint64] and
    the duration reads as between 153722867 and 307445733 minutes, in the
    form [XhYm]. *)
Theorem formatDuration_negative_durations (d : GoTime.Duration) :
  GoInt.min_int64 <= d < 0 ->
  (- 30 * 10 ^ 9 < d -> formatDuration d = "0m") /\
  (d <= - 30 * 10 ^ 9 ->
   exists u : Z,
     153722867 <= u <= 307445733 /\
     formatDuration d =
       (GoFmt.fmt_d (u / 60) ++ "h" ++ GoFmt.fmt_d (u mod 60) ++ "m")%string /\
     minutesShown (formatDuration d) = Some u).
Proof.
  intros Hd. change (- 30 * 10 ^ 9) with (- 30000000000).
  destruct (Round_minute_negative d Hd) as [Hsmall Hbig].
  split.
  - intros H. unfold formatDuration. rewrite (Hsmall H). reflexivity.
  - intros H. specialize (Hbig H).
    unfold GoInt.min_int64 in Hbig.
    set (R := GoTime.Round d GoTime.Minute) in *.
    assert (Hu : GoInt.to_uint64 R = R + 2 ^ 64)
      by (apply to_uint64_negative; lia).
    change (- 2 ^ 63) with (-9223372036854775808) in Hbig.
    change (2 ^ 64) with 18446744073709551616 in Hu.
    exists ((R + 18446744073709551616) / 60000000000).
    assert (Hlo : 153722867 <= (R + 18446744073709551616) / 60000000000)
      by (apply Z.div_le_lower_bound; lia).
    assert (Hhi : (R + 18446744073709551616) / 60000000000 < 307445734)
      by (apply Z.div_lt_upper_bound; lia).
    split; [lia |].
    assert (Hf : formatDuration d
                 = renderMinutes ((R + 18446744073709551616) / 60000000000)).
    { unfold formatDuration, renderMinutes. fold R. rewrite Hu. reflexivity. }
    split.
    + rewrite Hf. unfold renderMinutes.
      destruct (Z.ltb_spec ((R + 18446744073709551616) / 60000000000) 60);
        [lia | reflexivity].
    + rewrite Hf. apply minutesShown_render. lia.
Qed.

End NegativeDurations.

(** ** Battery level: from the feed to the status reply *)

Section BatteryRoundTrip.

Variable lookup : float32 -> float32 -> option LookupResult.
Variable parse : string -> option float32.

Lemma parse_digits_uint (d : Decimal.uint) : forall acc : Z,
  GoStrconv.parse_digits (NilEmpty.string_of_uint d) acc
  = Some (uint_value d acc).
Proof.
  induction d; intros acc; cbn [NilEmpty.string_of_uint uint_value];
    [ reflexivity
    | cbn [GoStrconv.parse_digits];
      match goal with
      | |- context [GoStrconv.digit_of ?x] =>
          let v := eval vm_compute in (GoStrconv.digit_of x) in
          change (GoStrconv.digit_of x) with v
      end; cbv iota; apply IHd .. ].
Qed.

Lemma Atoi_digits (neg : bool) (d : Decimal.uint) :
  d <> Decimal.Nil ->
  GoStrconv.Atoi
    ((if neg then "-" else "") ++ NilEmpty.string_of_uint d)%string =
  let v := if neg then - uint_value d 0 else uint_value d 0 in
  if GoInt.in_int64b v then Some v else None.
Proof.
  intros Hd. pose proof (parse_digits_uint d 0) as Hp.
  destruct neg; destruct d; try contradiction;
    cbn [NilEmpty.string_of_uint] in *; unfold GoStrconv.Atoi;
    cbv beta iota zeta delta [append];
    rewrite Hp; reflexivity.
Qed.

(** The decimal text of an [int] is read back by [Atoi]. *)
Lemma Atoi_fmt_d (n : Z) :
  GoInt.in_int64 n -> GoStrconv.Atoi (GoFmt.fmt_d n) = Some n.
Proof.
  intros Hn. apply GoIntFacts.in_int64b_spec in Hn.
  destruct n as [| p | p].
  - reflexivity.
  - assert (Hnil : Pos.to_uint p <> Decimal.Nil).
    { intros E. pose proof (DecimalPos.Unsigned.of_to p) as H.
      rewrite E in H. discriminate. }
    unfold GoFmt.fmt_d. cbn [Z.to_int NilZero.string_of_int].
    unfold NilZero.string_of_uint.
    pose proof (Atoi_digits false (Pos.to_uint p) Hnil) as H.
    cbv zeta in H. rewrite uint_value_of_uint, DecimalPos.Unsigned.of_to in H.
    cbn [Z.of_N] in H. rewrite Hn in H.
    destruct (Pos.to_uint p); [contradiction | exact H ..].
  - assert (Hnil : Pos.to_uint p <> Decimal.Nil).
    { intros E. pose proof (DecimalPos.Unsigned.of_to p) as H.
      rewrite E in H. discriminate. }
    unfold GoFmt.fmt_d. cbn [Z.to_int NilZero.string_of_int].
    unfold NilZero.string_of_uint.
    pose proof (Atoi_digits true (Pos.to_uint p) Hnil) as H.
    cbv zeta in H. rewrite uint_value_of_uint, DecimalPos.Unsigned.of_to in H.
    cbn [Z.of_N] in H. change (- Z.pos p) with (Z.neg p) in H. rewrite Hn in H.
    destruct (Pos.to_uint p); [contradiction | exact H ..].
Qed.

(** X13. A battery level that arrives as the decimal text of an [int] is
    stored as that number, and the status reply for that car shows the
    same text again between the battery glyph and the percent sign. *)
Theorem battery_level_round_trip (n : Z) (id : Z) (now : GoTime.Time)
    (chatID : Z) (w : World) :
  GoInt.in_int64 n ->
  let w' :=
    carHandler parse (Some (id, "battery_level")) (GoFmt.fmt_d n) now w in
  (exists car,
      cars w' !! id = Some car /\ batteryLevel (carState car) = n) /\
  (defaultCar w' = id ->
   botReply "status" chatID w' =
     Some (Glyph.battery ++ GoFmt.fmt_d n ++ "%")%string).
Proof.
  intros Hn. cbn zeta.
  assert (Hb : forall car,
             batteryLevel
               (carState (Update parse now "battery_level" (GoFmt.fmt_d n) car))
             = n).
  { intros car. rewrite Update_fields. cbn. unfold assigned.
    cbn [String.eqb Ascii.eqb Bool.eqb]. rewrite (Atoi_fmt_d n Hn). reflexivity. }
  unfold carHandler.
  destruct (cars w !! id) as [car |]; cbn [cars defaultCar outbox].
  - split.
    + eexists. rewrite lookup_insert_eq. split; [reflexivity | apply Hb].
    + intros Hdef. unfold botReply. cbn [String.eqb Ascii.eqb Bool.eqb].
      cbn [cars defaultCar]. rewrite Hdef, lookup_insert_eq.
      unfold statusMessage. rewrite Hb. reflexivity.
  - split.
    + eexists. rewrite lookup_insert_eq. split; [reflexivity | apply Hb].
    + intros _. unfold botReply. cbn [String.eqb Ascii.eqb Bool.eqb].
      cbn [cars defaultCar]. rewrite lookup_insert_eq.
      unfold statusMessage. rewrite Hb. reflexivity.
Qed.

End BatteryRoundTrip.

(** ** What the messages of a session report *)

Section SessionReports.

Variable lookup : float32 -> float32 -> option LookupResult.

(** The peak of an active session is one of the snapshots observed. *)
Lemma observeAll_peak_observed (l : list CarState) : forall (car : Car),
  charging car = true ->
  Forall (fun s => chargerPower s <> 0) l ->
  chargePeak (observeAll lookup car l) = chargePeak car \/
  In (chargePeak (observeAll lookup car l)) l.
Proof.
  induction l as [| s l IH]; intros car Hc Hl; cbn.
  - left. reflexivity.
  - inversion Hl as [| ? ? Hs Hl']; subst.
    destruct (observe_active lookup car s Hc Hs) as (Hc' & _ & Hpk).
    destruct (IH (observe lookup car s) Hc' Hl') as [E | Hin].
    + unfold observeAll in E. rewrite E, Hpk.
      destruct (chargerPower (chargePeak car) <? chargerPower s); auto.
    + right. right. exact Hin.
Qed.

(** X14. The evaluation that ends a charging session formats its message
    from the snapshot that started the session, the snapshot that ends it,
    and a peak that is one of the snapshots observed in between and has the
    largest charger power of them.  A message that is not empty is the
    first one sent; when it is empty the evaluation stops there, before the
    driving chain. *)
Theorem charging_session_report
    (car : Car) (s0 s_end : CarState) (l : list CarState) :
  charging car = false ->
  0 < chargerPower s0 ->
  Forall (fun s => chargerPower s <> 0) l ->
  chargerPower s_end = 0 ->
  let session := observeAll lookup (observe lookup car s0) l in
  let o := evaluate lookup (set_carState s_end session) in
  let peak := chargePeak session in
  let text := finishChargingMessage lookup s0 s_end peak in
  In peak (s0 :: l) /\
  chargerPower peak = maxPower s0 l /\
  charging (car_after o) = false /\
  (text <> "" -> List.head (sent o) = Some text) /\
  (text = "" ->
   o = mkOutcome (set_charging false (set_carState s_end session))
         [FinishedCharging] [] true).
Proof.
  intros Hc Hp Hl Hend. cbn zeta.
  destruct (observe_start lookup car s0 Hc Hp) as (Hc0 & Hst0 & Hpk0).
  destruct (observeAll_active lookup l (observe lookup car s0) Hc0 Hl)
    as (Hc1 & Hst1 & Hpk1).
  pose proof (observeAll_peak_observed l (observe lookup car s0) Hc0 Hl) as Hin.
  set (session := observeAll lookup (observe lookup car s0) l) in *.
  rewrite Hst0 in Hst1. rewrite Hpk0 in Hpk1, Hin.
  split; [destruct Hin as [-> | Hin]; [left; reflexivity | right; exact Hin] |].
  split; [exact Hpk1 |].
  unfold evaluate, chargingAxis. cbn [carState set_carState charging].
  rewrite Hc1, Hend. cbn [andb Z.eqb].
  cbn [chargeStart chargePeak carState set_charging set_carState].
  rewrite Hst1.
  destruct (String.eqb_spec
              (finishChargingMessage lookup s0 s_end (chargePeak session)) "")
    as [E | E]; cbn [left_select car_after sent fired].
  - split; [reflexivity |]. split; [contradiction |]. reflexivity.
  - split.
    + destruct (drivingAxis_frame lookup
                  (set_charging false (set_carState s_end session)))
        as (_ & -> & _ & _).
      reflexivity.
    + split; [reflexivity | contradiction].
Qed.

Lemma observe_driving (car : Car) (s : CarState) :
  driving car = true -> driveShiftState (shiftState s) = true ->
  driving (observe lookup car s) = true /\
  driveStart (observe lookup car s) = driveStart car.
Proof.
  intros Hd Hs. unfold observe, evaluate. cbn zeta.
  assert (Hc : driving (car_after (chargingAxis lookup (set_carState s car))) = true
               /\ driveStart (car_after (chargingAxis lookup (set_carState s car)))
                  = driveStart car
               /\ carState (car_after (chargingAxis lookup (set_carState s car))) = s).
  { unfold chargingAxis. case_ifs; cbn; auto. }
  destruct Hc as (Hd' & Hst' & Hcs').
  destruct (left_select (chargingAxis lookup (set_carState s car)));
    cbn [car_after]; [auto |].
  unfold drivingAxis. rewrite Hcs', Hs, Hd'. cbn. auto.
Qed.

Lemma observeAll_driving (l : list CarState) : forall (car : Car),
  driving car = true ->
  Forall (fun s => driveShiftState (shiftState s) = true) l ->
  driving (observeAll lookup car l) = true /\
  driveStart (observeAll lookup car l) = driveStart car.
Proof.
  induction l as [| s l IH]; intros car Hd Hl; cbn; [auto |].
  inversion Hl as [| ? ? Hs Hl']; subst.
  destruct (observe_driving car s Hd Hs) as (Hd' & Hst').
  destruct (IH (observe lookup car s) Hd' Hl') as (IH1 & IH2).
  unfold observeAll in IH1, IH2. rewrite IH1, IH2, Hst'. auto.
Qed.

(** X15. A drive keeps the snapshot that started it for as long as the
    shift state stays [D] or [R], whatever else is evaluated meanwhile.
    The evaluation that ends the drive, when it reaches the driving chain,
    formats its message from that start snapshot and the snapshot that ends
    the drive, and a message that is not empty is the last one it sends. *)
Theorem driving_session_report
    (car : Car) (s0 s_end : CarState) (l : list CarState) :
  driving car = false ->
  driveShiftState (shiftState s0) = true ->
  left_select (chargingAxis lookup (set_carState s0 car)) = false ->
  Forall (fun s => driveShiftState (shiftState s) = true) l ->
  driveShiftState (shiftState s_end) = false ->
  let session := observeAll lookup (observe lookup car s0) l in
  let o := evaluate lookup (set_carState s_end session) in
  let text := finishDriveMessage lookup s0 s_end in
  driving session = true /\ driveStart session = s0 /\
  (left_select (chargingAxis lookup (set_carState s_end session)) = false ->
   driving (car_after o) = false /\
   In FinishedDriving (fired o) /\
   (text <> "" -> List.last (sent o) "" = text) /\
   (text = "" ->
    sent o = sent (chargingAxis lookup (set_carState s_end session)))).
Proof.
  intros Hd Hs0 Hb0 Hl Hend. cbn zeta.
  assert (H0 : driving (observe lookup car s0) = true /\
               driveStart (observe lookup car s0) = s0).
  { unfold observe, evaluate. cbn zeta. rewrite Hb0. cbn [car_after].
    assert (Hc : driving (car_after (chargingAxis lookup (set_carState s0 car)))
                 = false
                 /\ carState (car_after (chargingAxis lookup (set_carState s0 car)))
                    = s0).
    { unfold chargingAxis. case_ifs; cbn; auto. }
    destruct Hc as (Hd' & Hcs').
    unfold drivingAxis. rewrite Hcs', Hs0, Hd'. cbn. rewrite Hcs'. auto. }
  destruct H0 as (Hd0 & Hst0).
  destruct (observeAll_driving l (observe lookup car s0) Hd0 Hl) as (Hd1 & Hst1).
  set (session := observeAll lookup (observe lookup car s0) l) in *.
  rewrite Hst0 in Hst1.
  split; [exact Hd1 |]. split; [exact Hst1 |].
  intros Hb. unfold evaluate. cbn zeta. rewrite Hb.
  cbn [car_after fired sent].
  set (c := car_after (chargingAxis lookup (set_carState s_end session))).
  assert (Hc : driving c = true /\ driveStart c = s0 /\ carState c = s_end).
  { subst c. unfold chargingAxis. case_ifs; cbn; auto. }
  destruct Hc as (Hdc & Hstc & Hcsc).
  unfold drivingAxis. rewrite Hcsc, Hend, Hdc. cbn [andb negb].
  cbn [driveStart carState set_driving]. rewrite Hstc, Hcsc.
  destruct (String.eqb_spec (finishDriveMessage lookup s0 s_end) "")
    as [E | E]; cbn [car_after fired sent driving set_driving].
  - split; [reflexivity |]. split; [apply in_or_app; right; left; reflexivity |].
    split; [contradiction |]. intros _. apply app_nil_r.
  - split; [reflexivity |]. split; [apply in_or_app; right; left; reflexivity |].
    split; [intros _; apply List.last_last | contradiction].
Qed.

End SessionReports.

(** ** The two versions of the formatters *)

Section Versions.

Variable lookup : float32 -> float32 -> option LookupResult.

(** X16. The two versions of each formatter are empty on the same
    inputs and otherwise differ in one insertion each: the newer driving
    message adds the efficiency before the closing bracket, and the newer
    charging message adds the place after the words [Charging
    finished]. *)
Theorem formatter_versions (start end_ peak : CarState) :
  (finishDriveMessage lookup start end_ = "" <->
   V1Drive.finishDriveMessage lookup start end_ = "") /\
  (finishDriveMessage lookup start end_ <> "" ->
   V1Drive.finishDriveMessage lookup start end_ =
     (drive_message_body lookup start end_ ++ ")")%string /\
   finishDriveMessage lookup start end_ =
     (drive_message_body lookup start end_ ++ " @ " ++
      GoFmt.fmt_f 0 (efficiency start end_) ++ "Wh/mi)")%string) /\
  (finishChargingMessage lookup start end_ peak = "" <->
   V1.finishChargingMessage start end_ peak = "") /\
  (finishChargingMessage lookup start end_ peak <> "" ->
   V1.finishChargingMessage start end_ peak =
     (Glyph.plug ++ " Charging finished." ++
      charging_message_rest start end_ peak)%string /\
   finishChargingMessage lookup start end_ peak =
     (Glyph.plug ++ " Charging finished at " ++ placeName lookup start ++ "." ++
      charging_message_rest start end_ peak)%string).
Proof.
  split; [| split; [| split]].
  - unfold finishDriveMessage, V1Drive.finishDriveMessage.
    change KM_IN_MILE with KMPerMile.
    destruct (ltb32 _ (const32 1 10)); [tauto |].
    split; intros H; exfalso; revert H; apply append_nonempty, car_nonempty.
  - unfold finishDriveMessage, V1Drive.finishDriveMessage, drive_message_body.
    change KM_IN_MILE with KMPerMile.
    destruct (ltb32 _ (const32 1 10)); [congruence |].
    intros _. cbn zeta. rewrite !string_append_assoc. split; reflexivity.
  - destruct (finishChargingMessage_empty_wrapped lookup start end_ peak)
      as [H1 H2].
    rewrite H1, H2. reflexivity.
  - unfold finishChargingMessage, V1.finishChargingMessage,
      charging_message_rest, charging_message_figures, charging_message_tail.
    change KM_IN_MILE with KMPerMile.
    destruct (_ =? 0); [congruence |].
    intros _. cbn zeta. rewrite !string_append_assoc. split; reflexivity.
Qed.

End Versions.

(** ** When the process panics *)

Section Panics.

Variable lookup : float32 -> float32 -> option LookupResult.
Variable parse : string -> option float32.

Lemma run_app (pre post : list Event) : forall w : World,
  run lookup parse w (pre ++ post)%list =
    match run lookup parse w pre with
    | Some w1 => run lookup parse w1 post
    | None => None
    end.
Proof.
  induction pre as [| ev pre IH]; intros w; cbn; [reflexivity |].
  destruct (step lookup parse w ev) as [w1 |]; [apply IH | reflexivity].
Qed.

Lemma run_none_split (evs : list Event) : forall w : World,
  run lookup parse w evs = None ->
  exists pre ev post w1,
    evs = (pre ++ ev :: post)%list /\
    run lookup parse w pre = Some w1 /\
    step lookup parse w1 ev = None.
Proof.
  induction evs as [| ev evs IH]; intros w H; cbn in H; [discriminate |].
  destruct (step lookup parse w ev) as [w1 |] eqn:E.
  - destruct (IH w1 H) as (pre & ev' & post & w2 & -> & Hpre & Hstep).
    exists (ev :: pre), ev', post, w2. cbn. rewrite E. auto.
  - exists [], ev, evs, w. auto.
Qed.

Lemma step_none (w : World) (ev : Event) :
  step lookup parse w ev = None ->
  exists chatID, ev = BotCommand "status" chatID /\
                 cars w !! defaultCar w = None.
Proof.
  destruct ev as [topic payload now | carId | command chatID]; cbn.
  - discriminate.
  - destruct (cars w !! carId); discriminate.
  - unfold botReply. destruct (String.eqb_spec command "status") as [-> | _].
    + destruct (cars w !! defaultCar w); [discriminate |].
      intros _. exists chatID. auto.
    + discriminate.
Qed.

(** X17. The process panics in one situation only: a [status] command
    that arrives before the first telemetry message with a topic that
    scans.  Once a car has been discovered, every sequence of events is
    handled. *)
Theorem run_panics_iff (evs : list Event) :
  run lookup parse initialWorld evs = None <->
  exists pre chatID post,
    evs = (pre ++ BotCommand "status" chatID :: post)%list /\
    discoveredBy pre = [].
Proof.
  split.
  - intros H.
    destruct (run_none_split evs initialWorld H)
      as (pre & ev & post & w1 & -> & Hpre & Hstep).
    destruct (step_none w1 ev Hstep) as (chatID & -> & Hnone).
    exists pre, chatID, post. split; [reflexivity |].
    destruct (tracks_run lookup parse pre [] initialWorld w1
                (tracks_initial) Hpre) as [Hdom Hdef].
    fold (discoveredBy pre) in Hdom, Hdef.
    destruct (discoveredBy pre) as [| x l] eqn:E; [reflexivity |].
    exfalso.
    assert (Hin : List.last (x :: l) 0 ∈ x :: l).
    { apply list_elem_of_In.
      destruct (exists_last (l := x :: l)) as (l' & a & Hl); [discriminate |].
      rewrite Hl, List.last_last. apply in_or_app. right. left. reflexivity. }
    apply Hdom in Hin. rewrite <- Hdef, Hnone in Hin.
    destruct Hin as [? Hin]. discriminate.
  - intros (pre & chatID & post & -> & Hseen).
    rewrite run_app.
    destruct (run lookup parse initialWorld pre) as [w1 |] eqn:Hpre;
      [| reflexivity].
    destruct (tracks_run lookup parse pre [] initialWorld w1
                (tracks_initial) Hpre) as [Hdom _].
    fold (discoveredBy pre) in Hdom. rewrite Hseen in Hdom.
    cbn. unfold botReply. cbn.
    destruct (cars w1 !! defaultCar w1) as [car |] eqn:E; [| reflexivity].
    exfalso. assert (Hs : is_Some (cars w1 !! defaultCar w1)) by (rewrite E; eauto).
    apply Hdom in Hs. apply elem_of_nil in Hs. exact Hs.
Qed.

End Panics.

(** ** The repository's tests on the model *)

(** The expected texts of the tests are met word for word and figure for
    figure; the glyphs are those of the program's literals, which are not
    the bytes the test file writes for them. *)
Module TestFacts.

Example glyph_bytes :
  Glyph.plug <> byte_string [240; 159; 148; 140]%nat /\
  Glyph.clock <> byte_string [240; 159; 149; 151]%nat /\
  Glyph.arrow <> byte_string [226; 134; 146]%nat /\
  Glyph.battery <> byte_string [240; 159; 148; 139]%nat /\
  Glyph.car <> byte_string [240; 159; 154; 151]%nat /\
  Glyph.bolt <> byte_string [226; 154; 161]%nat /\
  Glyph.thermometer <> byte_string [240; 159; 140; 161]%nat /\
  Glyph.degree <> byte_string [194; 176]%nat /\
  Glyph.oncoming_car <> byte_string [240; 159; 154; 152]%nat.
Proof. repeat split; discriminate. Qed.

(** [TestFinishChargingMessageHome]. *)
Example finish_charging_message_home :
  finishChargingMessage Tests.lookup
    Tests.charge_start Tests.charge_end Tests.charge_peak =
    (Glyph.plug ++ " Charging finished at Soul Buoy." ++ nl ++
     Glyph.clock ++ " 06:39" ++ Glyph.arrow ++ "08:09 (1h30m)" ++ nl ++
     Glyph.battery ++ " 50" ++ Glyph.arrow ++ "55% (+ 5%)" ++ nl ++
     Glyph.car ++ " 0" ++ Glyph.arrow ++ "0 miles (+ 0.0 miles)." ++ nl ++
     Glyph.bolt ++ " + 3.8kWh" ++ nl ++
     "Average Power: 2.53kW (Peak 8kW at 52%)")%string.
Proof. vm_compute. reflexivity. Qed.

(** [TestFinishChargingMessageZero]. *)
Example finish_charging_message_zero :
  finishChargingMessage Tests.lookup zeroCarState zeroCarState zeroCarState = "".
Proof. reflexivity. Qed.

(** [TestFinishDriveMessage]. *)
Example finish_drive_message :
  finishDriveMessage Tests.lookup Tests.drive_start Tests.drive_end =
    (Glyph.car ++ " Home->Cow Lane <code>6.2</code> miles " ++
     Glyph.thermometer ++ " 7.5" ++ Glyph.degree ++ "C" ++ nl ++
     Glyph.clock ++ " 06:39" ++ Glyph.arrow ++ "06:47 (8m)" ++ nl ++
     Glyph.battery ++ " 50" ++ Glyph.arrow ++ "48% (-2%)" ++ nl ++
     Glyph.oncoming_car ++ " 248" ++ Glyph.arrow ++
     "242 miles (6.2 miles @ 216Wh/mi)")%string.
Proof. vm_compute. reflexivity. Qed.

(** [TestTruncate]. *)
Example truncate_examples :
  truncate "A" 20 = "A" /\
  truncate Tests.hurrell_road 20 = "3, Hurrell Road" /\
  truncate "A very long test without a comma" 20 = "A very long test wit".
Proof. vm_compute. repeat split; reflexivity. Qed.

(** [TestPlaceNameGeofence]. *)
Example place_name_geofence :
  placeName Tests.lookup
    (set_geofence "Home"
       (set_longitude (const32 116 1000)
          (set_latitude (const32 52223 1000) zeroCarState))) = "Home".
Proof. reflexivity. Qed.

(** A name of seven three-byte characters is 21 bytes long: it is cut
    after 20 bytes, inside its last character. *)
Example truncate_counts_bytes :
  let zhong := byte_string [228; 184; 173]%nat in
  let name := (zhong ++ zhong ++ zhong ++ zhong ++ zhong ++ zhong ++ zhong)%string in
  String.length name = 21%nat /\
  truncate name 20 =
    (zhong ++ zhong ++ zhong ++ zhong ++ zhong ++ zhong ++
     byte_string [228; 184]%nat)%string.
Proof. vm_compute. split; reflexivity. Qed.

(** The stand-in parser on the literals of the tests. *)
Example parseFloat_examples :
  Tests.parseFloat "3.8" = Some (const32 38 10) /\
  Tests.parseFloat "-7.5" = Some (lit32 true 75 10) /\
  Tests.parseFloat "976" = Some (const32 976 1) /\
  Tests.parseFloat "abc" = None /\
  Tests.parseFloat "" = None /\
  Tests.parseFloat "340282350000000000000000000000000000000" =
    Some (S754_finite false 16777215 104) /\
  Tests.parseFloat "1000000000000000000000000000000000000000" = None.
Proof. vm_compute. repeat split; reflexivity. Qed.

End TestFacts.

(** ** The statements at concrete inputs *)

Lemma charging_peak_is_session_maximum_witness :
  let s := fun p => set_chargerPower p zeroCarState in
  let session :=
    observeAll Tests.lookup (observe Tests.lookup newCar (s 7))
      [s 8; s 8; s 3] in
  charging newCar = false /\ 0 < chargerPower (s 7) /\
  charging session = true /\ chargeStart session = s 7 /\
  chargerPower (chargePeak session) = 8 /\
  chargePeak (observe Tests.lookup session (s 8)) = chargePeak session.
Proof.
  cbv zeta.
  destruct (charging_peak_is_session_maximum Tests.lookup newCar
              (set_chargerPower 7 zeroCarState)
              [set_chargerPower 8 zeroCarState;
               set_chargerPower 8 zeroCarState;
               set_chargerPower 3 zeroCarState])
    as ((Hc & Hs & Hp) & Hnext & _).
  - reflexivity.
  - reflexivity.
  - repeat constructor; discriminate.
  - split; [reflexivity |]. split; [reflexivity |].
    split; [exact Hc |]. split; [exact Hs |]. split; [exact Hp |].
    destruct (Hnext (set_chargerPower 8 zeroCarState)) as (_ & Htie & _).
    apply Htie. rewrite Hp. reflexivity.
Defined.

Lemma finishChargingMessage_empty_iff_witness :
  GoInt.in_int64 50 /\ GoInt.in_int64 55 /\
  finishChargingMessage Tests.lookup
    Tests.charge_start Tests.charge_end Tests.charge_peak <> "" /\
  finishChargingMessage Tests.lookup
    Tests.charge_start Tests.charge_start Tests.charge_peak = "".
Proof.
  assert (H50 : GoInt.in_int64 50) by (split; discriminate).
  assert (H55 : GoInt.in_int64 55) by (split; discriminate).
  split; [exact H50 |]. split; [exact H55 |]. split.
  - destruct (finishChargingMessage_empty_iff Tests.lookup
                Tests.charge_start Tests.charge_end Tests.charge_peak H50 H55)
      as [H _].
    intros E. apply H in E. discriminate E.
  - destruct (finishChargingMessage_empty_iff Tests.lookup
                Tests.charge_start Tests.charge_start Tests.charge_peak H50 H50)
      as [H _].
    apply H. reflexivity.
Defined.

Lemma finishDriveMessage_empty_iff_witness :
  valid_binary prec32 emax32 (odometer Tests.drive_end) = true /\
  valid_binary prec32 emax32 (odometer Tests.drive_start) = true /\
  SFltb (odometer Tests.drive_start) (odometer Tests.drive_end) = true /\
  finishDriveMessage Tests.lookup Tests.drive_end Tests.drive_start = "" /\
  finishDriveMessage Tests.lookup Tests.drive_start Tests.drive_end <> "".
Proof.
  split; [reflexivity |]. split; [reflexivity |]. split; [reflexivity |].
  split.
  - destruct (finishDriveMessage_empty_iff Tests.lookup
                Tests.drive_end Tests.drive_start) as (_ & _ & _ & H).
    apply H; reflexivity.
  - destruct (finishDriveMessage_empty_iff Tests.lookup
                Tests.drive_start Tests.drive_end) as (_ & H & _ & _).
    apply H. reflexivity.
Defined.

Lemma drive_message_efficiency_witness :
  odometer Tests.drive_start = const32 976 1 /\
  ratedBatteryRangeKm Tests.drive_start = const32 400 1 /\
  odometer Tests.drive_end = const32 986 1 /\
  ratedBatteryRangeKm Tests.drive_end = const32 390 1 /\
  GoFmt.fmt_f 0 (efficiency Tests.drive_start Tests.drive_end) = "216".
Proof.
  split; [reflexivity |]. split; [reflexivity |].
  split; [reflexivity |]. split; [reflexivity |].
  destruct (drive_message_efficiency Tests.lookup
              Tests.drive_start Tests.drive_end) as (_ & _ & H).
  destruct H as [H _]; [reflexivity .. |]. exact H.
Defined.

Lemma status_reports_last_discovered_witness :
  let evs :=
    [MqttMessage (Some (1, "battery_level")) "50" Tests.at_0639;
     MqttMessage (Some (2, "battery_level")) "80" Tests.at_0639;
     MqttMessage (Some (1, "battery_level")) "51" Tests.at_0639] in
  exists w,
    run Tests.lookup Tests.parseFloat initialWorld evs = Some w /\
    discoveredBy evs = [1; 2] /\
    defaultCar w = 2.
Proof.
  cbv zeta. eexists. split; [vm_compute; reflexivity |].
  split; [vm_compute; reflexivity |].
  match goal with
  | |- defaultCar ?w = 2 =>
      pose proof (status_reports_last_discovered Tests.lookup Tests.parseFloat
                    [MqttMessage (Some (1, "battery_level")) "50" Tests.at_0639;
                     MqttMessage (Some (2, "battery_level")) "80" Tests.at_0639;
                     MqttMessage (Some (1, "battery_level")) "51" Tests.at_0639]
                    w 0 ltac:(vm_compute; reflexivity)) as H
  end.
  change (discoveredBy _) with [1; 2] in H.
  destruct H as [H _]. exact H.
Defined.

Lemma placeName_resolution_witness :
  geofence zeroCarState = "" /\
  placeName Tests.lookup_display_only zeroCarState = "3, Hurrell Road" /\
  placeName Tests.lookup_display_only (set_geofence "Home" zeroCarState) = "Home".
Proof.
  split; [reflexivity |]. split.
  - destruct (placeName_resolution Tests.lookup_display_only zeroCarState)
      as [_ H].
    specialize (H eq_refl).
    lazy beta iota zeta delta [Tests.lookup_display_only] in H.
    lazy beta iota zeta delta [Name DisplayName String.eqb] in H.
    destruct H as [_ H].
    destruct H as (_ & _ & _ & H); [discriminate |].
    destruct H as [H _]; [apply PeanoNat.Nat.leb_le; reflexivity |].
    apply (H 15%nat);
      [apply PeanoNat.Nat.ltb_lt; reflexivity | reflexivity |].
    intros j [Hlo Hhi].
    apply PeanoNat.Nat.ltb_lt in Hlo. apply PeanoNat.Nat.ltb_lt in Hhi.
    do 20 (destruct j as [| j];
           [first [discriminate Hlo | vm_compute; discriminate] |]).
    discriminate Hhi.
  - destruct (placeName_resolution Tests.lookup_display_only
                (set_geofence "Home" zeroCarState)) as [H _].
    apply H. discriminate.
Defined.

Lemma formatDuration_by_range_witness :
  GoInt.min_int64 <= - 1 <= GoInt.max_int64 /\
  GoInt.min_int64 <= 89 * GoTime.Minute + 30 * 10 ^ 9 <= GoInt.max_int64 /\
  GoInt.min_int64 <= - GoTime.Minute <= GoInt.max_int64 /\
  formatDuration (- 1) = "0m" /\
  minutesShown (formatDuration (- 1)) = Some 0 /\
  formatDuration (89 * GoTime.Minute + 30 * 10 ^ 9) = "1h30m" /\
  minutesShown (formatDuration (89 * GoTime.Minute + 30 * 10 ^ 9)) = Some 90 /\
  GoTime.Round (- GoTime.Minute) GoTime.Minute <= - GoTime.Minute /\
  exists w : Z,
    153722867 <= w <= 307445733 /\
    minutesShown (formatDuration (- GoTime.Minute)) = Some w.
Proof.
  assert (H1 : GoInt.min_int64 <= - 1 <= GoInt.max_int64)
    by (split; discriminate).
  assert (H2 : GoInt.min_int64 <= 89 * GoTime.Minute + 30 * 10 ^ 9
               <= GoInt.max_int64)
    by (split; discriminate).
  assert (H3 : GoInt.min_int64 <= - GoTime.Minute <= GoInt.max_int64)
    by (split; discriminate).
  split; [exact H1 |]. split; [exact H2 |]. split; [exact H3 |].
  destruct (formatDuration_by_range _ _ H1 H2) as (Ha & _).
  destruct Ha as (_ & _ & Hm & _ & Hshown & _); [reflexivity |].
  split; [apply Hm; reflexivity |]. split; [exact Hshown |].
  destruct (formatDuration_by_range _ _ H2 H2) as (Hb & _).
  destruct Hb as (_ & _ & _ & Hh & Hshown' & _); [reflexivity |].
  split; [apply Hh; discriminate |]. split; [exact Hshown' |].
  destruct (formatDuration_by_range _ _ H3 H3) as (_ & Hc & _).
  destruct Hc as (HR & w & Hw & _ & Hs); [discriminate |].
  split; [exact HR |]. exists w. split; [exact Hw | exact Hs].
Defined.


(** ** The further properties at concrete inputs *)

Lemma Update_order_irrelevant_witness :
  "odometer" <> "battery_level" /\
  Update Tests.parseFloat (Scenario.t 1) "odometer" "976"
    (Update Tests.parseFloat (Scenario.t 0) "battery_level" "50" newCar) =
  Update Tests.parseFloat (Scenario.t 1) "battery_level" "50"
    (Update Tests.parseFloat (Scenario.t 0) "odometer" "976" newCar).
Proof.
  split; [discriminate |].
  apply (Update_order_irrelevant Tests.parseFloat). discriminate.
Defined.

Lemma sessions_consistent_witness :
  exists w car,
    run Tests.lookup Tests.parseFloat initialWorld
      [MqttMessage (Some (1, "charger_power")) "5" (Scenario.t 0);
       TimerFired 1;
       MqttMessage (Some (1, "shift_state")) "D" (Scenario.t 2);
       TimerFired 1] = Some w /\
    cars w !! 1 = Some car /\
    charging car = true /\ driving car = true /\
    sessionsConsistent car.
Proof.
  eexists. eexists.
  split; [vm_compute; reflexivity |].
  split; [vm_compute; reflexivity |].
  split; [reflexivity |]. split; [reflexivity |].
  eapply (sessions_consistent Tests.lookup Tests.parseFloat
            [MqttMessage (Some (1, "charger_power")) "5" (Scenario.t 0);
             TimerFired 1;
             MqttMessage (Some (1, "shift_state")) "D" (Scenario.t 2);
             TimerFired 1] _ 1);
    vm_compute; reflexivity.
Defined.

Lemma run_only_adds_witness :
  exists w',
    run Tests.lookup Tests.parseFloat initialWorld
      [MqttMessage (Some (1, "battery_level")) "50" (Scenario.t 0);
       BotCommand "status" 7] = Some w' /\
    exists more,
      outbox w' = (outbox initialWorld ++ more)%list /\
      Forall (fun text => text <> "") more /\
      (forall id, is_Some (cars initialWorld !! id) -> is_Some (cars w' !! id)).
Proof.
  eexists. split; [vm_compute; reflexivity |].
  apply (run_only_adds Tests.lookup Tests.parseFloat
           [MqttMessage (Some (1, "battery_level")) "50" (Scenario.t 0);
            BotCommand "status" 7]).
  vm_compute; reflexivity.
Defined.

Lemma step_touches_one_car_witness :
  let ev := MqttMessage (Some (1, "battery_level")) "50" (Scenario.t 0) in
  exists w',
    step Tests.lookup Tests.parseFloat initialWorld ev = Some w' /\
    (forall id, eventCar ev <> Some id ->
                cars w' !! id = cars initialWorld !! id) /\
    (forall topic payload now,
        ev = MqttMessage topic payload now -> outbox w' = outbox initialWorld).
Proof.
  cbv zeta. eexists. split; [reflexivity |].
  apply (step_touches_one_car Tests.lookup Tests.parseFloat). reflexivity.
Defined.

Lemma drive_message_needs_distance_witness :
  finishDriveMessage Tests.lookup Tests.drive_start Tests.drive_end <> "" /\
  is_zero (sub32 (odometer Tests.drive_end) (odometer Tests.drive_start))
    = false /\
  SFcompare (odometer Tests.drive_end) (odometer Tests.drive_start) = Some Gt.
Proof.
  assert (H : finishDriveMessage Tests.lookup Tests.drive_start Tests.drive_end
              <> "") by (vm_compute; discriminate).
  split; [exact H |].
  destruct (drive_message_needs_distance Tests.lookup
              Tests.drive_start Tests.drive_end H) as [Hz Hgt].
  split; [exact Hz |]. apply Hgt; reflexivity.
Defined.

Lemma charging_message_zero_duration_witness :
  let start := Tests.charge_start in
  let end_ := set_batteryLevel 55 Tests.charge_start in
  GoTime.unixNano (at_ end_) = GoTime.unixNano (at_ start) /\
  exists figure : string,
    In figure ["NaN"; "+Inf"; "-Inf"] /\
    GoFmt.fmt_f 2 (chargingAveragePower start end_) = figure /\
    (finishChargingMessage Tests.lookup start end_ Tests.charge_peak <> "" ->
     finishChargingMessage Tests.lookup start end_ Tests.charge_peak =
       (charging_message_head Tests.lookup start end_ ++
        GoFmt.fmt_f 1 (chargeEnergyAdded end_) ++ "kWh" ++ nl ++
        "Average Power: " ++ figure ++
        charging_message_tail Tests.charge_peak)%string).
Proof.
  cbv zeta. split; [reflexivity |].
  apply (charging_message_zero_duration Tests.lookup). reflexivity.
Defined.

Lemma formatDuration_negative_durations_witness :
  let d := - 60 * 10 ^ 9 in
  GoInt.min_int64 <= d < 0 /\
  (- 30 * 10 ^ 9 < d -> formatDuration d = "0m") /\
  (d <= - 30 * 10 ^ 9 ->
   exists u : Z,
     153722867 <= u <= 307445733 /\
     formatDuration d =
       (GoFmt.fmt_d (u / 60) ++ "h" ++ GoFmt.fmt_d (u mod 60) ++ "m")%string /\
     minutesShown (formatDuration d) = Some u).
Proof.
  cbv zeta.
  assert (H : GoInt.min_int64 <= - 60 * 10 ^ 9 < 0)
    by (unfold GoInt.min_int64; lia).
  split; [exact H |].
  apply (formatDuration_negative_durations (- 60 * 10 ^ 9) H).
Defined.

Lemma battery_level_round_trip_witness :
  let w' :=
    carHandler Tests.parseFloat (Some (1, "battery_level")) (GoFmt.fmt_d 50)
      (Scenario.t 0) initialWorld in
  GoInt.in_int64 50 /\
  (exists car,
      cars w' !! 1 = Some car /\ batteryLevel (carState car) = 50) /\
  (defaultCar w' = 1 ->
   botReply "status" 7 w' =
     Some (Glyph.battery ++ GoFmt.fmt_d 50 ++ "%")%string).
Proof.
  cbv zeta.
  assert (H : GoInt.in_int64 50)
    by (unfold GoInt.in_int64, GoInt.min_int64, GoInt.max_int64; lia).
  split; [exact H |].
  apply (battery_level_round_trip Tests.parseFloat 50 1 (Scenario.t 0) 7
           initialWorld H).
Defined.

Lemma charging_session_report_witness :
  let session :=
    observeAll Tests.lookup (observe Tests.lookup newCar Tests.charge_start)
      [Tests.charge_peak] in
  let o := evaluate Tests.lookup (set_carState Tests.charge_end session) in
  chargePeak session = Tests.charge_peak /\
  List.head (sent o) =
    Some (finishChargingMessage Tests.lookup Tests.charge_start
            Tests.charge_end Tests.charge_peak).
Proof.
  cbv zeta.
  assert (Hl : Forall (fun s => chargerPower s <> 0) [Tests.charge_peak])
    by (constructor; [discriminate | constructor]).
  destruct (charging_session_report Tests.lookup newCar Tests.charge_start
              Tests.charge_end [Tests.charge_peak]
              eq_refl eq_refl Hl eq_refl) as (_ & _ & _ & Hsent & _).
  split; [reflexivity |].
  apply Hsent. vm_compute. discriminate.
Defined.

Lemma driving_session_report_witness :
  let s0 := set_shiftState "D" Tests.drive_start in
  let session :=
    observeAll Tests.lookup (observe Tests.lookup newCar s0) [] in
  let o := evaluate Tests.lookup (set_carState Tests.drive_end session) in
  driving session = true /\ driveStart session = s0 /\
  List.last (sent o) "" = finishDriveMessage Tests.lookup s0 Tests.drive_end.
Proof.
  cbv zeta.
  assert (Hl : Forall (fun s => driveShiftState (shiftState s) = true) [])
    by constructor.
  destruct (driving_session_report Tests.lookup newCar
              (set_shiftState "D" Tests.drive_start) Tests.drive_end []
              eq_refl eq_refl eq_refl Hl eq_refl)
    as (Hd & Hst & Hend).
  split; [exact Hd |]. split; [exact Hst |].
  destruct Hend as (_ & _ & Hsent & _); [vm_compute; reflexivity |].
  apply Hsent. vm_compute. discriminate.
Defined.
